(** * codedump: a shallow embedding of pkg/codedump and its properties

    The development follows [pkg/codedump/codedump.go]; the copies of
    [collect], [splitClean] and [stripPackageLine] in the top-level
    [main.go] are textually the same functions.

    Go [string]s are modelled by [string], [[]byte] by [list byte].
    The operating system is an explicit record of outcomes ([OS]); the
    directory tree that [filepath.WalkDir] enumerates is an inductive
    value, so the traversal is structural.  File-path functions are the
    Unix ones ([Separator] is the slash). *)

From Stdlib Require Import List Strings.String Strings.Ascii Strings.Byte Bool Arith ZArith Lia.
From Stdlib Require Import Sorting.Sorted Sorting.Permutation.
From Stdlib Require Import DecimalString Structures.OrdersEx.

Set Warnings "-register-all".
Import ListNotations.

Local Open Scope string_scope.
Local Open Scope list_scope.

(** [[]byte("...")] *)
Definition bytes_of (s : string) : list byte := list_byte_of_string s.

(* ================================================================ *)
(** ** Package [bytes] *)

Module Bytes.

(** [bytes.HasPrefix(s, prefix)] *)
Fixpoint HasPrefix (s prefix : list byte) : bool :=
  match prefix, s with
  | [], _ => true
  | p :: prefix', x :: s' => Byte.eqb x p && HasPrefix s' prefix'
  | _ :: _, [] => false
  end.

(** [bytes.Split(s, sep)] for a separator of one byte, the only way
    the package calls it.  The result is never empty: the empty input
    splits into one empty line. *)
Fixpoint Split (s : list byte) (sep : byte) : list (list byte) :=
  match s with
  | [] => [[]]
  | b :: t =>
      if Byte.eqb b sep then [] :: Split t sep
      else match Split t sep with
           | l :: ls => (b :: l) :: ls
           | [] => [[b]]
           end
  end.

(** [bytes.Join(s, sep)] *)
Fixpoint Join (s : list (list byte)) (sep : list byte) : list byte :=
  match s with
  | [] => []
  | [a] => a
  | a :: rest => a ++ sep ++ Join rest sep
  end.

(** The six ASCII bytes of Go's [asciiSpace] table. *)
Definition asciiSpace (b : byte) : bool :=
  match b with
  | x09 | x0a | x0b | x0c | x0d | x20 => true
  | _ => false
  end.

(** The UTF-8 encodings of the non-ASCII runes for which
    [unicode.IsSpace] holds: U+0085 and U+00A0 on two bytes; U+1680,
    U+2000..U+200A, U+2028, U+2029, U+202F, U+205F and U+3000 on three.
    A byte sequence decodes to one of these runes exactly when it is
    one of these encodings, whether it is read from the front
    ([utf8.DecodeRune]) or from the back ([utf8.DecodeLastRune]). *)
Definition spaceRune2 (b0 b1 : byte) : bool :=
  match b0 with
  | xc2 => match b1 with x85 | xa0 => true | _ => false end
  | _ => false
  end.

Definition spaceRune3 (b0 b1 b2 : byte) : bool :=
  match b0 with
  | xe1 => match b1 with
           | x9a => match b2 with x80 => true | _ => false end
           | _ => false
           end
  | xe2 => match b1 with
           | x80 => match b2 with
                    | x80 | x81 | x82 | x83 | x84 | x85 | x86 | x87
                    | x88 | x89 | x8a | xa8 | xa9 | xaf => true
                    | _ => false
                    end
           | x81 => match b2 with x9f => true | _ => false end
           | _ => false
           end
  | xe3 => match b1 with
           | x80 => match b2 with x80 => true | _ => false end
           | _ => false
           end
  | _ => false
  end.

(** [bytes.TrimLeftFunc(s, unicode.IsSpace)] *)
Fixpoint trimLeftSpace (s : list byte) : list byte :=
  match s with
  | [] => []
  | b0 :: t0 =>
      if asciiSpace b0 then trimLeftSpace t0
      else match t0 with
           | [] => s
           | b1 :: t1 =>
               if spaceRune2 b0 b1 then trimLeftSpace t1
               else match t1 with
                    | [] => s
                    | b2 :: t2 =>
                        if spaceRune3 b0 b1 b2 then trimLeftSpace t2 else s
                    end
           end
  end.

(** [bytes.TrimRightFunc(s, unicode.IsSpace)], on the reversed input. *)
Fixpoint trimRightSpaceRev (r : list byte) : list byte :=
  match r with
  | [] => []
  | b0 :: t0 =>
      if asciiSpace b0 then trimRightSpaceRev t0
      else match t0 with
           | [] => r
           | b1 :: t1 =>
               if spaceRune2 b1 b0 then trimRightSpaceRev t1
               else match t1 with
                    | [] => r
                    | b2 :: t2 =>
                        if spaceRune3 b2 b1 b0 then trimRightSpaceRev t2
                        else r
                    end
           end
  end.

(** [bytes.TrimSpace(s)]: leading, then trailing, white space removed. *)
Definition TrimSpace (s : list byte) : list byte :=
  rev (trimRightSpaceRev (rev (trimLeftSpace s))).

End Bytes.

(* ================================================================ *)
(** ** [StripPackageLine] *)

(** The test of the loop body: [bytes.HasPrefix(trim, []byte("package "))]
    with [trim := bytes.TrimSpace(ln)]. *)
Definition isPackageLine (ln : list byte) : bool :=
  Bytes.HasPrefix (Bytes.TrimSpace ln) (bytes_of "package ").

(** One iteration of the [for _, ln := range lines] loop; the state is
    the pair of the local variables [out] and [skipped]. *)
Definition stripStep (st : list (list byte) * bool) (ln : list byte)
  : list (list byte) * bool :=
  let '(out, skipped) := st in
  let trim := Bytes.TrimSpace ln in
  if negb skipped && Bytes.HasPrefix trim (bytes_of "package ")
  then (out, true)
  else (out ++ [ln], skipped).

Definition StripPackageLine (src : list byte) : list byte :=
  let lines := Bytes.Split src x0a in
  let '(out, _) := fold_left stripStep lines ([], false) in
  Bytes.Join out [x0a].

(* ================================================================ *)
(** ** Package [strings] *)

Module Strings.

(** [strings.Contains(s, substr)]: [substr] occurs at some offset of [s]. *)
Fixpoint Contains (s substr : string) : bool :=
  String.prefix substr s ||
  match s with
  | EmptyString => false
  | String _ t => Contains t substr
  end.

(** [strings.HasSuffix(s, suffix)]:
    [len(s) >= len(suffix) && s[len(s)-len(suffix):] == suffix]. *)
Definition HasSuffix (s suffix : string) : bool :=
  Nat.leb (String.length suffix) (String.length s) &&
  String.eqb
    (String.substring (String.length s - String.length suffix)
                      (String.length suffix) s)
    suffix.

(** [strings.Split(s, sep)] for a separator of one byte. *)
Fixpoint Split (s : string) (sep : ascii) : list string :=
  match s with
  | EmptyString => [EmptyString]
  | String ch t =>
      if Ascii.eqb ch sep then EmptyString :: Split t sep
      else match Split t sep with
           | l :: ls => String ch l :: ls
           | [] => [String ch EmptyString]
           end
  end.

(** [strings.TrimSpace(s)]: the same white space as [bytes.TrimSpace]. *)
Definition TrimSpace (s : string) : string :=
  string_of_list_byte (Bytes.TrimSpace (list_byte_of_string s)).

End Strings.

(* ================================================================ *)
(** ** Errors and the operating system *)

(** Go [error] values that the package sees: the two sentinels of
    [io/fs], an error reported by an [os] call, and the failure of
    calling a method on the nil [DirEntry]. *)
Inductive error : Type :=
| SkipDir
| SkipAll
| OSError (msg : string)
| NilDirEntry.

(** Outcome of an [os] call: a value, or the message of its error. *)
Inductive result (A : Type) : Type :=
| Ok (a : A)
| Failed (msg : string).
Arguments Ok {A} a.
Arguments Failed {A} msg.

(** What [WalkDir] enumerates below a path: a non-directory entry, or a
    directory with the outcome of [os.ReadDir] on it, the error if any
    and the entries it returned, each under its name. *)
Inductive node : Type :=
| NFile
| NDir (readDirErr : option string) (entries : list (string * node)).

Definition IsDir (d : node) : bool :=
  match d with
  | NDir _ _ => true
  | NFile => false
  end.

(** The calls that change the file system, as [Dump] issues them. *)
Inductive fs_op : Type :=
| OpMkdirAll (dir : string)
| OpWriteFile (name : string) (data : list byte).

Record OS : Type := mkOS {
  Getwd : result string;
  Lstat : string -> result node;           (* os.Lstat(root), with the tree below *)
  Stat : string -> result Z;               (* os.Stat(path), then st.Size() *)
  ReadFile : string -> result (list byte);
  MkdirAll : string -> option string;
  WriteFile : string -> list byte -> option string;
  Now : string;                            (* time.Now().Format(time.RFC3339) *)
  Version : string;                        (* runtime.Version() *)
  GOROOT : string;                         (* build.Default.GOROOT *)
  Sum256 : list byte -> list byte          (* sha256.Sum256 *)
}.

(** [wd, _ := os.Getwd()] *)
Definition getwd_ (os : OS) : string :=
  match Getwd os with
  | Ok wd => wd
  | Failed _ => EmptyString
  end.

(* ================================================================ *)
(** ** Package [path/filepath] (Unix) *)

Module Filepath.

Definition Separator : ascii := "/"%char.

Definition IsPathSeparator (ch : ascii) : bool := Ascii.eqb ch Separator.

Fixpoint replaceStringByte (s : string) (old new : ascii) : string :=
  match s with
  | EmptyString => EmptyString
  | String ch t =>
      String (if Ascii.eqb ch old then new else ch) (replaceStringByte t old new)
  end.

(** [filepath.ToSlash(path)] *)
Definition ToSlash (path : string) : string :=
  if Ascii.eqb Separator "/"%char then path
  else replaceStringByte path Separator "/"%char.

(** [filepath.IsAbs(path)] *)
Definition IsAbs (path : string) : bool := String.prefix "/" path.

(** One element of the path in [filepath.Clean]; [stack] holds the
    elements written so far, the last one first.  An empty element and
    [.] are dropped; [..] removes the last element when there is one to
    remove, is kept in front of a path that is not rooted, and is
    dropped at the root. *)
Definition cleanStep (rooted : bool) (stack : list string) (e : string)
  : list string :=
  if String.eqb e "" || String.eqb e "." then stack
  else if String.eqb e ".." then
    match stack with
    | top :: rest =>
        if String.eqb top ".." then ".." :: stack else rest
    | [] => if rooted then [] else [".."]
    end
  else e :: stack.

(** [filepath.Clean(path)] *)
Definition Clean (path : string) : string :=
  if String.eqb path "" then "."
  else
    let rooted := String.prefix "/" path in
    let stack := fold_left (cleanStep rooted) (Strings.Split path Separator) [] in
    let body := String.concat "/" (rev stack) in
    let out := if rooted then String.append "/" body else body in
    if String.eqb out "" then "." else out.

(** [filepath.Join(elem...)] *)
Fixpoint Join (elem : list string) : string :=
  match elem with
  | [] => ""
  | e :: rest =>
      if String.eqb e "" then Join rest
      else Clean (String.concat "/" elem)
  end.

Fixpoint dropTrailingSeparators (r : list ascii) : list ascii :=
  match r with
  | ch :: t => if IsPathSeparator ch then dropTrailingSeparators t else r
  | [] => []
  end.

Fixpoint lastElementRev (r : list ascii) : list ascii :=
  match r with
  | ch :: t => if IsPathSeparator ch then [] else ch :: lastElementRev t
  | [] => []
  end.

(** [filepath.Base(path)]: trailing separators are stripped, then the
    part after the last separator is returned; the computation runs on
    the reversed path. *)
Definition Base (path : string) : string :=
  if String.eqb path "" then "."
  else
    let r := dropTrailingSeparators (rev (list_ascii_of_string path)) in
    let last := string_of_list_ascii (rev (lastElementRev r)) in
    if String.eqb last "" then String Separator "" else last.

Fixpoint dropLastElementRev (r : list ascii) : list ascii :=
  match r with
  | ch :: t => if IsPathSeparator ch then r else dropLastElementRev t
  | [] => []
  end.

(** [filepath.Dir(path)]: [Clean] of the path up to its last separator. *)
Definition Dir (path : string) : string :=
  Clean (string_of_list_ascii
           (rev (dropLastElementRev (rev (list_ascii_of_string path))))).

(** [filepath.Abs(path)] *)
Definition Abs (os : OS) (path : string) : string * option error :=
  if IsAbs path then (Clean path, None)
  else match Getwd os with
       | Failed m => ("", Some (OSError m))
       | Ok wd => (Join [wd; path], None)
       end.

Fixpoint dropCommon (bs ts : list string) : list string * list string :=
  match bs, ts with
  | b :: bs', t :: ts' =>
      if String.eqb t b then dropCommon bs' ts' else (bs, ts)
  | _, _ => (bs, ts)
  end.

Definition elements (p : string) : list string :=
  filter (fun e => negb (String.eqb e "")) (Strings.Split p Separator).

(** [filepath.Rel(basepath, targpath)]: both paths are cleaned, their
    common leading elements dropped, and the result climbs out of what
    is left of the base with one [..] per element before it descends
    into what is left of the target. *)
Definition Rel (basepath targpath : string) : string * option error :=
  let base := Clean basepath in
  let targ := Clean targpath in
  if String.eqb targ base then (".", None)
  else
    let base := if String.eqb base "." then "" else base in
    if negb (Bool.eqb (String.prefix "/" base) (String.prefix "/" targ))
    then ("", Some (OSError "Rel: can't make relative"))
    else
      let '(bs, ts) := dropCommon (elements base) (elements targ) in
      match bs with
      | [] => (String.concat "/" ts, None)
      | b :: _ =>
          if String.eqb b ".."
          then ("", Some (OSError "Rel: can't make relative"))
          else (String.concat "/" (map (fun _ => "..") bs ++ ts), None)
      end.

(** *** [filepath.WalkDir] *)

Section Walk.

(** The state the callback closes over. *)
Context {S : Type}.

(** [fs.WalkDirFunc]: path, entry (nil when [Lstat] of the root failed),
    incoming error; it returns the new state and its error. *)
Variable fn : string -> option node -> option error -> S -> S * option error.

Definition isSkipDir (e : error) : bool :=
  match e with
  | SkipDir => true
  | _ => false
  end.

Fixpoint walkDir (path : string) (d : node) (st : S) {struct d}
  : S * option error :=
  match fn path (Some d) None st with
  | (st1, Some err) =>
      (st1, if isSkipDir err && IsDir d then None else Some err)
  | (st1, None) =>
      match d with
      | NFile => (st1, None)
      | NDir rderr dirs =>
          let '(st2, err2) :=
            match rderr with
            | Some m => fn path (Some d) (Some (OSError m)) st1
            | None => (st1, None)
            end in
          match err2 with
          | Some err => (st2, if isSkipDir err then None else Some err)
          | None =>
              (fix range (dirs : list (string * node)) (st : S)
                 : S * option error :=
                 match dirs with
                 | [] => (st, None)
                 | (name, d1) :: rest =>
                     let path1 := Join [path; name] in
                     match walkDir path1 d1 st with
                     | (st', Some err) =>
                         if isSkipDir err then (st', None)
                         else (st', Some err)
                     | (st', None) => range rest st'
                     end
                 end) dirs st2
          end
      end
  end.

(** The loop [for _, d1 := range dirs] of [walkDir], on its own. *)
Definition walkRange (path : string)
  : list (string * node) -> S -> S * option error :=
  fix range (dirs : list (string * node)) (st : S) : S * option error :=
    match dirs with
    | [] => (st, None)
    | (name, d1) :: rest =>
        let path1 := Join [path; name] in
        match walkDir path1 d1 st with
        | (st', Some err) =>
            if isSkipDir err then (st', None)
            else (st', Some err)
        | (st', None) => range rest st'
        end
    end.

Definition WalkDir (os : OS) (root : string) (st : S) : S * option error :=
  let '(st', err) :=
    match Lstat os root with
    | Failed m => fn root None (Some (OSError m)) st
    | Ok info => walkDir root info st
    end in
  match err with
  | Some SkipDir | Some SkipAll => (st', None)
  | _ => (st', err)
  end.

End Walk.

End Filepath.

(* ================================================================ *)
(** ** Packages [sort], [encoding/hex] and [fmt] *)

(** [sort.Slice(x, less)].  Go promises a permutation of [x] in which no
    element is [less] than one before it, and does not promise the order
    of elements that compare equal; insertion from the right is one such
    sort (it keeps equal elements in their original order). *)
Fixpoint insertSlice {A : Type} (less : A -> A -> bool) (x : A) (l : list A)
  : list A :=
  match l with
  | [] => [x]
  | y :: l' => if less y x then y :: insertSlice less x l' else x :: l
  end.

Fixpoint sort_Slice {A : Type} (less : A -> A -> bool) (x : list A) : list A :=
  match x with
  | [] => []
  | a :: x' => insertSlice less a (sort_Slice less x')
  end.

Definition hexDigit (n : N) : ascii :=
  match n with
  | 0%N => "0" | 1%N => "1" | 2%N => "2" | 3%N => "3"
  | 4%N => "4" | 5%N => "5" | 6%N => "6" | 7%N => "7"
  | 8%N => "8" | 9%N => "9" | 10%N => "a" | 11%N => "b"
  | 12%N => "c" | 13%N => "d" | 14%N => "e" | _ => "f"
  end%char.

(** [hex.EncodeToString(src)] *)
Fixpoint hex_EncodeToString (src : list byte) : string :=
  match src with
  | [] => ""
  | b :: t =>
      let n := Byte.to_N b in
      String (hexDigit (N.div n 16))
        (String (hexDigit (N.modulo n 16)) (hex_EncodeToString t))
  end.

(** The verb [%d] of [fmt] on an integer. *)
Definition fmt_d (z : Z) : string := NilZero.string_of_int (Z.to_int z).

(** [fmt.Fprintf(&buf, "...")] once the verbs are expanded to [s]. *)
Definition Fprint (buf : list byte) (s : string) : list byte :=
  buf ++ list_byte_of_string s.

Definition nl : string := String (ascii_of_nat 10) "".

(* ================================================================ *)
(** ** Package [codedump] *)

Record Config : Type := mkConfig {
  Root : string;
  Target : string;
  Out : string;
  Ext : string;
  Include : string;
  Exclude : string;
  Pkg : bool
}.

Definition DefaultConfig : Config :=
  {| Root := ".";
     Target := "./models";
     Out := "models_tree.txt";
     Ext := ".go";
     Include := "";
     Exclude := "_test.go,/.git/,/vendor/";
     Pkg := false |}.

Record Item : Type := mkItem {
  rel : string;
  abs : string;
  sha : string;
  size : Z
}.

(** [AbsFrom(base, p)] *)
Definition AbsFrom (os : OS) (base p : string) : string :=
  if Filepath.IsAbs p then p
  else fst (Filepath.Abs os (Filepath.Join [base; p])).

(** [SplitClean(s)] *)
Definition SplitClean (s : string) : list string :=
  let parts := Strings.Split s ","%char in
  fold_left
    (fun out p =>
       let p := Filepath.ToSlash (Strings.TrimSpace p) in
       if negb (String.eqb p "") then out ++ [p] else out)
    parts [].

(** The two loops [for _, bad := range excl] of the callback: some
    non-empty [bad] occurs in [pp]. *)
Definition matchesExclude (excl : list string) (pp : string) : bool :=
  existsb (fun bad => negb (String.eqb bad "") && Strings.Contains pp bad) excl.

(** The function literal that [Collect] passes to [filepath.WalkDir];
    it closes over [c], [excl], [wd] and the slice [out]. *)
Definition collectFn (os : OS) (c : Config) (excl : list string) (wd : string)
    (path : string) (d : option node) (err : option error) (out : list Item)
  : list Item * option error :=
  match err with
  | Some e => (out, Some e)
  | None =>
  match d with
  | None => (out, Some NilDirEntry)
  | Some d =>
  if IsDir d then
    let pp := Filepath.ToSlash path in
    if matchesExclude excl pp then (out, Some SkipDir) else (out, None)
  else if negb (Strings.HasSuffix path (Ext c)) then (out, None)
  else if String.eqb (Filepath.Base path) (Out c) then (out, None)
  else
    let pp := Filepath.ToSlash path in
    if negb (String.eqb (Include c) "") && negb (Strings.Contains pp (Include c))
    then (out, None)
    else if matchesExclude excl pp then (out, None)
    else
      match Stat os path with
      | Failed m => (out, Some (OSError m))
      | Ok st_size =>
      match ReadFile os path with
      | Failed m => (out, Some (OSError m))
      | Ok data =>
          let sum := Sum256 os data in
          let rel := fst (Filepath.Rel wd path) in
          (out ++ [ {| rel := Filepath.ToSlash rel;
                       abs := path;
                       sha := hex_EncodeToString sum;
                       size := st_size |} ], None)
      end
      end
  end
  end.

(** [Collect(targetAbs, c)] *)
Definition Collect (os : OS) (targetAbs : string) (c : Config)
  : list Item * option error :=
  let excl := SplitClean (Exclude c) in
  let wd := getwd_ os in
  let '(out, err) :=
    Filepath.WalkDir (collectFn os c excl wd) os targetAbs [] in
  match err with
  | Some e => ([], Some e)
  | None => (sort_Slice (fun a b => String.ltb (rel a) (rel b)) out, None)
  end.

(** The header that [Dump] writes first. *)
Definition writeHeader (os : OS) (wd rootAbs targetAbs outAbs : string)
    (buf : list byte) : list byte :=
  let buf := Fprint buf ("// ===== CODEDUMP GENERATED =====" ++ nl) in
  let buf := Fprint buf ("// #pwd: " ++ wd ++ nl) in
  let buf := Fprint buf ("// #generated_at: " ++ Now os ++ nl) in
  let buf := Fprint buf ("// #go_version: " ++ Version os ++ nl) in
  let buf := Fprint buf ("// #goroot: " ++ GOROOT os ++ nl) in
  let buf := Fprint buf ("// #root: " ++ Filepath.ToSlash rootAbs ++ nl) in
  let buf := Fprint buf ("// #target: " ++ Filepath.ToSlash targetAbs ++ nl) in
  let buf := Fprint buf ("// #out: " ++ Filepath.ToSlash outAbs ++ nl) in
  Fprint buf ("// =================================" ++ nl ++ nl).

(** The last three statements of the loop body of [Dump]: the content,
    the newline when [len(content) > 0 && content[len(content)-1] != '\n'],
    and the end banner. *)
Definition writeContent (buf content : list byte) : list byte :=
  let buf := buf ++ content in
  if (0 <? List.length content)%nat
     && negb (Byte.eqb (last content x00) x0a)
  then buf ++ [x0a] else buf.

(** One iteration of [for _, it := range items] once the file is read. *)
Definition writeBlock (c : Config) (it : Item) (data : list byte)
    (buf : list byte) : list byte :=
  let content := if negb (Pkg c) then StripPackageLine data else data in
  let buf := Fprint buf ("// ===== BEGIN FILE =====" ++ nl) in
  let buf := Fprint buf ("// #rel_path: " ++ rel it ++ nl) in
  let buf := Fprint buf ("// #abs_path: " ++ Filepath.ToSlash (abs it) ++ nl) in
  let buf := Fprint buf ("// #size_bytes: " ++ fmt_d (size it) ++ nl) in
  let buf := Fprint buf ("// #sha256: " ++ sha it ++ nl) in
  let buf := Fprint buf ("// ======================" ++ nl) in
  let buf := writeContent buf content in
  Fprint buf ("// ===== END FILE =====" ++ nl ++ nl).

(** The loop of [Dump]; it stops at the first file it cannot read. *)
Fixpoint dumpItems (os : OS) (c : Config) (items : list Item)
    (buf : list byte) : list byte * option error :=
  match items with
  | [] => (buf, None)
  | it :: rest =>
      match ReadFile os (abs it) with
      | Failed m => (buf, Some (OSError m))
      | Ok data => dumpItems os c rest (writeBlock c it data buf)
      end
  end.

(** [Dump(c)]: the calls that changed the file system, in order, and the
    three results. *)
Definition Dump (os : OS) (c : Config)
  : list fs_op * (string * Z * option error) :=
  let wd := getwd_ os in
  let rootAbs := AbsFrom os wd (Root c) in
  let targetAbs := AbsFrom os wd (Target c) in
  let outAbs := AbsFrom os rootAbs (Out c) in
  match Collect os targetAbs c with
  | (_, Some err) => ([], ("", 0%Z, Some err))
  | (items, None) =>
      let buf := writeHeader os wd rootAbs targetAbs outAbs [] in
      match dumpItems os c items buf with
      | (_, Some err) => ([], ("", 0%Z, Some err))
      | (buf, None) =>
          let dir := Filepath.Dir outAbs in
          match MkdirAll os dir with
          | Some m => ([OpMkdirAll dir], ("", 0%Z, Some (OSError m)))
          | None =>
              match WriteFile os outAbs buf with
              | Some m =>
                  ([OpMkdirAll dir; OpWriteFile outAbs buf],
                   ("", 0%Z, Some (OSError m)))
              | None =>
                  ([OpMkdirAll dir; OpWriteFile outAbs buf],
                   (outAbs, Z.of_nat (List.length items), None))
              end
          end
      end
  end.

(* ================================================================ *)
(** ** Vocabulary of the statements *)

(** The spec's wording of the content transformer: remove the first
    line that satisfies [p], and no other. *)
Fixpoint removeFirst {A : Type} (p : A -> bool) (ls : list A) : list A :=
  match ls with
  | [] => []
  | l :: rest => if p l then rest else l :: removeFirst p rest
  end.

(** The lines of [b] that the transformer would take for a declaration. *)
Definition packageLines (b : list byte) : list (list byte) :=
  filter isPackageLine (Bytes.Split b x0a).

Definition endsWithNewline (b : list byte) : bool :=
  match rev b with
  | x0a :: _ => true
  | _ => false
  end.

(** The four tests that the callback of [Collect] makes on a file
    before it stats and reads it. *)
Definition selects (c : Config) (excl : list string) (path : string) : bool :=
  Strings.HasSuffix path (Ext c)
  && negb (String.eqb (Filepath.Base path) (Out c))
  && (String.eqb (Include c) "" || Strings.Contains (Filepath.ToSlash path) (Include c))
  && negb (matchesExclude excl (Filepath.ToSlash path)).

(** [Visits excl path d p d']: the traversal of the entry [d] found at
    [path] meets the entry [d'] at [p], going down only through
    directories that the exclude list does not prune. *)
Inductive Visits (excl : list string)
  : string -> node -> string -> node -> Prop :=
| Visits_here : forall path d, Visits excl path d path d
| Visits_child : forall path rderr dirs name d1 p d,
    matchesExclude excl (Filepath.ToSlash path) = false ->
    In (name, d1) dirs ->
    Visits excl (Filepath.Join [path; name]) d1 p d ->
    Visits excl path (NDir rderr dirs) p d.

(** [it] is the item that the callback builds for the file at [p]. *)
Definition itemOf (os : OS) (wd : string) (it : Item) (p : string) : Prop :=
  abs it = p /\
  Stat os p = Ok (size it) /\
  exists data, ReadFile os p = Ok data /\
    sha it = hex_EncodeToString (Sum256 os data) /\
    rel it = Filepath.ToSlash (fst (Filepath.Rel wd p)).

(** A file-system error with message [m] inside what the traversal of
    the entry [d] at [path] scans: [ReadDir] of a directory that is
    visited and not pruned, [Stat] of a selected file, or [ReadFile] of
    a selected file once it is statted. *)
Inductive WalkError (os : OS) (c : Config) (excl : list string)
    (path : string) (d : node) (m : string) : Prop :=
| WalkError_readdir : forall p dirs,
    Visits excl path d p (NDir (Some m) dirs) ->
    matchesExclude excl (Filepath.ToSlash p) = false ->
    WalkError os c excl path d m
| WalkError_stat : forall p,
    Visits excl path d p NFile ->
    selects c excl p = true ->
    Stat os p = Failed m ->
    WalkError os c excl path d m
| WalkError_read : forall p st_size,
    Visits excl path d p NFile ->
    selects c excl p = true ->
    Stat os p = Ok st_size ->
    ReadFile os p = Failed m ->
    WalkError os c excl path d m.

(** A file-system error with message [m] in a run of [Collect] on
    [targetAbs]: [Lstat] of the target fails, or the traversal of the
    tree below it meets one. *)
Inductive ScanError (os : OS) (c : Config) (targetAbs : string) (m : string)
  : Prop :=
| ScanError_lstat :
    Lstat os targetAbs = Failed m -> ScanError os c targetAbs m
| ScanError_walk : forall root,
    Lstat os targetAbs = Ok root ->
    WalkError os c (SplitClean (Exclude c)) targetAbs root m ->
    ScanError os c targetAbs m.

(** The three paths that [Dump] resolves first. *)
Definition rootAbsOf (os : OS) (c : Config) : string :=
  AbsFrom os (getwd_ os) (Root c).
Definition targetAbsOf (os : OS) (c : Config) : string :=
  AbsFrom os (getwd_ os) (Target c).
Definition outAbsOf (os : OS) (c : Config) : string :=
  AbsFrom os (rootAbsOf os c) (Out c).

(** What [os.ReadFile] gives for an item, the empty content if it fails. *)
Definition dataOf (os : OS) (it : Item) : list byte :=
  match ReadFile os (abs it) with
  | Ok data => data
  | Failed _ => []
  end.

(** Induction on a tree, with the hypothesis on every entry of a
    directory. *)
Fixpoint node_ind_entries (P : node -> Prop)
    (HF : P NFile)
    (HD : forall rderr dirs,
        Forall (fun nd => P (snd nd)) dirs -> P (NDir rderr dirs))
    (d : node) {struct d} : P d :=
  match d with
  | NFile => HF
  | NDir rderr dirs =>
      HD rderr dirs
        ((fix all (l : list (string * node))
            : Forall (fun nd => P (snd nd)) l :=
            match l with
            | [] => Forall_nil _
            | nd :: l' =>
                Forall_cons nd (node_ind_entries P HF HD (snd nd)) (all l')
            end) dirs)
  end.

(** What a traversal that ended without error owes to an entry it met:
    a selected file has its item among the new ones, and a directory
    that was not pruned was read without error. *)
Definition reachedOK (os : OS) (c : Config) (excl : list string) (wd : string)
    (new : list Item) (p : string) (d : node) : Prop :=
  match d with
  | NFile =>
      selects c excl p = true -> exists it, In it new /\ itemOf os wd it p
  | NDir rderr _ =>
      matchesExclude excl (Filepath.ToSlash p) = false -> rderr = None
  end.

(** The outcome [(out', r)] of walking the entry [d] at [path] from the
    slice [out]. *)
Definition walkPost (os : OS) (c : Config) (excl : list string) (wd : string)
    (path : string) (d : node) (out out' : list Item) (r : option error)
  : Prop :=
  (r = None \/
   exists m, r = Some (OSError m) /\ WalkError os c excl path d m) /\
  exists new, out' = out ++ new /\
    (forall it, In it new ->
       exists p, Visits excl path d p NFile /\
                 selects c excl p = true /\ itemOf os wd it p) /\
    (r = None ->
     forall p d', Visits excl path d p d' -> reachedOK os c excl wd new p d').

(** The same for the loop over the entries [dirs] of the directory at
    [path]. *)
Definition rangePost (os : OS) (c : Config) (excl : list string) (wd : string)
    (path : string) (dirs : list (string * node)) (out out' : list Item)
    (r : option error) : Prop :=
  (r = None \/
   exists m, r = Some (OSError m) /\
     exists name d1, In (name, d1) dirs /\
       WalkError os c excl (Filepath.Join [path; name]) d1 m) /\
  exists new, out' = out ++ new /\
    (forall it, In it new ->
       exists name d1 p, In (name, d1) dirs /\
         Visits excl (Filepath.Join [path; name]) d1 p NFile /\
         selects c excl p = true /\ itemOf os wd it p) /\
    (r = None ->
     forall name d1 p d', In (name, d1) dirs ->
       Visits excl (Filepath.Join [path; name]) d1 p d' ->
       reachedOK os c excl wd new p d').

(** The lines of a file block that come before the content. *)
Definition blockHead (it : Item) (buf : list byte) : list byte :=
  let buf := Fprint buf ("// ===== BEGIN FILE =====" ++ nl) in
  let buf := Fprint buf ("// #rel_path: " ++ rel it ++ nl) in
  let buf := Fprint buf ("// #abs_path: " ++ Filepath.ToSlash (abs it) ++ nl) in
  let buf := Fprint buf ("// #size_bytes: " ++ fmt_d (size it) ++ nl) in
  let buf := Fprint buf ("// #sha256: " ++ sha it ++ nl) in
  Fprint buf ("// ======================" ++ nl).

(** The content that [Dump] embeds for the raw bytes [data]. *)
Definition contentOf (c : Config) (data : list byte) : list byte :=
  if negb (Pkg c) then StripPackageLine data else data.

(** The comparison that [Collect] sorts with. *)
Definition lessRel (a b : Item) : bool := String.ltb (rel a) (rel b).


(* ================================================================ *)
(** ** Example file systems *)

(** A machine whose working directory is [wd], with the tree [tree] at
    [root]; every file reads as a two-line Go file except [unreadable]. *)
Definition exampleOS (wd root : string) (tree : node) (unreadable : string)
  : OS :=
  {| Getwd := Ok wd;
     Lstat := fun p =>
       if String.eqb p root then Ok tree
       else Failed "no such file or directory";
     Stat := fun p => Ok 64%Z;
     ReadFile := fun p =>
       if String.eqb p unreadable then Failed "permission denied"
       else Ok (bytes_of ("package m" ++ nl ++ "// " ++ p ++ nl));
     MkdirAll := fun _ => None;
     WriteFile := fun _ _ => None;
     Now := "2025-08-11T17:32:33-03:00";
     Version := "go1.24.3";
     GOROOT := "/usr/local/go";
     Sum256 := fun _ => repeat x00 32 |}.

Definition cfgHere (out ext : string) : Config :=
  {| Root := "."; Target := "."; Out := out; Ext := ext;
     Include := ""; Exclude := "_test.go,/.git/,/vendor/"; Pkg := false |}.

(** The three files of the spec's ordering example, enumerated in
    another order than the sorted one. *)
Definition os_abz : OS :=
  exampleOS "/w" "/w"
    (NDir None [("z.go", NFile);
                ("a", NDir None [("b.go", NFile); ("a.go", NFile)])])
    "".

(** The same tree, with one file that cannot be read. *)
Definition os_unreadable : OS :=
  exampleOS "/w" "/w"
    (NDir None [("z.go", NFile);
                ("a", NDir None [("b.go", NFile); ("a.go", NFile)])])
    "/w/a/b.go".

(** A project checked out below a directory named [vendor]. *)
Definition os_vendor : OS :=
  exampleOS "/home/u/vendor/proj" "/home/u/vendor/proj/models"
    (NDir None [("user.go", NFile)]) "".

(** A tree that holds the artifact of an earlier run, [docs/dump.txt]. *)
Definition os_self : OS :=
  exampleOS "/w" "/w"
    (NDir None [("docs", NDir None [("dump.txt", NFile)]);
                ("notes.txt", NFile)])
    "".

(** A tree with a directory below [vendor] that cannot be listed. *)
Definition os_pruned : OS :=
  exampleOS "/w" "/w"
    (NDir None
       [("vendor",
         NDir None
           [("lib", NDir (Some "permission denied") [("x.go", NFile)])]);
        ("m.go", NFile)])
    "".

(** A tree with a file that has no extension. *)
Definition os_mixed : OS :=
  exampleOS "/w" "/w" (NDir None [("Makefile", NFile); ("m.go", NFile)]) "".

(* ================================================================ *)
(** ** Vocabulary of the further properties *)

(** The paths of the files that a traversal without error selects below
    the entry [d] at [path], in the order in which it meets them. *)
Fixpoint selectedPaths (c : Config) (excl : list string) (path : string)
    (d : node) {struct d} : list string :=
  match d with
  | NFile => if selects c excl path then [path] else []
  | NDir _ dirs =>
      if matchesExclude excl (Filepath.ToSlash path) then []
      else
        (fix range (dirs : list (string * node)) : list string :=
           match dirs with
           | [] => []
           | (name, d1) :: rest =>
               selectedPaths c excl (Filepath.Join [path; name]) d1
               ++ range rest
           end) dirs
  end.

(** The same for the entries [dirs] of the directory at [path]. *)
Fixpoint selectedBelow (c : Config) (excl : list string) (path : string)
    (dirs : list (string * node)) : list string :=
  match dirs with
  | [] => []
  | (name, d1) :: rest =>
      selectedPaths c excl (Filepath.Join [path; name]) d1
      ++ selectedBelow c excl path rest
  end.

(** The artifact for the items [items]: the header, then one block per
    item in the order of the list. *)
Definition artifactOf (os : OS) (c : Config) (items : list Item) : list byte :=
  fold_left (fun b it => writeBlock c it (dataOf os it) b) items
    (writeHeader os (getwd_ os) (rootAbsOf os c) (targetAbsOf os c)
       (outAbsOf os c) []).

(** A prefix of a byte sequence is white space for [bytes.TrimSpace]. *)
Definition startsWithSpace (s : list byte) : bool :=
  match s with
  | [] => false
  | b0 :: t0 =>
      Bytes.asciiSpace b0 ||
      match t0 with
      | [] => false
      | b1 :: t1 =>
          Bytes.spaceRune2 b0 b1 ||
          match t1 with
          | [] => false
          | b2 :: _ => Bytes.spaceRune3 b0 b1 b2
          end
      end
  end.

(** The same at the end, read on the reversed sequence. *)
Definition endsWithSpaceRev (r : list byte) : bool :=
  match r with
  | [] => false
  | b0 :: t0 =>
      Bytes.asciiSpace b0 ||
      match t0 with
      | [] => false
      | b1 :: t1 =>
          Bytes.spaceRune2 b1 b0 ||
          match t1 with
          | [] => false
          | b2 :: _ => Bytes.spaceRune3 b2 b1 b0
          end
      end
  end.

(** A tree for the include filter: one path holds [DTO], one does not. *)
Definition os_dto : OS :=
  exampleOS "/w" "/w" (NDir None [("a_DTO.go", NFile); ("b.go", NFile)]) "".

Definition cfgInclude (include : string) : Config :=
  {| Root := "."; Target := "."; Out := "dump.txt"; Ext := ".go";
     Include := include; Exclude := "_test.go,/.git/,/vendor/"; Pkg := false |}.

(** A machine on which the directory of the artifact cannot be made. *)
Definition os_readonly : OS :=
  {| Getwd := Ok "/w";
     Lstat := fun p =>
       if String.eqb p "/w" then Ok (NDir None [("m.go", NFile)])
       else Failed "no such file or directory";
     Stat := fun p => Ok 64%Z;
     ReadFile := fun p => Ok (bytes_of ("package m" ++ nl));
     MkdirAll := fun _ => Some "read-only file system";
     WriteFile := fun _ _ => Some "read-only file system";
     Now := "2025-08-11T17:32:33-03:00";
     Version := "go1.24.3";
     GOROOT := "/usr/local/go";
     Sum256 := fun _ => repeat x00 32 |}.

(* ================================================================ *)
(** ** The configuration file *)

(** What [strings.ToLower] and [strings.EqualFold] do once they meet a
    byte that is not ASCII: [Map(unicode.ToLower, s)] on the whole
    string, and the rune-by-rune comparison under Unicode case folding
    of what is left of the two strings.  The tables of package
    [unicode] stay outside; on ASCII strings neither is called. *)
Record UnicodeTables : Type := mkUnicodeTables {
  MapToLower : string -> string;
  FoldUnicode : string -> string -> bool
}.

Definition isASCIIchar (ch : ascii) : bool := (nat_of_ascii ch <? 128)%nat.

Definition isUpperASCII (ch : ascii) : bool :=
  (65 <=? nat_of_ascii ch)%nat && (nat_of_ascii ch <=? 90)%nat.

Definition lowerASCII (ch : ascii) : ascii :=
  if isUpperASCII ch then ascii_of_nat (nat_of_ascii ch + 32) else ch.

Fixpoint isASCII (s : string) : bool :=
  match s with
  | EmptyString => true
  | String ch t => isASCIIchar ch && isASCII t
  end.

Fixpoint mapLowerASCII (s : string) : string :=
  match s with
  | EmptyString => EmptyString
  | String ch t => String (lowerASCII ch) (mapLowerASCII t)
  end.

(** [strings.ToLower(s)] *)
Definition strings_ToLower (u : UnicodeTables) (s : string) : string :=
  if isASCII s then mapLowerASCII s else MapToLower u s.

(** [strings.EqualFold(s, t)]: byte by byte while both bytes are ASCII,
    equal or the two cases of one letter; the strings must end
    together. *)
Fixpoint strings_EqualFold (u : UnicodeTables) (s t : string) {struct s}
  : bool :=
  match s, t with
  | String sr s', String tr t' =>
      if negb (isASCIIchar sr) || negb (isASCIIchar tr) then FoldUnicode u s t
      else if Ascii.eqb tr sr then strings_EqualFold u s' t'
      else
        let lo := if (nat_of_ascii tr <? nat_of_ascii sr)%nat then tr else sr in
        let hi := if (nat_of_ascii tr <? nat_of_ascii sr)%nat then sr else tr in
        if isUpperASCII lo && (nat_of_ascii hi =? nat_of_ascii lo + 32)%nat
        then strings_EqualFold u s' t'
        else false
  | EmptyString, EmptyString => true
  | _, _ => false
  end.

(** The first occurrence of [sep] in [s]: what stands before it and
    what stands after it. *)
Fixpoint cutAt (s : string) (sep : ascii) : option (string * string) :=
  match s with
  | EmptyString => None
  | String ch t =>
      if Ascii.eqb ch sep then Some (EmptyString, t)
      else match cutAt t sep with
           | Some (a, b) => Some (String ch a, b)
           | None => None
           end
  end.

(** [strings.SplitN(s, sep, 2)] for a separator of one byte. *)
Definition strings_SplitN2 (s : string) (sep : ascii) : list string :=
  match cutAt s sep with
  | Some (a, b) => [a; b]
  | None => [s]
  end.

Definition DefaultRCName : string := ".codedumprc".

Definition dquote : string := String (ascii_of_nat 34) "".

(** The text that [WriteDefaultRC] writes. *)
Definition defaultRCContent : string :=
  "# .codedumprc" ++ nl ++
  "# Root of the project (where the final TXT will be saved)" ++ nl ++
  "root=." ++ nl ++
  nl ++
  "# Target folder to scan" ++ nl ++
  "target=./models" ++ nl ++
  nl ++
  "# Output file name (relative to root)" ++ nl ++
  "out=models_tree.txt" ++ nl ++
  nl ++
  "# File extension to include" ++ nl ++
  "ext=.go" ++ nl ++
  nl ++
  "# Substrings to exclude (comma separated)" ++ nl ++
  "exclude=_test.go,/.git/,/vendor/" ++ nl ++
  nl ++
  "# Required substring (optional)" ++ nl ++
  "include=" ++ nl ++
  nl ++
  "# Keep " ++ dquote ++ "package" ++ dquote ++ " line (true/false)" ++ nl ++
  "pkg=false" ++ nl.

(** [WriteDefaultRC(path)]: the call it issues and its error. *)
Definition WriteDefaultRC (os : OS) (path : string)
  : list fs_op * option error :=
  let content := list_byte_of_string defaultRCContent in
  match WriteFile os path content with
  | Some m => ([OpWriteFile path content], Some (OSError m))
  | None => ([OpWriteFile path content], None)
  end.

(** The value of the key [pkg]. *)
Definition rcBool (u : UnicodeTables) (v : string) : bool :=
  strings_EqualFold u v "true" || String.eqb v "1"
  || strings_EqualFold u v "yes".

(** The [switch strings.ToLower(k)] of [ReadRC]. *)
Definition rcSwitch (u : UnicodeTables) (k v : string) (c : Config) : Config :=
  let key := strings_ToLower u k in
  if String.eqb key "root" then
    {| Root := v; Target := Target c; Out := Out c; Ext := Ext c;
       Include := Include c; Exclude := Exclude c; Pkg := Pkg c |}
  else if String.eqb key "target" then
    {| Root := Root c; Target := v; Out := Out c; Ext := Ext c;
       Include := Include c; Exclude := Exclude c; Pkg := Pkg c |}
  else if String.eqb key "out" then
    {| Root := Root c; Target := Target c; Out := v; Ext := Ext c;
       Include := Include c; Exclude := Exclude c; Pkg := Pkg c |}
  else if String.eqb key "ext" then
    {| Root := Root c; Target := Target c; Out := Out c; Ext := v;
       Include := Include c; Exclude := Exclude c; Pkg := Pkg c |}
  else if String.eqb key "exclude" then
    {| Root := Root c; Target := Target c; Out := Out c; Ext := Ext c;
       Include := Include c; Exclude := v; Pkg := Pkg c |}
  else if String.eqb key "include" then
    {| Root := Root c; Target := Target c; Out := Out c; Ext := Ext c;
       Include := v; Exclude := Exclude c; Pkg := Pkg c |}
  else if String.eqb key "pkg" then
    {| Root := Root c; Target := Target c; Out := Out c; Ext := Ext c;
       Include := Include c; Exclude := Exclude c; Pkg := rcBool u v |}
  else c.

(** One iteration of [for _, ln := range lines] in [ReadRC]. *)
Definition rcLine (u : UnicodeTables) (c : Config) (ln : string) : Config :=
  let ln := Strings.TrimSpace ln in
  if String.eqb ln "" || String.prefix "#" ln then c
  else
    match strings_SplitN2 ln "="%char with
    | [k0; v0] =>
        let k := Strings.TrimSpace k0 in
        let v := Strings.TrimSpace v0 in
        rcSwitch u k v c
    | _ => c
    end.

(** [ReadRC(path, c)]: the configuration that [c] points to when it
    returns, and its error. *)
Definition ReadRC (u : UnicodeTables) (os : OS) (path : string) (c : Config)
  : Config * option error :=
  match ReadFile os path with
  | Failed m => (c, Some (OSError m))
  | Ok b =>
      let lines := Strings.Split (string_of_list_byte b) (ascii_of_nat 10) in
      (fold_left (rcLine u) lines c, None)
  end.

(** The assignment that a line of the file makes, if it makes one: its
    key in lower case and its value, both without white space around. *)
Definition rcParse (u : UnicodeTables) (ln : string) : option (string * string) :=
  let ln := Strings.TrimSpace ln in
  if String.eqb ln "" || String.prefix "#" ln then None
  else
    match cutAt ln "="%char with
    | Some (k0, v0) =>
        Some (strings_ToLower u (Strings.TrimSpace k0), Strings.TrimSpace v0)
    | None => None
    end.

(** The value that the last assignment to [key] among [lines] gives. *)
Fixpoint lastValue (u : UnicodeTables) (key : string) (lines : list string)
    (previous : option string) : option string :=
  match lines with
  | [] => previous
  | ln :: rest =>
      lastValue u key rest
        (match rcParse u ln with
         | Some (k, v) => if String.eqb k key then Some v else previous
         | None => previous
         end)
  end.

Definition orElse (o : option string) (d : string) : string :=
  match o with
  | Some v => v
  | None => d
  end.

(** The lines of the file at [path]. *)
Definition rcLines (os : OS) (path : string) : list string :=
  match ReadFile os path with
  | Ok b => Strings.Split (string_of_list_byte b) (ascii_of_nat 10)
  | Failed _ => []
  end.

(** A field [proj] that the key [key] sets to [conv v] and that no other
    key touches. *)
Definition fieldOf (u : UnicodeTables) {A : Type} (proj : Config -> A)
    (key : string) (conv : string -> A) : Prop :=
  forall c ln,
    proj (rcLine u c ln)
    = match rcParse u ln with
      | Some (k, v) => if String.eqb k key then conv v else proj c
      | None => proj c
      end.

(** The ASCII characters. *)
Definition asciiChars : list ascii := map ascii_of_nat (seq 0 128).

(** The test that [strings.EqualFold] makes on two ASCII bytes. *)
Definition foldStep (sr tr : ascii) : bool :=
  Ascii.eqb tr sr ||
  (let lo := if (nat_of_ascii tr <? nat_of_ascii sr)%nat then tr else sr in
   let hi := if (nat_of_ascii tr <? nat_of_ascii sr)%nat then sr else tr in
   isUpperASCII lo && (nat_of_ascii hi =? nat_of_ascii lo + 32)%nat).

(** Tables that are never consulted on ASCII input. *)
Definition noTables : UnicodeTables :=
  {| MapToLower := fun s => s; FoldUnicode := fun _ _ => false |}.

(** A machine where every file reads as [content]. *)
Definition os_rc (content : string) : OS :=
  {| Getwd := Ok "/w";
     Lstat := fun _ => Failed "no such file or directory";
     Stat := fun _ => Failed "no such file or directory";
     ReadFile := fun _ => Ok (list_byte_of_string content);
     MkdirAll := fun _ => None;
     WriteFile := fun _ _ => None;
     Now := "2025-08-11T17:32:33-03:00";
     Version := "go1.24.3";
     GOROOT := "/usr/local/go";
     Sum256 := fun _ => repeat x00 32 |}.

(* ================================================================ *)
(** ** Looking for the configuration file *)

(** How the loop of [FindRC] ends: with a file, at the top of the
    tree, or (in the model only) with its rounds used up. *)
Inductive searchResult : Type :=
| Found (rc : string)
| NotFound
| OutOfFuel.

(** The loop [for { ... }] of [FindRC] from the directory [cur], for at
    most [fuel] rounds. *)
Fixpoint findUp (os : OS) (fuel : nat) (cur : string) : searchResult :=
  match fuel with
  | O => OutOfFuel
  | S fuel' =>
      let rc := Filepath.Join [cur; DefaultRCName] in
      match Stat os rc with
      | Ok _ => Found rc
      | Failed _ =>
          let parent := Filepath.Dir cur in
          if String.eqb parent cur then NotFound
          else findUp os fuel' parent
      end
  end.

(** The fallback of [FindRC]: the file in the home directory, when
    [os.UserHomeDir] gives one and the file is there. *)
Definition homeRC (os : OS) (home : result string) : string :=
  match home with
  | Ok h =>
      let rc := Filepath.Join [h; DefaultRCName] in
      match Stat os rc with
      | Ok _ => rc
      | Failed _ => ""
      end
  | Failed _ => ""
  end.

(** [FindRC()]; [home] is the outcome of [os.UserHomeDir].  The loop
    needs no more rounds than the working directory has bytes, and
    three ([findUp_terminates]). *)
Definition FindRC (os : OS) (home : result string) : string :=
  let wd := getwd_ os in
  match findUp os (String.length wd + 3) wd with
  | Found rc => rc
  | NotFound => homeRC os home
  | OutOfFuel => homeRC os home
  end.

(** The directories that the loop goes through from [cur]: [cur], its
    parent, and so on up to the directory that is its own parent. *)
Fixpoint dirChain (fuel : nat) (cur : string) : list string :=
  match fuel with
  | O => []
  | S fuel' =>
      cur :: (if String.eqb (Filepath.Dir cur) cur then []
              else dirChain fuel' (Filepath.Dir cur))
  end.

(** The first directory of [dirs] that holds a configuration file. *)
Fixpoint firstRC (os : OS) (dirs : list string) : option string :=
  match dirs with
  | [] => None
  | d :: rest =>
      match Stat os (Filepath.Join [d; DefaultRCName]) with
      | Ok _ => Some (Filepath.Join [d; DefaultRCName])
      | Failed _ => firstRC os rest
      end
  end.

(** The bytes of the elements of a path, each counted with one
    separator. *)
Fixpoint weight (l : list string) : nat :=
  match l with
  | [] => 0
  | e :: rest => String.length e + 1 + weight rest
  end.

(** An element that [filepath.Clean] keeps: not empty, no separator. *)
Definition keptElement (e : string) : Prop :=
  e <> "" /\ ~ In "/"%char (list_ascii_of_string e).

(** The shape of a path that [filepath.Clean] returns: the root, or a
    path that does not end with a separator. *)
Definition cleanEnded (s : string) : Prop :=
  s = "/" \/
  exists pre ch, s = String.append pre (String ch "") /\ ch <> "/"%char.

(** The chain of directories from [cur] reaches, within [fuel] rounds,
    a directory that is its own parent. *)
Definition chainComplete (fuel : nat) (cur : string) : Prop :=
  Filepath.Dir (last (dirChain fuel cur) "") = last (dirChain fuel cur) "".

(** A machine with a configuration file in [/w] and in [/w/a/b]. *)
Definition os_findrc (wd : string) : OS :=
  {| Getwd := Ok wd;
     Lstat := fun _ => Failed "no such file or directory";
     Stat := fun p =>
       if String.eqb p "/w/.codedumprc" || String.eqb p "/w/a/b/.codedumprc"
          || String.eqb p "/home/u/.codedumprc"
       then Ok 120%Z else Failed "no such file or directory";
     ReadFile := fun _ => Failed "no such file or directory";
     MkdirAll := fun _ => None;
     WriteFile := fun _ _ => None;
     Now := "2025-08-11T17:32:33-03:00";
     Version := "go1.24.3";
     GOROOT := "/usr/local/go";
     Sum256 := fun _ => repeat x00 32 |}.

(* ================================================================ *)
(** ** The command [codedump] *)

(** The flags of [cmd/codedump], as [flag.Parse] leaves them. *)
Record Flags : Type := mkFlags {
  flInit : bool;
  flRCPath : string;
  flRoot : string;
  flTarget : string;
  flOut : string;
  flExt : string;
  flInclude : string;
  flExclude : string;
  flPkg : bool
}.

(** What a run of the command leaves: the calls that changed the file
    system, what it printed on the two streams, and its exit status. *)
Record Run : Type := mkRun {
  runOps : list fs_op;
  runStdout : string;
  runStderr : string;
  runExit : Z
}.

(** [err.Error()] *)
Definition errorText (e : error) : string :=
  match e with
  | SkipDir => "skip this directory"
  | SkipAll => "skip everything and stop the walk"
  | OSError m => m
  | NilDirEntry => "runtime error: invalid memory address or nil pointer dereference"
  end.

(** [fatal(err)], after the calls [ops]: the message on standard error
    and exit status 1.  The mark is U+274C. *)
Definition fatal (ops : list fs_op) (text : string) : Run :=
  {| runOps := ops;
     runStdout := "";
     runStderr := "❌ error: " ++ text ++ nl;
     runExit := 1 |}.

(** The assignments [c.Root = v], ..., [c.Pkg = v] to the fields of a
    configuration. *)
Definition setRoot (c : Config) (v : string) : Config :=
  {| Root := v; Target := Target c; Out := Out c; Ext := Ext c;
     Include := Include c; Exclude := Exclude c; Pkg := Pkg c |}.

Definition setTarget (c : Config) (v : string) : Config :=
  {| Root := Root c; Target := v; Out := Out c; Ext := Ext c;
     Include := Include c; Exclude := Exclude c; Pkg := Pkg c |}.

Definition setOut (c : Config) (v : string) : Config :=
  {| Root := Root c; Target := Target c; Out := v; Ext := Ext c;
     Include := Include c; Exclude := Exclude c; Pkg := Pkg c |}.

Definition setExt (c : Config) (v : string) : Config :=
  {| Root := Root c; Target := Target c; Out := Out c; Ext := v;
     Include := Include c; Exclude := Exclude c; Pkg := Pkg c |}.

Definition setInclude (c : Config) (v : string) : Config :=
  {| Root := Root c; Target := Target c; Out := Out c; Ext := Ext c;
     Include := v; Exclude := Exclude c; Pkg := Pkg c |}.

Definition setExclude (c : Config) (v : string) : Config :=
  {| Root := Root c; Target := Target c; Out := Out c; Ext := Ext c;
     Include := Include c; Exclude := v; Pkg := Pkg c |}.

Definition setPkg (c : Config) (v : bool) : Config :=
  {| Root := Root c; Target := Target c; Out := Out c; Ext := Ext c;
     Include := Include c; Exclude := Exclude c; Pkg := v |}.

(** The seven statements of [main] under [// Apply CLI overrides], one
    after the other: a flag that is not empty is assigned to its field,
    and [-pkg] sets [Pkg]. *)
Definition applyFlags (f : Flags) (c : Config) : Config :=
  let c := if negb (String.eqb (flRoot f) "") then setRoot c (flRoot f)
           else c in
  let c := if negb (String.eqb (flTarget f) "") then setTarget c (flTarget f)
           else c in
  let c := if negb (String.eqb (flOut f) "") then setOut c (flOut f)
           else c in
  let c := if negb (String.eqb (flExt f) "") then setExt c (flExt f)
           else c in
  let c := if negb (String.eqb (flInclude f) "")
           then setInclude c (flInclude f) else c in
  let c := if negb (String.eqb (flExclude f) "")
           then setExclude c (flExclude f) else c in
  if flPkg f then setPkg c true else c.

(** The configuration file that [main] reads: the one of the flag
    [-rc], or the one that [FindRC] finds; the empty string for none. *)
Definition rcPathOf (os : OS) (home : result string) (f : Flags) : string :=
  if String.eqb (flRCPath f) "" then FindRC os home else flRCPath f.

(** [main()] of [cmd/codedump] once the flags are parsed.  [quote] is
    the verb [%q] of [fmt] on a string; the mark of the last message is
    U+2705. *)
Definition main (u : UnicodeTables) (quote : string -> string) (os : OS)
    (home : result string) (f : Flags) : Run :=
  if flInit f then
    match WriteDefaultRC os DefaultRCName with
    | (ops, Some err) => fatal ops (errorText err)
    | (ops, None) =>
        {| runOps := ops;
           runStdout := "Created " ++ DefaultRCName
                        ++ " with defaults. Adjust root/target/out according to your project."
                        ++ nl;
           runStderr := "";
           runExit := 0 |}
    end
  else
    let c := DefaultConfig in
    let rcPath := rcPathOf os home f in
    match (if negb (String.eqb rcPath "") then ReadRC u os rcPath c
           else (c, None)) with
    | (_, Some err) =>
        fatal [] ("error reading RC " ++ rcPath ++ ": " ++ errorText err)
    | (c, None) =>
        let c := applyFlags f c in
        match Dump os c with
        | (ops, (_, _, Some err)) => fatal ops (errorText err)
        | (ops, (outAbs, n, None)) =>
            {| runOps := ops;
               runStdout := "✅ codeDump complete! Generated " ++ quote outAbs
                            ++ " with " ++ fmt_d n ++ " files." ++ nl;
               runStderr := "";
               runExit := 0 |}
        end
    end.

(** The lines of the configuration file that [main] reads, none when it
    reads no file. *)
Definition mainRCLines (os : OS) (home : result string) (f : Flags)
  : list string :=
  if String.eqb (rcPathOf os home f) "" then []
  else rcLines os (rcPathOf os home f).

(** A flag when it is given, else the last value of the key in the
    configuration file, else the default. *)
Definition resolved (u : UnicodeTables) (flag key default : string)
    (lines : list string) : string :=
  if String.eqb flag "" then orElse (lastValue u key lines None) default
  else flag.

Definition noFlags : Flags :=
  {| flInit := false; flRCPath := ""; flRoot := ""; flTarget := "";
     flOut := ""; flExt := ""; flInclude := ""; flExclude := "";
     flPkg := false |}.

(** A machine with a project in [/w]: a configuration file that names
    the target [src] and the extension [.rs], and one source file. *)
Definition os_project : OS :=
  {| Getwd := Ok "/w";
     Lstat := fun p =>
       if String.eqb p "/w/src" then Ok (NDir None [("lib.rs", NFile); ("m.go", NFile)])
       else Failed "no such file or directory";
     Stat := fun p =>
       if String.eqb p "/w/.codedumprc" || String.eqb p "/w/src/lib.rs"
          || String.eqb p "/w/src/m.go"
       then Ok 20%Z else Failed "no such file or directory";
     ReadFile := fun p =>
       if String.eqb p "/w/.codedumprc"
       then Ok (list_byte_of_string
                  ("target = ./src" ++ nl ++ "ext=.rs" ++ nl ++ "out=all.txt" ++ nl))
       else if String.eqb p "/w/broken.rc" then Failed "permission denied"
       else Ok (bytes_of ("package m" ++ nl));
     MkdirAll := fun _ => None;
     WriteFile := fun _ _ => None;
     Now := "2025-08-11T17:32:33-03:00";
     Version := "go1.24.3";
     GOROOT := "/usr/local/go";
     Sum256 := fun _ => repeat x00 32 |}.

(** A stand-in for [%q] on the paths of the examples. *)
Definition quoteASCII (s : string) : string := dquote ++ s ++ dquote.

(* ================================================================ *)
(** ** The single-file program [main.go] *)

(** [main.go] at the root of the repository holds the program in one
    file: its functions [collect], [splitClean], [stripPackageLine],
    [writeDefaultRC], [readRC], [findRC], [absFrom] and [defaultCfg]
    have the bodies of the functions of the package that are modelled
    above, and its [main] does the work of [Dump] itself, leaving
    through [fatal] where [Dump] returns an error. *)
Module Program.

Definition main (u : UnicodeTables) (quote : string -> string) (os : OS)
    (home : result string) (f : Flags) : Run :=
  if flInit f then
    match WriteDefaultRC os DefaultRCName with
    | (ops, Some err) => fatal ops (errorText err)
    | (ops, None) =>
        {| runOps := ops;
           runStdout := "Created " ++ DefaultRCName
                        ++ " with defaults. Adjust root/target/out according to your project."
                        ++ nl;
           runStderr := "";
           runExit := 0 |}
    end
  else
    let c := DefaultConfig in
    let rcPath := if String.eqb (flRCPath f) "" then FindRC os home
                  else flRCPath f in
    match (if negb (String.eqb rcPath "") then ReadRC u os rcPath c
           else (c, None)) with
    | (_, Some err) =>
        fatal [] ("error reading RC " ++ rcPath ++ ": " ++ errorText err)
    | (c, None) =>
        let c := applyFlags f c in
        let wd := getwd_ os in
        let rootAbs := AbsFrom os wd (Root c) in
        let targetAbs := AbsFrom os wd (Target c) in
        let outAbs := AbsFrom os rootAbs (Out c) in
        match Collect os targetAbs c with
        | (_, Some err) => fatal [] (errorText err)
        | (items, None) =>
            let buf := writeHeader os wd rootAbs targetAbs outAbs [] in
            match dumpItems os c items buf with
            | (_, Some err) => fatal [] (errorText err)
            | (buf, None) =>
                let dir := Filepath.Dir outAbs in
                match MkdirAll os dir with
                | Some m => fatal [OpMkdirAll dir] m
                | None =>
                    match WriteFile os outAbs buf with
                    | Some m =>
                        fatal [OpMkdirAll dir; OpWriteFile outAbs buf] m
                    | None =>
                        {| runOps := [OpMkdirAll dir; OpWriteFile outAbs buf];
                           runStdout :=
                             "✅ codeDump complete! Generated " ++ quote outAbs
                             ++ " with "
                             ++ fmt_d (Z.of_nat (List.length items))
                             ++ " files." ++ nl;
                           runStderr := "";
                           runExit := 0 |}
                    end
                end
            end
        end
    end.

End Program.

(* ================================================================ *)
(** ** Vocabulary of the order of the items and of the first error *)







(** The first file-system error that the traversal of the entry [d] at
    [path] meets, in the order of the traversal: a directory is listed
    before its entries are visited, the entries are visited in the
    order of the listing, and a file is statted before it is read.  The
    entries before the one that holds the error are free of errors;
    those after it are not looked at. *)
Inductive FirstWalkError (os : OS) (c : Config) (excl : list string)
  : string -> node -> string -> Prop :=
| FirstWalkError_readdir : forall path dirs m,
    matchesExclude excl (Filepath.ToSlash path) = false ->
    FirstWalkError os c excl path (NDir (Some m) dirs) m
| FirstWalkError_stat : forall path m,
    selects c excl path = true ->
    Stat os path = Failed m ->
    FirstWalkError os c excl path NFile m
| FirstWalkError_read : forall path st_size m,
    selects c excl path = true ->
    Stat os path = Ok st_size ->
    ReadFile os path = Failed m ->
    FirstWalkError os c excl path NFile m
| FirstWalkError_entry : forall path before name d1 after m,
    matchesExclude excl (Filepath.ToSlash path) = false ->
    (forall n d m', In (n, d) before ->
       ~ WalkError os c excl (Filepath.Join [path; n]) d m') ->
    FirstWalkError os c excl (Filepath.Join [path; name]) d1 m ->
    FirstWalkError os c excl path (NDir None (before ++ (name, d1) :: after)) m.

(** The first file-system error of a run of [Collect] on [targetAbs]. *)
Inductive FirstScanError (os : OS) (c : Config) (targetAbs : string)
    (m : string) : Prop :=
| FirstScanError_lstat :
    Lstat os targetAbs = Failed m -> FirstScanError os c targetAbs m
| FirstScanError_walk : forall root,
    Lstat os targetAbs = Ok root ->
    FirstWalkError os c (SplitClean (Exclude c)) targetAbs root m ->
    FirstScanError os c targetAbs m.

(** A tree with a directory that cannot be listed and, after it in the
    listing of its parent, a file that cannot be read. *)
Definition os_two_errors : OS :=
  exampleOS "/w" "/w"
    (NDir None [("a.go", NFile);
                ("locked", NDir (Some "cannot list the directory") []);
                ("z.go", NFile)])
    "/w/z.go".





(* ================================================================ *)
(** * Properties *)

(** ** Lines: [bytes.Split] and [bytes.Join] *)

Lemma byte_eqb_true_iff (x y : byte) : Byte.eqb x y = true <-> x = y.
Proof.
  split; [apply Byte.byte_dec_bl | apply Byte.byte_dec_lb].
Qed.

Lemma byte_eqb_false_iff (x y : byte) : Byte.eqb x y = false <-> x <> y.
Proof.
  split.
  - apply Byte.eqb_false.
  - intros Hne. destruct (Byte.eqb x y) eqn:E; [|reflexivity].
    apply Byte.byte_dec_bl in E. contradiction.
Qed.

Lemma Split_not_nil (s : list byte) (sep : byte) : Bytes.Split s sep <> [].
Proof.
  destruct s as [|b t]; simpl; [discriminate|].
  destruct (Byte.eqb b sep); [discriminate|].
  destruct (Bytes.Split t sep); discriminate.
Qed.

Lemma Join_cons (a : list byte) (rest : list (list byte)) (sep : list byte) :
  rest <> [] -> Bytes.Join (a :: rest) sep = a ++ sep ++ Bytes.Join rest sep.
Proof.
  destruct rest; [congruence | reflexivity].
Qed.

Lemma Join_Split (s : list byte) (sep : byte) :
  Bytes.Join (Bytes.Split s sep) [sep] = s.
Proof.
  induction s as [|b t IH]; [reflexivity|].
  simpl Bytes.Split. destruct (Byte.eqb b sep) eqn:E.
  - apply byte_eqb_true_iff in E. subst b.
    rewrite Join_cons by apply Split_not_nil.
    rewrite IH. reflexivity.
  - destruct (Bytes.Split t sep) as [|l ls] eqn:ES.
    + exfalso. exact (Split_not_nil t sep ES).
    + destruct ls as [|l2 ls].
      * simpl in *. congruence.
      * rewrite Join_cons in * by discriminate.
        rewrite <- IH. reflexivity.
Qed.

Lemma Split_no_sep (s : list byte) (sep : byte) :
  Forall (fun l => ~ In sep l) (Bytes.Split s sep).
Proof.
  induction s as [|b t IH]; simpl.
  - constructor; [intros []|constructor].
  - destruct (Byte.eqb b sep) eqn:E.
    + constructor; [intros []|exact IH].
    + apply byte_eqb_false_iff in E.
      destruct (Bytes.Split t sep) as [|l ls].
      * constructor; [|constructor]. intros [H|[]]. congruence.
      * inversion IH as [|? ? Hl Hls]; subst.
        constructor; [|exact Hls].
        intros [H|H]; [congruence | exact (Hl H)].
Qed.

Lemma Split_app_sep (a rest : list byte) (sep : byte) :
  ~ In sep a ->
  Bytes.Split (a ++ sep :: rest) sep = a :: Bytes.Split rest sep.
Proof.
  induction a as [|b a IH]; intros Hno; simpl.
  - rewrite (proj2 (byte_eqb_true_iff sep sep) eq_refl). reflexivity.
  - assert (Hb : Byte.eqb b sep = false).
    { apply byte_eqb_false_iff. intros ->. apply Hno. left. reflexivity. }
    rewrite Hb, IH; [reflexivity|].
    intros H. apply Hno. right. exact H.
Qed.

Lemma Split_one_line (a : list byte) (sep : byte) :
  ~ In sep a -> Bytes.Split a sep = [a].
Proof.
  induction a as [|b a IH]; intros Hno; simpl; [reflexivity|].
  assert (Hb : Byte.eqb b sep = false).
  { apply byte_eqb_false_iff. intros ->. apply Hno. left. reflexivity. }
  rewrite Hb, IH; [reflexivity|].
  intros H. apply Hno. right. exact H.
Qed.

Lemma Split_Join (ls : list (list byte)) (sep : byte) :
  ls <> [] ->
  Forall (fun l => ~ In sep l) ls ->
  Bytes.Split (Bytes.Join ls [sep]) sep = ls.
Proof.
  induction ls as [|a rest IH]; intros Hne Hall; [congruence|].
  inversion Hall as [|? ? Ha Hrest]; subst.
  destruct rest as [|a2 rest].
  - simpl. apply Split_one_line. exact Ha.
  - rewrite Join_cons by discriminate.
    change (a ++ [sep] ++ Bytes.Join (a2 :: rest) [sep])
      with (a ++ sep :: Bytes.Join (a2 :: rest) [sep]).
    rewrite Split_app_sep by exact Ha.
    rewrite IH; [reflexivity | discriminate | exact Hrest].
Qed.

(** ** The loop of [StripPackageLine] *)

Lemma strip_loop_skipped (ls acc : list (list byte)) :
  fold_left stripStep ls (acc, true) = (acc ++ ls, true).
Proof.
  revert acc. induction ls as [|l ls IH]; intros acc; simpl.
  - rewrite app_nil_r. reflexivity.
  - rewrite IH, <- app_assoc. reflexivity.
Qed.

Lemma strip_loop (ls acc : list (list byte)) :
  fst (fold_left stripStep ls (acc, false))
  = acc ++ removeFirst isPackageLine ls.
Proof.
  revert acc. induction ls as [|l ls IH]; intros acc; simpl.
  - rewrite app_nil_r. reflexivity.
  - fold (isPackageLine l). destruct (isPackageLine l).
    + rewrite strip_loop_skipped. reflexivity.
    + rewrite IH, <- app_assoc. reflexivity.
Qed.

Lemma StripPackageLine_spec (src : list byte) :
  StripPackageLine src
  = Bytes.Join (removeFirst isPackageLine (Bytes.Split src x0a)) [x0a].
Proof.
  unfold StripPackageLine.
  pose proof (strip_loop (Bytes.Split src x0a) []) as H.
  destruct (fold_left stripStep (Bytes.Split src x0a) ([], false)) as [out sk].
  simpl in H. subst out. reflexivity.
Qed.

Lemma removeFirst_split {A : Type} (p : A -> bool) (l1 l2 : list A) (ln : A) :
  Forall (fun l => p l = false) l1 -> p ln = true ->
  removeFirst p (l1 ++ ln :: l2) = l1 ++ l2.
Proof.
  induction 1 as [|l l1 Hl _ IH]; intros Hln; simpl.
  - rewrite Hln. reflexivity.
  - rewrite Hl, IH by exact Hln. reflexivity.
Qed.

Lemma removeFirst_none {A : Type} (p : A -> bool) (ls : list A) :
  filter p ls = [] -> removeFirst p ls = ls.
Proof.
  induction ls as [|l ls IH]; simpl; [reflexivity|].
  destruct (p l); [discriminate|]. intros H. rewrite IH by exact H. reflexivity.
Qed.

Lemma filter_removeFirst {A : Type} (p : A -> bool) (ls : list A) :
  (List.length (filter p ls) <= 1)%nat -> filter p (removeFirst p ls) = [].
Proof.
  induction ls as [|l ls IH]; simpl; [reflexivity|].
  destruct (p l) eqn:E; simpl; intros H.
  - destruct (filter p ls); [reflexivity | simpl in H; lia].
  - rewrite E. apply IH. exact H.
Qed.

Lemma Forall_removeFirst {A : Type} (Q : A -> Prop) (p : A -> bool)
    (ls : list A) :
  Forall Q ls -> Forall Q (removeFirst p ls).
Proof.
  induction 1 as [|l ls Hl Hls IH]; simpl; [constructor|].
  destruct (p l); [exact Hls | constructor; assumption].
Qed.

(** C4.  With the declaration line not kept, the transformer splits its
    input at the newlines, removes the first line whose trimmed content
    begins with [package ] followed by a space, removes no other line,
    and joins what is left with newlines; on the input of the spec, the
    second declaration stays. *)
Theorem StripPackageLine_removes_first_only :
  (forall src : list byte,
      StripPackageLine src
      = Bytes.Join (removeFirst isPackageLine (Bytes.Split src x0a)) [x0a])
  /\ (forall (l1 l2 : list (list byte)) (ln : list byte),
         Forall (fun l => isPackageLine l = false) l1 ->
         isPackageLine ln = true ->
         removeFirst isPackageLine (l1 ++ ln :: l2) = l1 ++ l2)
  /\ StripPackageLine
       (bytes_of ("package foo" ++ nl ++ "x:=1" ++ nl ++ "package bar" ++ nl))
     = bytes_of ("x:=1" ++ nl ++ "package bar" ++ nl).
Proof.
  split; [exact StripPackageLine_spec|].
  split; [intros l1 l2 ln; apply removeFirst_split|].
  vm_compute. reflexivity.
Qed.

(** C7, as the code has it: a second pass removes the next declaration
    line, so the transformer is idempotent on the inputs that have at
    most one such line. *)
Theorem StripPackageLine_idempotent_single (b : list byte) :
  (List.length (packageLines b) <= 1)%nat ->
  StripPackageLine (StripPackageLine b) = StripPackageLine b.
Proof.
  intros Hone. unfold packageLines in Hone.
  rewrite (StripPackageLine_spec b).
  set (ls := removeFirst isPackageLine (Bytes.Split b x0a)).
  assert (Hnone : filter isPackageLine ls = [])
    by (apply filter_removeFirst; exact Hone).
  assert (Hsep : Forall (fun l => ~ In x0a l) ls)
    by (apply Forall_removeFirst, Split_no_sep).
  rewrite StripPackageLine_spec.
  destruct ls as [|l ls'] eqn:Els.
  - reflexivity.
  - rewrite Split_Join; [|discriminate|exact Hsep].
    rewrite removeFirst_none by exact Hnone. reflexivity.
Qed.

Lemma StripPackageLine_idempotent_single_witness :
  StripPackageLine
    (StripPackageLine (bytes_of ("package foo" ++ nl ++ "x:=1" ++ nl)))
  = StripPackageLine (bytes_of ("package foo" ++ nl ++ "x:=1" ++ nl)).
Proof.
  apply StripPackageLine_idempotent_single. vm_compute. lia.
Defined.

(** C7 as stated fails on the input of the spec's own example: the
    first pass leaves the second declaration, the second pass removes it. *)
Lemma StripPackageLine_not_idempotent :
  exists b : list byte,
    b = bytes_of ("package foo" ++ nl ++ "x:=1" ++ nl ++ "package bar" ++ nl)
    /\ StripPackageLine b = bytes_of ("x:=1" ++ nl ++ "package bar" ++ nl)
    /\ StripPackageLine (StripPackageLine b) = bytes_of ("x:=1" ++ nl)
    /\ StripPackageLine (StripPackageLine b) <> StripPackageLine b.
Proof.
  eexists. split; [reflexivity|].
  vm_compute. repeat split. discriminate.
Qed.

(** ** The end of a file block *)

Lemma last_byte_newline (content : list byte) :
  content <> [] ->
  Byte.eqb (last content x00) x0a = endsWithNewline content.
Proof.
  intros Hne. destruct (exists_last Hne) as [l [x ->]].
  unfold endsWithNewline. rewrite last_last, rev_unit.
  destruct x; reflexivity.
Qed.

Lemma endsWithNewline_snoc (l : list byte) : endsWithNewline (l ++ [x0a]) = true.
Proof.
  unfold endsWithNewline. rewrite rev_unit. reflexivity.
Qed.

Lemma writeBlock_unfold (c : Config) (it : Item) (data buf : list byte) :
  writeBlock c it data buf
  = Fprint (writeContent (blockHead it buf) (contentOf c data))
      ("// ===== END FILE =====" ++ nl ++ nl).
Proof. reflexivity. Qed.

(** C8, as the code has it: a content that is not empty is followed by
    a newline when it does not end with one, so what stands between
    the header of the block and its end banner ends with a newline. *)
Theorem writeBlock_content_ends_with_newline
    (c : Config) (it : Item) (data buf : list byte) :
  contentOf c data <> [] ->
  exists emitted,
    writeBlock c it data buf
    = Fprint (blockHead it buf ++ emitted) ("// ===== END FILE =====" ++ nl ++ nl)
    /\ emitted = (if endsWithNewline (contentOf c data)
                  then contentOf c data
                  else contentOf c data ++ [x0a])
    /\ endsWithNewline emitted = true.
Proof.
  intros Hne. rewrite writeBlock_unfold. unfold writeContent.
  rewrite (last_byte_newline _ Hne).
  assert (Hlen : (0 <? List.length (contentOf c data))%nat = true).
  { apply Nat.ltb_lt. destruct (contentOf c data); [congruence | simpl; lia]. }
  rewrite Hlen. simpl andb.
  destruct (endsWithNewline (contentOf c data)) eqn:E; simpl negb; cbv iota.
  - exists (contentOf c data). auto.
  - exists (contentOf c data ++ [x0a]).
    rewrite <- app_assoc. auto using endsWithNewline_snoc.
Qed.

Lemma writeBlock_content_ends_with_newline_witness :
  exists emitted,
    writeBlock DefaultConfig
      {| rel := "m/a.go"; abs := "/w/m/a.go"; sha := "00"; size := 14 |}
      (bytes_of ("package m" ++ nl ++ "x:=1")) []
    = Fprint
        (blockHead
           {| rel := "m/a.go"; abs := "/w/m/a.go"; sha := "00"; size := 14 |} []
         ++ emitted)
        ("// ===== END FILE =====" ++ nl ++ nl)
    /\ emitted = bytes_of ("x:=1" ++ nl)
    /\ endsWithNewline emitted = true.
Proof.
  apply (writeBlock_content_ends_with_newline DefaultConfig
           {| rel := "m/a.go"; abs := "/w/m/a.go"; sha := "00"; size := 14 |}
           (bytes_of ("package m" ++ nl ++ "x:=1")) []).
  vm_compute. discriminate.
Defined.

(** C8 as stated fails on a file that holds its declaration line only:
    the content is empty, it does not end with a newline, and the end
    banner follows the header of the block at once. *)
Lemma writeBlock_empty_content_no_newline :
  contentOf DefaultConfig (bytes_of "package main") = []
  /\ endsWithNewline (contentOf DefaultConfig (bytes_of "package main")) = false
  /\ writeBlock DefaultConfig
       {| rel := "m/a.go"; abs := "/w/m/a.go"; sha := "00"; size := 12 |}
       (bytes_of "package main") []
     = bytes_of ("// ===== BEGIN FILE =====" ++ nl
                 ++ "// #rel_path: m/a.go" ++ nl
                 ++ "// #abs_path: /w/m/a.go" ++ nl
                 ++ "// #size_bytes: 12" ++ nl
                 ++ "// #sha256: 00" ++ nl
                 ++ "// ======================" ++ nl
                 ++ "// ===== END FILE =====" ++ nl ++ nl).
Proof.
  vm_compute. auto.
Qed.

(** ** Unfolding [walkDir] *)

Section WalkEquations.

Context {S : Type}.
Variable fn : string -> option node -> option error -> S -> S * option error.

Lemma walkRange_cons (path name : string) (d1 : node)
    (rest : list (string * node)) (st : S) :
  Filepath.walkRange fn path ((name, d1) :: rest) st
  = match Filepath.walkDir fn (Filepath.Join [path; name]) d1 st with
    | (st', Some err) =>
        if Filepath.isSkipDir err then (st', None) else (st', Some err)
    | (st', None) => Filepath.walkRange fn path rest st'
    end.
Proof. reflexivity. Qed.

Lemma walkDir_NFile (path : string) (st : S) :
  Filepath.walkDir fn path NFile st
  = match fn path (Some NFile) None st with
    | (st1, Some err) => (st1, Some err)
    | (st1, None) => (st1, None)
    end.
Proof.
  simpl. destruct (fn path (Some NFile) None st) as [st1 [e|]];
    [rewrite andb_false_r|]; reflexivity.
Qed.

Lemma walkDir_NDir (path : string) (rderr : option string)
    (dirs : list (string * node)) (st : S) :
  Filepath.walkDir fn path (NDir rderr dirs) st
  = match fn path (Some (NDir rderr dirs)) None st with
    | (st1, Some err) =>
        (st1, if Filepath.isSkipDir err then None else Some err)
    | (st1, None) =>
        let '(st2, err2) :=
          match rderr with
          | Some m => fn path (Some (NDir rderr dirs)) (Some (OSError m)) st1
          | None => (st1, None)
          end in
        match err2 with
        | Some err => (st2, if Filepath.isSkipDir err then None else Some err)
        | None => Filepath.walkRange fn path dirs st2
        end
    end.
Proof.
  simpl. destruct (fn path (Some (NDir rderr dirs)) None st) as [st1 [e|]];
    [rewrite andb_true_r|]; reflexivity.
Qed.

End WalkEquations.

(** ** The callback of [Collect] *)

Section Scan.

Variables (os : OS) (c : Config) (excl : list string) (wd : string).

Lemma collectFn_error (path : string) (d : option node) (e : error)
    (out : list Item) :
  collectFn os c excl wd path d (Some e) out = (out, Some e).
Proof. reflexivity. Qed.

Lemma collectFn_dir (path : string) (rderr : option string)
    (dirs : list (string * node)) (out : list Item) :
  collectFn os c excl wd path (Some (NDir rderr dirs)) None out
  = (out, if matchesExclude excl (Filepath.ToSlash path)
          then Some SkipDir else None).
Proof.
  unfold collectFn. simpl.
  destruct (matchesExclude excl (Filepath.ToSlash path)); reflexivity.
Qed.

Lemma collectFn_file_skipped (path : string) (out : list Item) :
  selects c excl path = false ->
  collectFn os c excl wd path (Some NFile) None out = (out, None).
Proof.
  unfold selects, collectFn. simpl IsDir. cbv iota.
  destruct (Strings.HasSuffix path (Ext c)); simpl; [|reflexivity].
  destruct (String.eqb (Filepath.Base path) (Out c)); simpl; [reflexivity|].
  destruct (String.eqb (Include c) ""); simpl.
  - destruct (matchesExclude excl (Filepath.ToSlash path)); simpl;
      [reflexivity | discriminate].
  - destruct (Strings.Contains (Filepath.ToSlash path) (Include c)); simpl;
      [|reflexivity].
    destruct (matchesExclude excl (Filepath.ToSlash path)); simpl;
      [reflexivity | discriminate].
Qed.

Lemma collectFn_file_selected (path : string) (out : list Item) :
  selects c excl path = true ->
  collectFn os c excl wd path (Some NFile) None out
  = match Stat os path with
    | Failed m => (out, Some (OSError m))
    | Ok st_size =>
        match ReadFile os path with
        | Failed m => (out, Some (OSError m))
        | Ok data =>
            (out ++ [ {| rel := Filepath.ToSlash (fst (Filepath.Rel wd path));
                         abs := path;
                         sha := hex_EncodeToString (Sum256 os data);
                         size := st_size |} ], None)
        end
    end.
Proof.
  unfold selects, collectFn. simpl IsDir. cbv iota.
  destruct (Strings.HasSuffix path (Ext c)); simpl; [|discriminate].
  destruct (String.eqb (Filepath.Base path) (Out c)); simpl; [discriminate|].
  destruct (String.eqb (Include c) ""); simpl.
  - destruct (matchesExclude excl (Filepath.ToSlash path)); simpl;
      [discriminate | reflexivity].
  - destruct (Strings.Contains (Filepath.ToSlash path) (Include c)); simpl;
      [|discriminate].
    destruct (matchesExclude excl (Filepath.ToSlash path)); simpl;
      [discriminate | reflexivity].
Qed.

(** ** [walkDir] with this callback *)

Lemma walkDir_file (path : string) (out : list Item) :
  Filepath.walkDir (collectFn os c excl wd) path NFile out
  = collectFn os c excl wd path (Some NFile) None out.
Proof.
  rewrite walkDir_NFile.
  destruct (collectFn os c excl wd path (Some NFile) None out) as [st1 [e|]];
    reflexivity.
Qed.

Lemma walkDir_pruned (path : string) (rderr : option string)
    (dirs : list (string * node)) (out : list Item) :
  matchesExclude excl (Filepath.ToSlash path) = true ->
  Filepath.walkDir (collectFn os c excl wd) path (NDir rderr dirs) out
  = (out, None).
Proof.
  intros Hp. rewrite walkDir_NDir, collectFn_dir, Hp. reflexivity.
Qed.

Lemma walkDir_entered (path : string) (rderr : option string)
    (dirs : list (string * node)) (out : list Item) :
  matchesExclude excl (Filepath.ToSlash path) = false ->
  Filepath.walkDir (collectFn os c excl wd) path (NDir rderr dirs) out
  = match rderr with
    | Some m => (out, Some (OSError m))
    | None => Filepath.walkRange (collectFn os c excl wd) path dirs out
    end.
Proof.
  intros Hp. rewrite walkDir_NDir, collectFn_dir, Hp.
  destruct rderr as [m|]; reflexivity.
Qed.

Lemma reachedOK_mono (new new' : list Item) (p : string) (d : node) :
  (forall it, In it new -> In it new') ->
  reachedOK os c excl wd new p d -> reachedOK os c excl wd new' p d.
Proof.
  intros Hsub. destruct d as [|rderr dirs]; simpl; [|auto].
  intros H Hsel. destruct (H Hsel) as [it [Hin Hit]].
  exists it. auto.
Qed.

Lemma WalkError_child (path name : string) (rderr : option string)
    (dirs : list (string * node)) (d1 : node) (m : string) :
  matchesExclude excl (Filepath.ToSlash path) = false ->
  In (name, d1) dirs ->
  WalkError os c excl (Filepath.Join [path; name]) d1 m ->
  WalkError os c excl path (NDir rderr dirs) m.
Proof.
  intros Hp Hin [p ds Hv Hpp | p Hv Hs Hst | p sz Hv Hs Hst Hrd].
  - eapply WalkError_readdir; [eapply Visits_child; eassumption | exact Hpp].
  - eapply WalkError_stat; [eapply Visits_child; eassumption | exact Hs | exact Hst].
  - eapply WalkError_read;
      [eapply Visits_child; eassumption | exact Hs | exact Hst | exact Hrd].
Qed.

Lemma walkRange_post (path : string) (dirs : list (string * node)) :
  Forall (fun nd => forall path out out' r,
              Filepath.walkDir (collectFn os c excl wd) path (snd nd) out
              = (out', r) ->
              walkPost os c excl wd path (snd nd) out out' r) dirs ->
  forall out out' r,
    Filepath.walkRange (collectFn os c excl wd) path dirs out = (out', r) ->
    rangePost os c excl wd path dirs out out' r.
Proof.
  induction 1 as [|[name d1] rest Hd1 _ IH]; intros out out' r Hrun.
  - simpl in Hrun. inversion Hrun; subst.
    split; [left; reflexivity|].
    exists []. rewrite app_nil_r.
    split; [reflexivity|]. split; [intros it []|].
    intros _ name d1 p d' [].
  - rewrite walkRange_cons in Hrun.
    destruct (Filepath.walkDir (collectFn os c excl wd)
                (Filepath.Join [path; name]) d1 out) as [st' e] eqn:Ewalk.
    apply Hd1 in Ewalk.
    destruct Ewalk as [Hr1 [new1 [-> [Hitems1 Hreach1]]]].
    destruct Hr1 as [-> | [m [-> Herr]]].
    + apply IH in Hrun.
      destruct Hrun as [Hr [new2 [-> [Hitems2 Hreach2]]]].
      split.
      { destruct Hr as [Hr | [m [Hr [n [d [Hd Herr]]]]]]; [left; exact Hr|].
        right. exists m. split; [exact Hr|].
        exists n, d. split; [right; exact Hd | exact Herr]. }
      exists (new1 ++ new2). rewrite app_assoc.
      split; [reflexivity|]. split.
      * intros it Hin. apply in_app_or in Hin. destruct Hin as [Hin|Hin].
        -- destruct (Hitems1 it Hin) as [p [Hv [Hs Hi]]].
           exists name, d1, p. simpl. auto.
        -- destruct (Hitems2 it Hin) as [n [d [p [Hd [Hv [Hs Hi]]]]]].
           exists n, d, p. simpl. auto.
      * intros Hnone n d p d' [Heq | Hin] Hv.
        -- inversion Heq; subst.
           apply reachedOK_mono with (new := new1);
             [intros; apply in_or_app; auto|].
           apply (Hreach1 eq_refl). exact Hv.
        -- apply reachedOK_mono with (new := new2);
             [intros; apply in_or_app; auto|].
           apply (Hreach2 Hnone n d); assumption.
    + simpl in Hrun. inversion Hrun; subst.
      split.
      { right. exists m. split; [reflexivity|].
        exists name, d1. split; [left; reflexivity | exact Herr]. }
      exists new1. split; [reflexivity|]. split.
      * intros it Hin. destruct (Hitems1 it Hin) as [p [Hv [Hs Hi]]].
        exists name, d1, p. simpl. auto.
      * discriminate.
Qed.

Lemma walkDir_post (d : node) :
  forall path out out' r,
    Filepath.walkDir (collectFn os c excl wd) path d out = (out', r) ->
    walkPost os c excl wd path d out out' r.
Proof.
  induction d as [|rderr dirs IH] using node_ind_entries;
    intros path out out' r Hrun.
  - rewrite walkDir_file in Hrun.
    destruct (selects c excl path) eqn:Hsel.
    + rewrite (collectFn_file_selected _ _ Hsel) in Hrun.
      destruct (Stat os path) as [sz|m] eqn:Est.
      * destruct (ReadFile os path) as [data|m] eqn:Erd.
        -- inversion Hrun; subst. split; [left; reflexivity|].
           eexists. split; [reflexivity|].
           assert (Hitem : itemOf os wd
                     {| rel := Filepath.ToSlash (fst (Filepath.Rel wd path));
                        abs := path;
                        sha := hex_EncodeToString (Sum256 os data);
                        size := sz |} path).
           { split; [reflexivity|]. split; [exact Est|].
             exists data. auto. }
           split.
           ++ intros it [<-|[]]. exists path.
              split; [constructor|]. auto.
           ++ intros _ p d' Hv. inversion Hv; subst. simpl.
              intros _. eexists. split; [left; reflexivity | exact Hitem].
        -- inversion Hrun; subst. split.
           { right. exists m. split; [reflexivity|].
             eapply WalkError_read;
               [constructor | exact Hsel | exact Est | exact Erd]. }
           exists []. rewrite app_nil_r. split; [reflexivity|].
           split; [intros it []|discriminate].
      * inversion Hrun; subst. split.
        { right. exists m. split; [reflexivity|].
          eapply WalkError_stat; [constructor | exact Hsel | exact Est]. }
        exists []. rewrite app_nil_r. split; [reflexivity|].
        split; [intros it []|discriminate].
    + rewrite (collectFn_file_skipped _ _ Hsel) in Hrun.
      inversion Hrun; subst. split; [left; reflexivity|].
      exists []. rewrite app_nil_r. split; [reflexivity|].
      split; [intros it []|].
      intros _ p d' Hv. inversion Hv; subst. simpl. congruence.
  - destruct (matchesExclude excl (Filepath.ToSlash path)) eqn:Hp.
    + rewrite (walkDir_pruned _ _ _ _ Hp) in Hrun.
      inversion Hrun; subst. split; [left; reflexivity|].
      exists []. rewrite app_nil_r. split; [reflexivity|].
      split; [intros it []|].
      intros _ p d' Hv. inversion Hv; subst; simpl; congruence.
    + rewrite (walkDir_entered _ _ _ _ Hp) in Hrun.
      destruct rderr as [m|].
      * inversion Hrun; subst. split.
        { right. exists m. split; [reflexivity|].
          eapply WalkError_readdir; [constructor | exact Hp]. }
        exists []. rewrite app_nil_r. split; [reflexivity|].
        split; [intros it []|discriminate].
      * apply (walkRange_post path dirs IH) in Hrun.
        destruct Hrun as [Hr [new [-> [Hitems Hreach]]]].
        split.
        { destruct Hr as [Hr | [m [Hr [n [d [Hd Herr]]]]]]; [left; exact Hr|].
          right. exists m. split; [exact Hr|].
          eapply WalkError_child; eassumption. }
        exists new. split; [reflexivity|]. split.
        -- intros it Hin.
           destruct (Hitems it Hin) as [n [d [p [Hd [Hv [Hs Hi]]]]]].
           exists p. split; [|auto].
           eapply Visits_child; eassumption.
        -- intros Hnone p d' Hv. inversion Hv; subst.
           ++ simpl. intros _. reflexivity.
           ++ eapply Hreach; eauto.
Qed.

End Scan.

(** ** Strings and the exclude list *)

Lemma ToSlash_id (path : string) : Filepath.ToSlash path = path.
Proof. reflexivity. Qed.

Lemma prefix_append (sub s t : string) :
  String.prefix sub s = true -> String.prefix sub (String.append s t) = true.
Proof.
  revert s. induction sub as [|a sub IH]; intros s H.
  - destruct (String.append s t); reflexivity.
  - destruct s as [|b s]; simpl in *; [discriminate|].
    destruct (ascii_dec a b); [apply IH; exact H | discriminate].
Qed.

Lemma Contains_append (s t sub : string) :
  Strings.Contains s sub = true ->
  Strings.Contains (String.append s t) sub = true.
Proof.
  induction s as [|a s IH]; simpl; intros H.
  - rewrite orb_false_r in H.
    destruct sub; [|discriminate]. destruct t; reflexivity.
  - apply orb_true_iff in H. apply orb_true_iff. destruct H as [H|H].
    + left. apply (prefix_append sub (String a s) t). exact H.
    + right. apply IH. exact H.
Qed.

Lemma substring_zero (s : string) (n : nat) : String.substring n 0 s = "".
Proof.
  revert n. induction s as [|a s IH]; intros [|n]; simpl; auto.
Qed.

Lemma HasSuffix_empty (s : string) : Strings.HasSuffix s "" = true.
Proof.
  unfold Strings.HasSuffix. simpl. rewrite substring_zero. reflexivity.
Qed.

Lemma SplitClean_loop_nonempty (parts acc : list string) :
  Forall (fun p => p <> "") acc ->
  Forall (fun p => p <> "")
    (fold_left
       (fun out p =>
          let p := Filepath.ToSlash (Strings.TrimSpace p) in
          if negb (String.eqb p "") then out ++ [p] else out)
       parts acc).
Proof.
  revert acc. induction parts as [|p parts IH]; intros acc Hacc; simpl.
  - exact Hacc.
  - apply IH.
    destruct (String.eqb (Filepath.ToSlash (Strings.TrimSpace p)) "") eqn:E;
      simpl; [exact Hacc|].
    apply Forall_app. split; [exact Hacc|].
    constructor; [|constructor].
    apply String.eqb_neq. exact E.
Qed.

Lemma SplitClean_nonempty (s bad : string) :
  In bad (SplitClean s) -> bad <> "".
Proof.
  intros Hin.
  pose proof (SplitClean_loop_nonempty (Strings.Split s ","%char) []
                (Forall_nil _)) as H.
  rewrite Forall_forall in H. apply H. exact Hin.
Qed.

Lemma matchesExclude_true (excl : list string) (pp bad : string) :
  In bad excl -> bad <> "" -> Strings.Contains pp bad = true ->
  matchesExclude excl pp = true.
Proof.
  intros Hin Hne Hc. apply existsb_exists. exists bad.
  split; [exact Hin|].
  apply String.eqb_neq in Hne. rewrite Hne, Hc. reflexivity.
Qed.

Lemma matchesExclude_append (excl : list string) (dir rest : string) :
  matchesExclude excl dir = true ->
  matchesExclude excl (String.append dir rest) = true.
Proof.
  unfold matchesExclude. intros H.
  apply existsb_exists in H. destruct H as [bad [Hin Hb]].
  apply andb_true_iff in Hb. destruct Hb as [Hne Hc].
  apply existsb_exists. exists bad. split; [exact Hin|].
  rewrite Hne, (Contains_append _ _ _ Hc). reflexivity.
Qed.

Lemma selects_inv (c : Config) (excl : list string) (p : string) :
  selects c excl p = true ->
  Strings.HasSuffix p (Ext c) = true
  /\ String.eqb (Filepath.Base p) (Out c) = false
  /\ (Include c = "" \/ Strings.Contains (Filepath.ToSlash p) (Include c) = true)
  /\ matchesExclude excl (Filepath.ToSlash p) = false.
Proof.
  unfold selects. intros H.
  apply andb_true_iff in H. destruct H as [H Hexcl].
  apply andb_true_iff in H. destruct H as [H Hincl].
  apply andb_true_iff in H. destruct H as [Hsuf Hout].
  split; [exact Hsuf|].
  split; [apply negb_true_iff; exact Hout|].
  split; [|apply negb_true_iff; exact Hexcl].
  apply orb_true_iff in Hincl. destruct Hincl as [Hi|Hi].
  - left. apply String.eqb_eq. exact Hi.
  - right. exact Hi.
Qed.

(** ** [sort.Slice] on the relative paths *)

Lemma insertSlice_In {A : Type} (less : A -> A -> bool) (x y : A) (l : list A) :
  In y (insertSlice less x l) <-> y = x \/ In y l.
Proof.
  induction l as [|z l IH]; simpl.
  - intuition congruence.
  - destruct (less z x); simpl; rewrite ?IH; intuition congruence.
Qed.

Lemma sort_Slice_In {A : Type} (less : A -> A -> bool) (y : A) (l : list A) :
  In y (sort_Slice less l) <-> In y l.
Proof.
  induction l as [|x l IH]; simpl; [tauto|].
  rewrite insertSlice_In, IH. intuition congruence.
Qed.

Lemma sort_Slice_length {A : Type} (less : A -> A -> bool) (l : list A) :
  List.length (sort_Slice less l) = List.length l.
Proof.
  induction l as [|x l IH]; simpl; [reflexivity|].
  rewrite <- IH. generalize (sort_Slice less l). intros s.
  induction s as [|z s IHs]; simpl; [reflexivity|].
  destruct (less z x); simpl; congruence.
Qed.









(** ** [Collect] *)

Section CollectFacts.

Variables (os : OS) (c : Config).

Lemma Collect_ok (targetAbs : string) (items : list Item) :
  Collect os targetAbs c = (items, None) ->
  exists root out,
    Lstat os targetAbs = Ok root
    /\ walkPost os c (SplitClean (Exclude c)) (getwd_ os)
         targetAbs root [] out None
    /\ items = sort_Slice lessRel out.
Proof.
  unfold Collect, Filepath.WalkDir. intros H.
  destruct (Lstat os targetAbs) as [root|m] eqn:Els.
  - destruct (Filepath.walkDir
                (collectFn os c (SplitClean (Exclude c)) (getwd_ os))
                targetAbs root []) as [out r] eqn:Ew.
    pose proof (walkDir_post _ _ _ _ _ _ _ _ _ Ew) as Hpost.
    destruct Hpost as [[-> | [m [-> _]]] Hrest].
    + inversion H; subst. exists root, out.
      split; [reflexivity|]. split; [|reflexivity].
      split; [left; reflexivity | exact Hrest].
    + discriminate.
  - rewrite collectFn_error in H. discriminate.
Qed.

Lemma Collect_failed (targetAbs : string) (items : list Item) (e : error) :
  Collect os targetAbs c = (items, Some e) ->
  items = [] /\ exists m, e = OSError m /\ ScanError os c targetAbs m.
Proof.
  unfold Collect, Filepath.WalkDir. intros H.
  destruct (Lstat os targetAbs) as [root|m] eqn:Els.
  - destruct (Filepath.walkDir
                (collectFn os c (SplitClean (Exclude c)) (getwd_ os))
                targetAbs root []) as [out r] eqn:Ew.
    pose proof (walkDir_post _ _ _ _ _ _ _ _ _ Ew) as Hpost.
    destruct Hpost as [[-> | [m [-> Herr]]] Hrest].
    + discriminate.
    + inversion H; subst. split; [reflexivity|].
      exists m. split; [reflexivity|].
      eapply ScanError_walk; eassumption.
  - rewrite collectFn_error in H. inversion H; subst.
    split; [reflexivity|]. exists m. split; [reflexivity|].
    apply ScanError_lstat. exact Els.
Qed.

Lemma Collect_items (targetAbs : string) (items : list Item) (root : node) :
  Collect os targetAbs c = (items, None) ->
  Lstat os targetAbs = Ok root ->
  forall it, In it items ->
    exists p, Visits (SplitClean (Exclude c)) targetAbs root p NFile
              /\ selects c (SplitClean (Exclude c)) p = true
              /\ itemOf os (getwd_ os) it p.
Proof.
  intros H Hls it Hin.
  destruct (Collect_ok _ _ H) as [root' [out [Hls' [Hpost ->]]]].
  rewrite Hls in Hls'. inversion Hls'; subst root'.
  destruct Hpost as [_ [new [Hout [Hitems _]]]].
  simpl in Hout. subst new.
  apply sort_Slice_In in Hin. exact (Hitems it Hin).
Qed.

Lemma Collect_reached (targetAbs : string) (items : list Item) (root : node) :
  Collect os targetAbs c = (items, None) ->
  Lstat os targetAbs = Ok root ->
  forall p d, Visits (SplitClean (Exclude c)) targetAbs root p d ->
    reachedOK os c (SplitClean (Exclude c)) (getwd_ os) items p d.
Proof.
  intros H Hls p d Hv.
  destruct (Collect_ok _ _ H) as [root' [out [Hls' [Hpost ->]]]].
  rewrite Hls in Hls'. inversion Hls'; subst root'.
  destruct Hpost as [_ [new [Hout [_ Hreach]]]].
  simpl in Hout. subst new.
  apply reachedOK_mono with (new := out).
  - intros it Hin. apply sort_Slice_In. exact Hin.
  - apply (Hreach eq_refl). exact Hv.
Qed.

Lemma Collect_scan_error (targetAbs m : string) :
  ScanError os c targetAbs m ->
  exists m',
    ScanError os c targetAbs m'
    /\ Collect os targetAbs c = ([], Some (OSError m')).
Proof.
  intros Herr.
  destruct (Collect os targetAbs c) as [items [e|]] eqn:E.
  - destruct (Collect_failed _ _ _ E) as [-> [m' [-> Hm']]]. eauto.
  - exfalso. destruct Herr as [Hls | root Hls Hw].
    + destruct (Collect_ok _ _ E) as [root [out [Hls' _]]]. congruence.
    + destruct Hw as [p dirs Hv Hp | p Hv Hs Hst | p sz Hv Hs Hst Hrd];
        pose proof (Collect_reached _ _ _ E Hls _ _ Hv) as H; simpl in H.
      * specialize (H Hp). discriminate.
      * destruct (H Hs) as [it [_ [_ [Hst' _]]]]. congruence.
      * destruct (H Hs) as [it [_ [_ [_ [data [Hrd' _]]]]]]. congruence.
Qed.


End CollectFacts.

(** ** Suffixes and base names *)

Lemma length_append (a b : string) :
  String.length (String.append a b) = (String.length a + String.length b)%nat.
Proof.
  induction a as [|ch a IH]; simpl; [reflexivity | rewrite IH; reflexivity].
Qed.

Lemma substring_full (s : string) : String.substring 0 (String.length s) s = s.
Proof.
  induction s as [|ch s IH]; simpl; [reflexivity | rewrite IH; reflexivity].
Qed.

Lemma substring_append_suffix (pre suf : string) :
  String.substring (String.length pre) (String.length suf)
    (String.append pre suf) = suf.
Proof.
  induction pre as [|ch pre IH]; simpl; [apply substring_full | exact IH].
Qed.

Lemma substring_split (s : string) (k : nat) :
  (k <= String.length s)%nat ->
  s = String.append (String.substring 0 k s)
        (String.substring k (String.length s - k) s).
Proof.
  revert k. induction s as [|ch s IH]; intros [|k] Hk; simpl in *;
    try reflexivity; try lia.
  - rewrite substring_full. reflexivity.
  - rewrite <- IH by lia. reflexivity.
Qed.

Lemma HasSuffix_iff (s suf : string) :
  Strings.HasSuffix s suf = true <-> exists pre, s = String.append pre suf.
Proof.
  unfold Strings.HasSuffix. split.
  - intros H. apply andb_true_iff in H. destruct H as [Hlen Heq].
    apply Nat.leb_le in Hlen. apply String.eqb_eq in Heq.
    exists (String.substring 0 (String.length s - String.length suf) s).
    pose proof (substring_split s (String.length s - String.length suf)) as Hs.
    replace (String.length s - (String.length s - String.length suf))%nat
      with (String.length suf) in Hs by lia.
    rewrite Heq in Hs. apply Hs. lia.
  - intros [pre ->]. rewrite length_append.
    apply andb_true_iff. split; [apply Nat.leb_le; lia|].
    replace (String.length pre + String.length suf - String.length suf)%nat
      with (String.length pre) by lia.
    rewrite substring_append_suffix. apply String.eqb_refl.
Qed.

Lemma list_ascii_of_string_append (a b : string) :
  list_ascii_of_string (String.append a b)
  = list_ascii_of_string a ++ list_ascii_of_string b.
Proof.
  induction a as [|ch a IH]; simpl; [reflexivity | rewrite IH; reflexivity].
Qed.

Lemma string_of_list_ascii_app (l1 l2 : list ascii) :
  string_of_list_ascii (l1 ++ l2)
  = String.append (string_of_list_ascii l1) (string_of_list_ascii l2).
Proof.
  induction l1 as [|ch l1 IH]; simpl; [reflexivity | rewrite IH; reflexivity].
Qed.

Lemma no_separator_chars (suf : string) :
  Strings.Contains suf "/" = false ->
  Forall (fun ch => Filepath.IsPathSeparator ch = false)
    (list_ascii_of_string suf).
Proof.
  induction suf as [|ch suf IH]; simpl; intros H; [constructor|].
  apply orb_false_iff in H. destruct H as [Hhd Htl].
  constructor; [|apply IH; exact Htl].
  unfold Filepath.IsPathSeparator, Filepath.Separator.
  destruct (Ascii.eqb_spec ch "/"%char) as [->|Hne]; [|reflexivity].
  simpl in Hhd. destruct suf; discriminate.
Qed.

Lemma lastElementRev_app (r1 r2 : list ascii) :
  Forall (fun ch => Filepath.IsPathSeparator ch = false) r1 ->
  Filepath.lastElementRev (r1 ++ r2) = r1 ++ Filepath.lastElementRev r2.
Proof.
  induction 1 as [|ch r1 Hch _ IH]; simpl; [reflexivity|].
  rewrite Hch, IH. reflexivity.
Qed.

Lemma Base_keeps_suffix (pre suf : string) :
  suf <> "" ->
  Strings.Contains suf "/" = false ->
  exists pre', Filepath.Base (String.append pre suf) = String.append pre' suf.
Proof.
  intros Hne Hsep. apply no_separator_chars in Hsep.
  assert (Hrev : Forall (fun ch => Filepath.IsPathSeparator ch = false)
                   (rev (list_ascii_of_string suf)))
    by (apply Forall_rev; exact Hsep).
  unfold Filepath.Base.
  assert (Hpath : String.eqb (String.append pre suf) "" = false).
  { apply String.eqb_neq. intros H.
    apply (f_equal String.length) in H. rewrite length_append in H.
    destruct suf; [congruence | simpl in H; lia]. }
  rewrite Hpath, list_ascii_of_string_append, rev_app_distr.
  assert (Hdrop : forall r2,
             Filepath.dropTrailingSeparators
               (rev (list_ascii_of_string suf) ++ r2)
             = rev (list_ascii_of_string suf) ++ r2).
  { intros r2. destruct (rev (list_ascii_of_string suf)) as [|ch r1] eqn:E.
    - apply (f_equal (@rev ascii)) in E. rewrite rev_involutive in E.
      simpl in E. destruct suf; [congruence | discriminate].
    - inversion Hrev as [|? ? Hch _]; subst. simpl. rewrite Hch. reflexivity. }
  rewrite Hdrop, (lastElementRev_app _ _ Hrev), rev_app_distr, rev_involutive.
  rewrite string_of_list_ascii_app, string_of_list_ascii_of_string.
  set (pre' := string_of_list_ascii
                 (rev (Filepath.lastElementRev
                         (rev (list_ascii_of_string pre))))).
  assert (Hlast : String.eqb (String.append pre' suf) "" = false).
  { apply String.eqb_neq. intros H.
    apply (f_equal String.length) in H. rewrite length_append in H.
    destruct suf; [congruence | simpl in H; lia]. }
  rewrite Hlast. exists pre'. reflexivity.
Qed.

Lemma HasSuffix_Base (path ext : string) :
  Strings.Contains ext "/" = false ->
  Strings.HasSuffix path ext = true ->
  Strings.HasSuffix (Filepath.Base path) ext = true.
Proof.
  intros Hsep Hsuf.
  destruct (String.eqb_spec ext "") as [->|Hne]; [apply HasSuffix_empty|].
  apply HasSuffix_iff in Hsuf. destruct Hsuf as [pre ->].
  destruct (Base_keeps_suffix pre ext Hne Hsep) as [pre' ->].
  apply HasSuffix_iff. exists pre'. reflexivity.
Qed.

(* ================================================================ *)
(** * The claims about [Collect] and [Dump] *)

(** C3.  When the path of a directory contains an entry of the exclude
    list, the traversal leaves the directory at once, whatever it
    holds, without reading it and without error; and no item that
    [Collect] returns has a path that continues the path of such a
    directory. *)
Theorem pruned_directory_is_skipped
    (os : OS) (c : Config) (dir bad : string) :
  In bad (SplitClean (Exclude c)) ->
  Strings.Contains (Filepath.ToSlash dir) bad = true ->
  (forall rderr dirs out,
      Filepath.walkDir
        (collectFn os c (SplitClean (Exclude c)) (getwd_ os))
        dir (NDir rderr dirs) out
      = (out, None))
  /\ (forall targetAbs items,
         Collect os targetAbs c = (items, None) ->
         forall it rest, In it items -> abs it <> String.append dir rest).
Proof.
  intros Hbad Hc.
  assert (Hm : matchesExclude (SplitClean (Exclude c)) (Filepath.ToSlash dir)
               = true).
  { eapply matchesExclude_true;
      [exact Hbad | eapply SplitClean_nonempty; exact Hbad | exact Hc]. }
  split.
  - intros rderr dirs out. apply walkDir_pruned. exact Hm.
  - intros targetAbs items H it rest Hin Habs.
    destruct (Collect_ok _ _ _ _ H) as [root [out [Hls _]]].
    destruct (Collect_items _ _ _ _ _ H Hls it Hin)
      as [p [_ [Hsel [Hp _]]]].
    apply selects_inv in Hsel. destruct Hsel as [_ [_ [_ Hno]]].
    rewrite <- Hp, Habs, ToSlash_id in Hno.
    rewrite ToSlash_id in Hm.
    rewrite (matchesExclude_append _ _ rest Hm) in Hno. discriminate.
Qed.

Lemma pruned_directory_is_skipped_witness :
  Filepath.walkDir
    (collectFn os_pruned (cfgHere "dump.txt" ".go")
       (SplitClean (Exclude (cfgHere "dump.txt" ".go"))) (getwd_ os_pruned))
    "/w/vendor/lib" (NDir (Some "permission denied") [("x.go", NFile)]) []
  = ([], None)
  /\ map abs (fst (Collect os_pruned "/w" (cfgHere "dump.txt" ".go")))
     = ["/w/m.go"].
Proof.
  split; [|vm_compute; reflexivity].
  apply (proj1 (pruned_directory_is_skipped os_pruned
                  (cfgHere "dump.txt" ".go") "/w/vendor/lib" "/vendor/"
                  ltac:(vm_compute; auto) ltac:(vm_compute; reflexivity))).
Defined.

Lemma Collect_target_excluded
    (os : OS) (c : Config) (targetAbs bad : string) (d : node) :
  In bad (SplitClean (Exclude c)) ->
  Strings.Contains (Filepath.ToSlash targetAbs) bad = true ->
  Lstat os targetAbs = Ok d ->
  Collect os targetAbs c = ([], None).
Proof.
  intros Hbad Hc Hls.
  assert (Hm : matchesExclude (SplitClean (Exclude c))
                 (Filepath.ToSlash targetAbs) = true).
  { eapply matchesExclude_true;
      [exact Hbad | eapply SplitClean_nonempty; exact Hbad | exact Hc]. }
  unfold Collect, Filepath.WalkDir. rewrite Hls.
  destruct d as [|rderr dirs].
  - rewrite walkDir_file, collectFn_file_skipped; [reflexivity|].
    unfold selects. rewrite Hm. apply andb_false_r.
  - rewrite walkDir_pruned by exact Hm. reflexivity.
Qed.

(** C9.  The exclude entries are matched against the whole path that
    the traversal hands to the callback, the part above the target
    included: when the path of the target itself contains an entry,
    [Collect] returns no item and no error, and [Dump] writes the
    header alone and reports zero files. *)
Theorem excluded_target_gives_header_only
    (os : OS) (c : Config) (bad : string) (d : node) :
  In bad (SplitClean (Exclude c)) ->
  Strings.Contains (Filepath.ToSlash (targetAbsOf os c)) bad = true ->
  Lstat os (targetAbsOf os c) = Ok d ->
  Collect os (targetAbsOf os c) c = ([], None)
  /\ (MkdirAll os (Filepath.Dir (outAbsOf os c)) = None ->
      WriteFile os (outAbsOf os c)
        (writeHeader os (getwd_ os) (rootAbsOf os c) (targetAbsOf os c)
           (outAbsOf os c) []) = None ->
      Dump os c
      = ([OpMkdirAll (Filepath.Dir (outAbsOf os c));
          OpWriteFile (outAbsOf os c)
            (writeHeader os (getwd_ os) (rootAbsOf os c) (targetAbsOf os c)
               (outAbsOf os c) [])],
         (outAbsOf os c, 0%Z, None))).
Proof.
  intros Hbad Hc Hls.
  pose proof (Collect_target_excluded _ _ _ _ _ Hbad Hc Hls) as Hcol.
  split; [exact Hcol|].
  intros Hmk Hwr. unfold Dump.
  fold (targetAbsOf os c). fold (rootAbsOf os c). fold (outAbsOf os c).
  rewrite Hcol. simpl dumpItems. cbv iota beta.
  rewrite Hmk, Hwr. reflexivity.
Qed.

Lemma excluded_target_gives_header_only_witness :
  Collect os_vendor (targetAbsOf os_vendor DefaultConfig) DefaultConfig
  = ([], None)
  /\ snd (Dump os_vendor DefaultConfig)
     = ("/home/u/vendor/proj/models_tree.txt", 0%Z, None).
Proof.
  destruct (excluded_target_gives_header_only os_vendor DefaultConfig
              "/vendor/" (NDir None [("user.go", NFile)])
              ltac:(vm_compute; auto) ltac:(vm_compute; reflexivity)
              ltac:(vm_compute; reflexivity)) as [Hcol Hdump].
  split; [exact Hcol|].
  rewrite Hdump; [vm_compute; reflexivity | reflexivity | reflexivity].
Defined.

(** C10.  With the empty [ext] the suffix test holds of every path, so
    every file that the traversal meets, whose base name is not [out],
    whose path contains [include] when there is one and contains no
    exclude entry, has an item in the list that [Collect] returns. *)
Theorem empty_ext_collects_every_file
    (os : OS) (c : Config) (targetAbs : string) (root : node)
    (items : list Item) (p : string) :
  Ext c = "" ->
  Collect os targetAbs c = (items, None) ->
  Lstat os targetAbs = Ok root ->
  Visits (SplitClean (Exclude c)) targetAbs root p NFile ->
  Filepath.Base p <> Out c ->
  (Include c = "" \/ Strings.Contains (Filepath.ToSlash p) (Include c) = true) ->
  matchesExclude (SplitClean (Exclude c)) (Filepath.ToSlash p) = false ->
  (forall path, Strings.HasSuffix path (Ext c) = true)
  /\ exists it, In it items /\ abs it = p.
Proof.
  intros Hext H Hls Hv Hout Hinc Hexc.
  split; [intros path; rewrite Hext; apply HasSuffix_empty|].
  assert (Hsel : selects c (SplitClean (Exclude c)) p = true).
  { unfold selects. rewrite Hext, HasSuffix_empty, Hexc.
    apply String.eqb_neq in Hout. rewrite Hout. simpl.
    rewrite andb_true_r.
    destruct Hinc as [-> | ->]; [reflexivity | apply orb_true_r]. }
  pose proof (Collect_reached _ _ _ _ _ H Hls _ _ Hv) as Hr.
  simpl in Hr. destruct (Hr Hsel) as [it [Hin [Habs _]]].
  exists it. auto.
Qed.

Lemma empty_ext_collects_every_file_witness :
  exists it,
    In it (fst (Collect os_mixed "/w" (cfgHere "dump.txt" "")))
    /\ abs it = "/w/Makefile".
Proof.
  eapply (empty_ext_collects_every_file os_mixed (cfgHere "dump.txt" "") "/w"
            (NDir None [("Makefile", NFile); ("m.go", NFile)])).
  - reflexivity.
  - vm_compute. reflexivity.
  - vm_compute. reflexivity.
  - eapply Visits_child with (name := "Makefile");
      [vm_compute; reflexivity | simpl; auto | ].
    exact (Visits_here _ "/w/Makefile" NFile).
  - vm_compute. discriminate.
  - left. reflexivity.
  - vm_compute. reflexivity.
Defined.

(** What the self-exclusion test of the callback does: no item has the
    string [out] itself for base name. *)
Lemma Collect_base_differs_from_out
    (os : OS) (c : Config) (targetAbs : string) (items : list Item) (it : Item) :
  Collect os targetAbs c = (items, None) -> In it items ->
  Filepath.Base (abs it) <> Out c.
Proof.
  intros H Hin.
  destruct (Collect_ok _ _ _ _ H) as [root [out [Hls _]]].
  destruct (Collect_items _ _ _ _ _ H Hls it Hin) as [p [_ [Hsel [Hp _]]]].
  apply selects_inv in Hsel. destruct Hsel as [_ [Hout _]].
  rewrite Hp. apply String.eqb_neq. exact Hout.
Qed.

(** C2, at an input where the code departs from it: with
    [out = docs/dump.txt] the artifact of an earlier run lies in the
    scanned tree, its base name is the base name of [out], and
    [Collect] returns it all the same, because the callback compares
    the base name of the file with [out] as configured. *)
Theorem self_exclusion_misses_out_below_a_directory :
  exists it,
    In it (fst (Collect os_self
                  (targetAbsOf os_self (cfgHere "docs/dump.txt" ".txt"))
                  (cfgHere "docs/dump.txt" ".txt")))
    /\ abs it = outAbsOf os_self (cfgHere "docs/dump.txt" ".txt")
    /\ Filepath.Base (abs it)
       = Filepath.Base (Out (cfgHere "docs/dump.txt" ".txt")).
Proof.
  vm_compute. eexists. split; [left; reflexivity|]. split; reflexivity.
Qed.

(** C6, as the code has it: an item is collected only if the path that
    the traversal gives for it ends with [ext]; when [ext] contains no
    separator, its base name ends with [ext] as well. *)
Theorem collected_path_ends_with_ext
    (os : OS) (c : Config) (targetAbs : string) (items : list Item)
    (it : Item) :
  Collect os targetAbs c = (items, None) ->
  In it items ->
  Strings.HasSuffix (abs it) (Ext c) = true
  /\ (Strings.Contains (Ext c) "/" = false ->
      Strings.HasSuffix (Filepath.Base (abs it)) (Ext c) = true).
Proof.
  intros H Hin.
  destruct (Collect_ok _ _ _ _ H) as [root [out [Hls _]]].
  destruct (Collect_items _ _ _ _ _ H Hls it Hin) as [p [_ [Hsel [Hp _]]]].
  apply selects_inv in Hsel. destruct Hsel as [Hsuf _].
  rewrite Hp. split; [exact Hsuf|].
  intros Hsep. apply HasSuffix_Base; assumption.
Qed.

Lemma collected_path_ends_with_ext_witness :
  Strings.HasSuffix "/w/z.go" ".go" = true
  /\ Strings.HasSuffix (Filepath.Base "/w/z.go") ".go" = true.
Proof.
  destruct (collected_path_ends_with_ext os_abz (cfgHere "dump.txt" ".go")
              "/w" (fst (Collect os_abz "/w" (cfgHere "dump.txt" ".go")))
              {| rel := "z.go"; abs := "/w/z.go";
                 sha := hex_EncodeToString (repeat x00 32); size := 64 |}
              ltac:(vm_compute; reflexivity)
              ltac:(vm_compute; auto)) as [Hpath Hbase].
  split; [exact Hpath | apply Hbase; vm_compute; reflexivity].
Defined.

(** C6 as stated fails for an [ext] that reaches over a separator: the
    file is collected and its base name does not end with [ext]. *)
Lemma collected_base_name_without_ext :
  exists it,
    In it (fst (Collect os_abz "/w" (cfgHere "dump.txt" "a/b.go")))
    /\ abs it = "/w/a/b.go"
    /\ Filepath.Base (abs it) = "b.go"
    /\ Strings.HasSuffix (Filepath.Base (abs it))
         (Ext (cfgHere "dump.txt" "a/b.go")) = false.
Proof.
  vm_compute. eexists. split; [left; reflexivity|]. repeat split.
Qed.

(* ================================================================ *)
(** * Further properties of the package *)

(** ** What [Collect] selects *)

Section Selection.

Variables (os : OS) (c : Config) (excl : list string) (wd : string).

Lemma selectedPaths_NDir (path : string) (rderr : option string)
    (dirs : list (string * node)) :
  selectedPaths c excl path (NDir rderr dirs)
  = if matchesExclude excl (Filepath.ToSlash path) then []
    else selectedBelow c excl path dirs.
Proof.
  simpl. destruct (matchesExclude excl (Filepath.ToSlash path));
    [reflexivity|].
  induction dirs as [|[name d1] rest IH]; simpl; [reflexivity|].
  rewrite IH. reflexivity.
Qed.

Lemma walkRange_selected (path : string) (dirs : list (string * node)) :
  Forall (fun nd => forall path out out',
              Filepath.walkDir (collectFn os c excl wd) path (snd nd) out
              = (out', None) ->
              map abs out' = map abs out ++ selectedPaths c excl path (snd nd))
         dirs ->
  forall out out',
    Filepath.walkRange (collectFn os c excl wd) path dirs out = (out', None) ->
    map abs out' = map abs out ++ selectedBelow c excl path dirs.
Proof.
  induction 1 as [|[name d1] rest Hd1 _ IH]; intros out out' Hrun.
  - simpl in Hrun. inversion Hrun; subst. simpl. rewrite app_nil_r.
    reflexivity.
  - rewrite walkRange_cons in Hrun.
    destruct (Filepath.walkDir (collectFn os c excl wd)
                (Filepath.Join [path; name]) d1 out) as [st' e] eqn:Ewalk.
    pose proof (walkDir_post os c excl wd _ _ _ _ _ Ewalk) as Hpost.
    destruct Hpost as [[-> | [m [-> _]]] _].
    + apply Hd1 in Ewalk. apply IH in Hrun.
      rewrite Hrun, Ewalk. simpl. rewrite app_assoc. reflexivity.
    + simpl in Hrun. discriminate.
Qed.

Lemma walkDir_selected (d : node) :
  forall path out out',
    Filepath.walkDir (collectFn os c excl wd) path d out = (out', None) ->
    map abs out' = map abs out ++ selectedPaths c excl path d.
Proof.
  induction d as [|rderr dirs IH] using node_ind_entries;
    intros path out out' Hrun.
  - rewrite walkDir_file in Hrun. simpl.
    destruct (selects c excl path) eqn:Hsel.
    + rewrite (collectFn_file_selected _ _ _ _ _ _ Hsel) in Hrun.
      destruct (Stat os path) as [sz|m]; [|discriminate].
      destruct (ReadFile os path) as [data|m]; [|discriminate].
      inversion Hrun; subst. rewrite map_app. reflexivity.
    + rewrite (collectFn_file_skipped _ _ _ _ _ _ Hsel) in Hrun.
      inversion Hrun; subst. rewrite app_nil_r. reflexivity.
  - rewrite selectedPaths_NDir.
    destruct (matchesExclude excl (Filepath.ToSlash path)) eqn:Hp.
    + rewrite (walkDir_pruned _ _ _ _ _ _ _ _ Hp) in Hrun.
      inversion Hrun; subst. rewrite app_nil_r. reflexivity.
    + rewrite (walkDir_entered _ _ _ _ _ _ _ _ Hp) in Hrun.
      destruct rderr as [m|]; [discriminate|].
      apply (walkRange_selected path dirs IH). exact Hrun.
Qed.

End Selection.

Lemma insertSlice_perm {A : Type} (less : A -> A -> bool) (x : A) (l : list A) :
  Permutation (insertSlice less x l) (x :: l).
Proof.
  induction l as [|y l IH]; simpl; [apply Permutation_refl|].
  destruct (less y x); [|apply Permutation_refl].
  eapply Permutation_trans; [apply perm_skip; exact IH | apply perm_swap].
Qed.

Lemma sort_Slice_perm {A : Type} (less : A -> A -> bool) (l : list A) :
  Permutation (sort_Slice less l) l.
Proof.
  induction l as [|x l IH]; simpl; [constructor|].
  eapply Permutation_trans; [apply insertSlice_perm|].
  apply perm_skip. exact IH.
Qed.

Lemma Collect_ok_walk (os : OS) (c : Config) (targetAbs : string)
    (items : list Item) :
  Collect os targetAbs c = (items, None) ->
  exists root out,
    Lstat os targetAbs = Ok root
    /\ Filepath.walkDir
         (collectFn os c (SplitClean (Exclude c)) (getwd_ os))
         targetAbs root [] = (out, None)
    /\ items = sort_Slice lessRel out.
Proof.
  unfold Collect, Filepath.WalkDir. intros H.
  destruct (Lstat os targetAbs) as [root|m] eqn:Els.
  - destruct (Filepath.walkDir
                (collectFn os c (SplitClean (Exclude c)) (getwd_ os))
                targetAbs root []) as [out r] eqn:Ew.
    pose proof (walkDir_post _ _ _ _ _ _ _ _ _ Ew) as Hpost.
    destruct Hpost as [[-> | [m [-> _]]] _]; [|discriminate].
    inversion H; subst. exists root, out. auto.
  - rewrite collectFn_error in H. discriminate.
Qed.

(** X1.  In a run of [Collect] that ends without error, the paths of the
    items are, up to order, exactly the paths of the files that the
    traversal meets and that pass the four tests: no selected file is
    missing, none is there twice, and nothing else is there. *)
Theorem Collect_paths_are_selected_paths
    (os : OS) (c : Config) (targetAbs : string) (root : node)
    (items : list Item) :
  Collect os targetAbs c = (items, None) ->
  Lstat os targetAbs = Ok root ->
  Permutation (map abs items)
    (selectedPaths c (SplitClean (Exclude c)) targetAbs root)
  /\ List.length items
     = List.length (selectedPaths c (SplitClean (Exclude c)) targetAbs root).
Proof.
  intros H Hls.
  destruct (Collect_ok_walk _ _ _ _ H) as [root' [out [Hls' [Hw ->]]]].
  rewrite Hls in Hls'. inversion Hls'; subst root'.
  apply walkDir_selected in Hw. simpl in Hw.
  assert (Hperm : Permutation (map abs (sort_Slice lessRel out))
                    (selectedPaths c (SplitClean (Exclude c)) targetAbs root)).
  { rewrite <- Hw. apply Permutation_map. apply sort_Slice_perm. }
  split; [exact Hperm|].
  apply Permutation_length in Hperm. rewrite length_map in Hperm. exact Hperm.
Qed.

Lemma Collect_paths_are_selected_paths_witness :
  Permutation
    (map abs (fst (Collect os_abz "/w" (cfgHere "dump.txt" ".go"))))
    ["/w/z.go"; "/w/a/b.go"; "/w/a/a.go"]
  /\ List.length (fst (Collect os_abz "/w" (cfgHere "dump.txt" ".go"))) = 3%nat.
Proof.
  apply (Collect_paths_are_selected_paths os_abz (cfgHere "dump.txt" ".go")
           "/w"
           (NDir None [("z.go", NFile);
                       ("a", NDir None [("b.go", NFile); ("a.go", NFile)])])
           (fst (Collect os_abz "/w" (cfgHere "dump.txt" ".go"))));
    vm_compute; reflexivity.
Defined.



(** X3.  The include filter is a test on the path: when [include] is
    not empty, the slash form of the path of every item contains it. *)
Theorem Collect_items_contain_include
    (os : OS) (c : Config) (targetAbs : string) (items : list Item)
    (it : Item) :
  Collect os targetAbs c = (items, None) ->
  In it items ->
  Include c <> "" ->
  Strings.Contains (Filepath.ToSlash (abs it)) (Include c) = true.
Proof.
  intros H Hin Hne.
  destruct (Collect_ok _ _ _ _ H) as [root [out [Hls _]]].
  destruct (Collect_items _ _ _ _ _ H Hls it Hin) as [p [_ [Hsel [Hp _]]]].
  apply selects_inv in Hsel. destruct Hsel as [_ [_ [[He|Hc] _]]].
  - contradiction.
  - rewrite Hp. exact Hc.
Qed.

Lemma Collect_items_contain_include_witness :
  map abs (fst (Collect os_dto "/w" (cfgInclude "DTO"))) = ["/w/a_DTO.go"]
  /\ Strings.Contains (Filepath.ToSlash "/w/a_DTO.go") "DTO" = true.
Proof.
  split; [vm_compute; reflexivity|].
  apply (Collect_items_contain_include os_dto (cfgInclude "DTO") "/w"
           (fst (Collect os_dto "/w" (cfgInclude "DTO")))
           {| rel := "a_DTO.go"; abs := "/w/a_DTO.go";
              sha := hex_EncodeToString (repeat x00 32); size := 64 |});
    [vm_compute; reflexivity | vm_compute; auto | discriminate].
Defined.

(** ** What [Dump] does to the file system *)

Lemma dumpItems_ok_fold (os : OS) (c : Config) (items : list Item)
    (buf buf' : list byte) :
  dumpItems os c items buf = (buf', None) ->
  buf' = fold_left (fun b it => writeBlock c it (dataOf os it) b) items buf.
Proof.
  revert buf. induction items as [|it items IH]; intros buf H; simpl in *.
  - inversion H. reflexivity.
  - destruct (ReadFile os (abs it)) as [data|m] eqn:Erd; [|discriminate].
    assert (Hdata : dataOf os it = data)
      by (unfold dataOf; rewrite Erd; reflexivity).
    rewrite Hdata. apply IH. exact H.
Qed.

(** X4.  When [Dump] returns without error, it has made the directory of
    the output path and then written one file, at the output path, that
    holds the header and the blocks of the collected items; it returns
    that path and the number of the items. *)
Theorem Dump_success_writes_one_artifact
    (os : OS) (c : Config) (ops : list fs_op) (path : string) (n : Z) :
  Dump os c = (ops, (path, n, None)) ->
  exists items,
    Collect os (targetAbsOf os c) c = (items, None)
    /\ path = outAbsOf os c
    /\ n = Z.of_nat (List.length items)
    /\ ops = [OpMkdirAll (Filepath.Dir (outAbsOf os c));
              OpWriteFile (outAbsOf os c) (artifactOf os c items)]
    /\ MkdirAll os (Filepath.Dir (outAbsOf os c)) = None
    /\ WriteFile os (outAbsOf os c) (artifactOf os c items) = None.
Proof.
  unfold Dump, artifactOf.
  fold (targetAbsOf os c). fold (rootAbsOf os c). fold (outAbsOf os c).
  intros H.
  destruct (Collect os (targetAbsOf os c) c) as [items [e|]] eqn:Ecol;
    [discriminate|].
  destruct (dumpItems os c items
              (writeHeader os (getwd_ os) (rootAbsOf os c) (targetAbsOf os c)
                 (outAbsOf os c) [])) as [buf [e|]] eqn:Edump;
    [discriminate|].
  apply dumpItems_ok_fold in Edump. subst buf.
  destruct (MkdirAll os (Filepath.Dir (outAbsOf os c))) as [m|] eqn:Emk;
    [discriminate|].
  match type of H with
  | context [WriteFile os ?p ?b] =>
      destruct (WriteFile os p b) as [m|] eqn:Ewr; [discriminate|]
  end.
  inversion H; subst. exists items. auto 10.
Qed.

Lemma Dump_success_writes_one_artifact_witness :
  exists items,
    Collect os_abz (targetAbsOf os_abz (cfgHere "dump.txt" ".go"))
      (cfgHere "dump.txt" ".go") = (items, None)
    /\ "/w/dump.txt" = outAbsOf os_abz (cfgHere "dump.txt" ".go")
    /\ 3%Z = Z.of_nat (List.length items)
    /\ fst (Dump os_abz (cfgHere "dump.txt" ".go"))
       = [OpMkdirAll (Filepath.Dir (outAbsOf os_abz (cfgHere "dump.txt" ".go")));
          OpWriteFile (outAbsOf os_abz (cfgHere "dump.txt" ".go"))
            (artifactOf os_abz (cfgHere "dump.txt" ".go") items)]
    /\ MkdirAll os_abz
         (Filepath.Dir (outAbsOf os_abz (cfgHere "dump.txt" ".go"))) = None
    /\ WriteFile os_abz (outAbsOf os_abz (cfgHere "dump.txt" ".go"))
         (artifactOf os_abz (cfgHere "dump.txt" ".go") items) = None.
Proof.
  apply (Dump_success_writes_one_artifact os_abz (cfgHere "dump.txt" ".go")
           (fst (Dump os_abz (cfgHere "dump.txt" ".go"))) "/w/dump.txt" 3%Z).
  vm_compute. reflexivity.
Defined.

(** X5.  When [Dump] returns an error, it returns the empty path and the
    count zero, and it has written no file with success: it has done
    nothing, or only asked for the directory of the output path, or
    asked for it and then failed to write the output path.  It never
    touches another path. *)
Theorem Dump_failure_leaves_no_artifact
    (os : OS) (c : Config) (ops : list fs_op) (path : string) (n : Z)
    (e : error) :
  Dump os c = (ops, (path, n, Some e)) ->
  path = "" /\ n = 0%Z
  /\ (ops = []
      \/ (ops = [OpMkdirAll (Filepath.Dir (outAbsOf os c))]
          /\ exists m, MkdirAll os (Filepath.Dir (outAbsOf os c)) = Some m
                       /\ e = OSError m)
      \/ (exists buf m,
             ops = [OpMkdirAll (Filepath.Dir (outAbsOf os c));
                    OpWriteFile (outAbsOf os c) buf]
             /\ WriteFile os (outAbsOf os c) buf = Some m
             /\ e = OSError m)).
Proof.
  unfold Dump.
  fold (targetAbsOf os c). fold (rootAbsOf os c). fold (outAbsOf os c).
  intros H.
  destruct (Collect os (targetAbsOf os c) c) as [items [e0|]] eqn:Ecol.
  { inversion H; subst. auto. }
  destruct (dumpItems os c items
              (writeHeader os (getwd_ os) (rootAbsOf os c) (targetAbsOf os c)
                 (outAbsOf os c) [])) as [buf [e0|]] eqn:Edump.
  { inversion H; subst. auto. }
  destruct (MkdirAll os (Filepath.Dir (outAbsOf os c))) as [m|] eqn:Emk.
  { inversion H; subst. split; [reflexivity|]. split; [reflexivity|].
    right. left. split; [reflexivity|]. exists m. auto. }
  destruct (WriteFile os (outAbsOf os c) buf) as [m|] eqn:Ewr;
    [|discriminate].
  inversion H; subst. split; [reflexivity|]. split; [reflexivity|].
  right. right. exists buf, m. auto.
Qed.

Lemma Dump_failure_leaves_no_artifact_witness :
  "" = "" /\ 0%Z = 0%Z
  /\ (fst (Dump os_readonly (cfgHere "dump.txt" ".go")) = []
      \/ (fst (Dump os_readonly (cfgHere "dump.txt" ".go"))
          = [OpMkdirAll
               (Filepath.Dir (outAbsOf os_readonly (cfgHere "dump.txt" ".go")))]
          /\ exists m,
               MkdirAll os_readonly
                 (Filepath.Dir (outAbsOf os_readonly (cfgHere "dump.txt" ".go")))
               = Some m
               /\ OSError "read-only file system" = OSError m)
      \/ (exists buf m,
             fst (Dump os_readonly (cfgHere "dump.txt" ".go"))
             = [OpMkdirAll
                  (Filepath.Dir
                     (outAbsOf os_readonly (cfgHere "dump.txt" ".go")));
                OpWriteFile (outAbsOf os_readonly (cfgHere "dump.txt" ".go"))
                  buf]
             /\ WriteFile os_readonly
                  (outAbsOf os_readonly (cfgHere "dump.txt" ".go")) buf
                = Some m
             /\ OSError "read-only file system" = OSError m)).
Proof.
  apply (Dump_failure_leaves_no_artifact os_readonly (cfgHere "dump.txt" ".go")
           (fst (Dump os_readonly (cfgHere "dump.txt" ".go"))) "" 0%Z
           (OSError "read-only file system")).
  vm_compute. reflexivity.
Defined.

(** ** More on [StripPackageLine] *)

Lemma filter_removeFirst_tl {A : Type} (p : A -> bool) (ls : list A) :
  filter p (removeFirst p ls) = tl (filter p ls).
Proof.
  induction ls as [|l ls IH]; simpl; [reflexivity|].
  destruct (p l) eqn:E; simpl; [reflexivity|].
  rewrite E. exact IH.
Qed.

Lemma Join_length_head (a : list byte) (rest : list (list byte))
    (sep : list byte) :
  (List.length a <= List.length (Bytes.Join (a :: rest) sep))%nat.
Proof.
  destruct rest; simpl; [lia|]. rewrite length_app. lia.
Qed.

Lemma Join_removeFirst_length (p : list byte -> bool)
    (ls : list (list byte)) (sep : list byte) :
  (List.length (Bytes.Join (removeFirst p ls) sep)
   <= List.length (Bytes.Join ls sep))%nat.
Proof.
  induction ls as [|l ls IH]; [simpl; lia|].
  simpl removeFirst. destruct (p l).
  - destruct ls as [|l2 ls]; [simpl; lia|].
    rewrite (Join_cons l (l2 :: ls)) by discriminate.
    rewrite !length_app. lia.
  - destruct ls as [|l2 ls]; [simpl; lia|].
    destruct (removeFirst p (l2 :: ls)) as [|r rs] eqn:Er.
    + apply Join_length_head.
    + rewrite (Join_cons l (r :: rs)) by discriminate.
      rewrite (Join_cons l (l2 :: ls)) by discriminate.
      rewrite !length_app. lia.
Qed.

(** X6.  A content in which no line is a declaration line comes out of
    the transformer as it went in. *)
Theorem StripPackageLine_without_declaration (b : list byte) :
  packageLines b = [] -> StripPackageLine b = b.
Proof.
  intros H. rewrite StripPackageLine_spec.
  rewrite removeFirst_none by exact H. apply Join_Split.
Qed.

Lemma StripPackageLine_without_declaration_witness :
  StripPackageLine (bytes_of ("// packages" ++ nl ++ "x := 1" ++ nl))
  = bytes_of ("// packages" ++ nl ++ "x := 1" ++ nl).
Proof.
  apply StripPackageLine_without_declaration. vm_compute. reflexivity.
Defined.

(** X7.  Each pass of the transformer takes away the first declaration
    line and leaves the following ones where they are: the declaration
    lines of the result are those of the input but the first; and the
    result is never longer than the input. *)
Theorem StripPackageLine_consumes_one_declaration (b : list byte) :
  packageLines (StripPackageLine b) = tl (packageLines b)
  /\ (List.length (StripPackageLine b) <= List.length b)%nat.
Proof.
  split.
  - unfold packageLines. rewrite StripPackageLine_spec.
    destruct (removeFirst isPackageLine (Bytes.Split b x0a)) as [|l ls] eqn:E.
    + rewrite <- filter_removeFirst_tl, E. reflexivity.
    + rewrite Split_Join.
      * rewrite <- E. apply filter_removeFirst_tl.
      * discriminate.
      * rewrite <- E. apply Forall_removeFirst, Split_no_sep.
  - rewrite StripPackageLine_spec.
    rewrite <- (Join_Split b x0a) at 2.
    apply Join_removeFirst_length.
Qed.

(** ** White space *)

Lemma trimLeftSpace_suffix (n : nat) :
  forall s, (List.length s <= n)%nat ->
    exists pre, s = pre ++ Bytes.trimLeftSpace s.
Proof.
  induction n as [|n IH]; intros s Hlen.
  - destruct s; [exists []; reflexivity | simpl in Hlen; lia].
  - destruct s as [|b0 t0]; [exists []; reflexivity|].
    simpl in Hlen. simpl Bytes.trimLeftSpace.
    destruct (Bytes.asciiSpace b0).
    { destruct (IH t0 ltac:(lia)) as [pre Hpre].
      exists (b0 :: pre). simpl. rewrite <- Hpre. reflexivity. }
    destruct t0 as [|b1 t1]; [exists []; reflexivity|].
    simpl in Hlen. destruct (Bytes.spaceRune2 b0 b1).
    { destruct (IH t1 ltac:(lia)) as [pre Hpre].
      exists (b0 :: b1 :: pre). simpl. rewrite <- Hpre. reflexivity. }
    destruct t1 as [|b2 t2]; [exists []; reflexivity|].
    simpl in Hlen. destruct (Bytes.spaceRune3 b0 b1 b2).
    { destruct (IH t2 ltac:(lia)) as [pre Hpre].
      exists (b0 :: b1 :: b2 :: pre). simpl. rewrite <- Hpre. reflexivity. }
    exists []. reflexivity.
Qed.

Lemma trimRightSpaceRev_suffix (n : nat) :
  forall r, (List.length r <= n)%nat ->
    exists pre, r = pre ++ Bytes.trimRightSpaceRev r.
Proof.
  induction n as [|n IH]; intros r Hlen.
  - destruct r; [exists []; reflexivity | simpl in Hlen; lia].
  - destruct r as [|b0 t0]; [exists []; reflexivity|].
    simpl in Hlen. simpl Bytes.trimRightSpaceRev.
    destruct (Bytes.asciiSpace b0).
    { destruct (IH t0 ltac:(lia)) as [pre Hpre].
      exists (b0 :: pre). simpl. rewrite <- Hpre. reflexivity. }
    destruct t0 as [|b1 t1]; [exists []; reflexivity|].
    simpl in Hlen. destruct (Bytes.spaceRune2 b1 b0).
    { destruct (IH t1 ltac:(lia)) as [pre Hpre].
      exists (b0 :: b1 :: pre). simpl. rewrite <- Hpre. reflexivity. }
    destruct t1 as [|b2 t2]; [exists []; reflexivity|].
    simpl in Hlen. destruct (Bytes.spaceRune3 b2 b1 b0).
    { destruct (IH t2 ltac:(lia)) as [pre Hpre].
      exists (b0 :: b1 :: b2 :: pre). simpl. rewrite <- Hpre. reflexivity. }
    exists []. reflexivity.
Qed.

Lemma trimLeftSpace_trimmed (n : nat) :
  forall s, (List.length s <= n)%nat ->
    startsWithSpace (Bytes.trimLeftSpace s) = false.
Proof.
  induction n as [|n IH]; intros s Hlen.
  - destruct s; [reflexivity | simpl in Hlen; lia].
  - destruct s as [|b0 t0]; [reflexivity|].
    simpl in Hlen. simpl Bytes.trimLeftSpace.
    destruct (Bytes.asciiSpace b0) eqn:E0; [apply IH; lia|].
    destruct t0 as [|b1 t1]; [simpl; rewrite E0; reflexivity|].
    simpl in Hlen. destruct (Bytes.spaceRune2 b0 b1) eqn:E1; [apply IH; lia|].
    destruct t1 as [|b2 t2]; [simpl; rewrite E0, E1; reflexivity|].
    simpl in Hlen.
    destruct (Bytes.spaceRune3 b0 b1 b2) eqn:E2; [apply IH; lia|].
    simpl. rewrite E0, E1, E2. reflexivity.
Qed.

Lemma trimRightSpaceRev_trimmed (n : nat) :
  forall r, (List.length r <= n)%nat ->
    endsWithSpaceRev (Bytes.trimRightSpaceRev r) = false.
Proof.
  induction n as [|n IH]; intros r Hlen.
  - destruct r; [reflexivity | simpl in Hlen; lia].
  - destruct r as [|b0 t0]; [reflexivity|].
    simpl in Hlen. simpl Bytes.trimRightSpaceRev.
    destruct (Bytes.asciiSpace b0) eqn:E0; [apply IH; lia|].
    destruct t0 as [|b1 t1]; [simpl; rewrite E0; reflexivity|].
    simpl in Hlen. destruct (Bytes.spaceRune2 b1 b0) eqn:E1; [apply IH; lia|].
    destruct t1 as [|b2 t2]; [simpl; rewrite E0, E1; reflexivity|].
    simpl in Hlen.
    destruct (Bytes.spaceRune3 b2 b1 b0) eqn:E2; [apply IH; lia|].
    simpl. rewrite E0, E1, E2. reflexivity.
Qed.

Lemma trimLeftSpace_fixed (s : list byte) :
  startsWithSpace s = false -> Bytes.trimLeftSpace s = s.
Proof.
  destruct s as [|b0 t0]; [reflexivity|]. simpl.
  destruct (Bytes.asciiSpace b0); [discriminate|].
  destruct t0 as [|b1 t1]; [reflexivity|].
  destruct (Bytes.spaceRune2 b0 b1); [discriminate|].
  destruct t1 as [|b2 t2]; [reflexivity|].
  destruct (Bytes.spaceRune3 b0 b1 b2); [discriminate | reflexivity].
Qed.

Lemma trimRightSpaceRev_fixed (r : list byte) :
  endsWithSpaceRev r = false -> Bytes.trimRightSpaceRev r = r.
Proof.
  destruct r as [|b0 t0]; [reflexivity|]. simpl.
  destruct (Bytes.asciiSpace b0); [discriminate|].
  destruct t0 as [|b1 t1]; [reflexivity|].
  destruct (Bytes.spaceRune2 b1 b0); [discriminate|].
  destruct t1 as [|b2 t2]; [reflexivity|].
  destruct (Bytes.spaceRune3 b2 b1 b0); [discriminate | reflexivity].
Qed.

Lemma startsWithSpace_app (s w : list byte) :
  startsWithSpace s = true -> startsWithSpace (s ++ w) = true.
Proof.
  destruct s as [|b0 t0]; [discriminate|]. simpl.
  destruct (Bytes.asciiSpace b0); [reflexivity|].
  destruct t0 as [|b1 t1]; [discriminate|]. simpl.
  destruct (Bytes.spaceRune2 b0 b1); [reflexivity|].
  destruct t1 as [|b2 t2]; [discriminate|]. simpl. auto.
Qed.

Lemma Bytes_TrimSpace_sub (s : list byte) (b : byte) :
  In b (Bytes.TrimSpace s) -> In b s.
Proof.
  unfold Bytes.TrimSpace. intros H. apply in_rev in H.
  destruct (trimRightSpaceRev_suffix _ (rev (Bytes.trimLeftSpace s))
              (le_n _)) as [pre Hpre].
  assert (H1 : In b (rev (Bytes.trimLeftSpace s)))
    by (rewrite Hpre; apply in_or_app; right; exact H).
  apply in_rev in H1.
  destruct (trimLeftSpace_suffix _ s (le_n _)) as [pre' Hpre'].
  rewrite Hpre'. apply in_or_app. right. exact H1.
Qed.

Lemma Bytes_TrimSpace_idempotent (s : list byte) :
  Bytes.TrimSpace (Bytes.TrimSpace s) = Bytes.TrimSpace s.
Proof.
  unfold Bytes.TrimSpace.
  set (y := Bytes.trimLeftSpace s).
  set (r := Bytes.trimRightSpaceRev (rev y)).
  assert (Hy : startsWithSpace y = false)
    by (apply (trimLeftSpace_trimmed _ s (le_n _))).
  assert (Hr : endsWithSpaceRev r = false)
    by (apply (trimRightSpaceRev_trimmed _ (rev y) (le_n _))).
  destruct (trimRightSpaceRev_suffix _ (rev y) (le_n _)) as [pre Hpre].
  fold r in Hpre.
  assert (Hz : startsWithSpace (rev r) = false).
  { destruct (startsWithSpace (rev r)) eqn:E; [|reflexivity].
    apply (startsWithSpace_app _ (rev pre)) in E.
    rewrite <- rev_app_distr, <- Hpre, rev_involutive in E. congruence. }
  rewrite (trimLeftSpace_fixed _ Hz), rev_involutive.
  rewrite (trimRightSpaceRev_fixed _ Hr). reflexivity.
Qed.

Lemma Strings_TrimSpace_idempotent (s : string) :
  Strings.TrimSpace (Strings.TrimSpace s) = Strings.TrimSpace s.
Proof.
  unfold Strings.TrimSpace.
  rewrite list_byte_of_string_of_list_byte, Bytes_TrimSpace_idempotent.
  reflexivity.
Qed.

Lemma Strings_TrimSpace_sub (s : string) (ch : ascii) :
  In ch (list_ascii_of_string (Strings.TrimSpace s)) ->
  In ch (list_ascii_of_string s).
Proof.
  unfold Strings.TrimSpace, string_of_list_byte, list_byte_of_string.
  rewrite list_ascii_of_string_of_list_ascii. intros H.
  apply in_map_iff in H. destruct H as [b [Hb Hin]].
  apply Bytes_TrimSpace_sub in Hin.
  apply in_map_iff in Hin. destruct Hin as [ch' [Hch' Hin']].
  subst b. rewrite ascii_of_byte_of_ascii in Hb. subst ch'. exact Hin'.
Qed.

(** ** The exclude list *)

Lemma Strings_Split_not_nil (s : string) (sep : ascii) :
  Strings.Split s sep <> [].
Proof.
  destruct s as [|ch t]; simpl; [discriminate|].
  destruct (Ascii.eqb ch sep); [discriminate|].
  destruct (Strings.Split t sep); discriminate.
Qed.

Lemma Strings_Split_append (a b : string) (sep : ascii) :
  Strings.Split (String.append a (String sep b)) sep
  = Strings.Split a sep ++ Strings.Split b sep.
Proof.
  induction a as [|ch a IH]; simpl.
  - rewrite Ascii.eqb_refl. reflexivity.
  - rewrite IH. destruct (Ascii.eqb ch sep); [reflexivity|].
    destruct (Strings.Split a sep) as [|l ls] eqn:E;
      [exfalso; exact (Strings_Split_not_nil a sep E) | reflexivity].
Qed.

Lemma Strings_Split_no_sep (s : string) (sep : ascii) :
  Forall (fun e => ~ In sep (list_ascii_of_string e)) (Strings.Split s sep).
Proof.
  induction s as [|ch t IH]; simpl.
  - constructor; [intros []|constructor].
  - destruct (Ascii.eqb_spec ch sep) as [->|Hne].
    + constructor; [intros []|exact IH].
    + destruct (Strings.Split t sep) as [|l ls].
      * constructor; [|constructor]. simpl. intros [H|[]]. congruence.
      * inversion IH as [|? ? Hl Hls]; subst.
        constructor; [|exact Hls].
        simpl. intros [H|H]; [congruence | exact (Hl H)].
Qed.

Lemma SplitClean_loop (parts acc : list string) :
  fold_left
    (fun out p =>
       let p := Filepath.ToSlash (Strings.TrimSpace p) in
       if negb (String.eqb p "") then out ++ [p] else out)
    parts acc
  = acc ++ filter (fun p => negb (String.eqb p ""))
             (map (fun p => Filepath.ToSlash (Strings.TrimSpace p)) parts).
Proof.
  revert acc. induction parts as [|p parts IH]; intros acc; simpl.
  - rewrite app_nil_r. reflexivity.
  - rewrite IH.
    destruct (negb (String.eqb (Filepath.ToSlash (Strings.TrimSpace p)) ""));
      [rewrite <- app_assoc|]; reflexivity.
Qed.

Lemma SplitClean_filter_map (s : string) :
  SplitClean s
  = filter (fun p => negb (String.eqb p ""))
      (map (fun p => Filepath.ToSlash (Strings.TrimSpace p))
         (Strings.Split s ","%char)).
Proof.
  unfold SplitClean. rewrite SplitClean_loop. reflexivity.
Qed.

Lemma no_char_not_Contains (e : string) (ch : ascii) :
  ~ In ch (list_ascii_of_string e) ->
  Strings.Contains e (String ch "") = false.
Proof.
  induction e as [|a e IH]; simpl; intros H; [reflexivity|].
  apply orb_false_iff. split.
  - destruct (ascii_dec ch a) as [->|Hne]; [|reflexivity].
    exfalso. apply H. left. reflexivity.
  - apply IH. intros Hin. apply H. right. exact Hin.
Qed.

(** X8.  Every entry that [SplitClean] returns is not empty, has no
    white space at either end, and holds no comma. *)
Theorem SplitClean_entries_are_clean (s e : string) :
  In e (SplitClean s) ->
  e <> ""
  /\ Strings.TrimSpace e = e
  /\ Strings.Contains e "," = false.
Proof.
  intros Hin. split; [eapply SplitClean_nonempty; exact Hin|].
  rewrite SplitClean_filter_map in Hin.
  apply filter_In in Hin. destruct Hin as [Hin _].
  apply in_map_iff in Hin. destruct Hin as [p [He Hp]].
  rewrite ToSlash_id in He. subst e.
  split; [apply Strings_TrimSpace_idempotent|].
  apply no_char_not_Contains. intros Hc.
  apply Strings_TrimSpace_sub in Hc.
  pose proof (Strings_Split_no_sep s ","%char) as Hall.
  rewrite Forall_forall in Hall. exact (Hall p Hp Hc).
Qed.

Lemma SplitClean_entries_are_clean_witness :
  "/.git/" <> ""
  /\ Strings.TrimSpace "/.git/" = "/.git/"
  /\ Strings.Contains "/.git/" "," = false.
Proof.
  apply (SplitClean_entries_are_clean " _test.go , /.git/ ,," "/.git/").
  vm_compute. auto.
Defined.

(** X9.  [SplitClean] reads a list joined with a comma as the two lists
    one after the other, in their order; entries that are blank
    contribute nothing. *)
Theorem SplitClean_of_joined_lists (a b : string) :
  SplitClean (String.append a (String ","%char b))
  = SplitClean a ++ SplitClean b.
Proof.
  rewrite !SplitClean_filter_map, Strings_Split_append, map_app, filter_app.
  reflexivity.
Qed.

(** ** Absolute paths *)

Lemma IsAbs_inv (path : string) :
  Filepath.IsAbs path = true -> exists t, path = String "/"%char t.
Proof.
  unfold Filepath.IsAbs. destruct path as [|a t]; [discriminate|].
  cbn [String.prefix]. destruct (ascii_dec "/"%char a) as [<-|].
  - eauto.
  - discriminate.
Qed.

Lemma prefix_slash (t : string) : String.prefix "/" (String "/"%char t) = true.
Proof.
  cbn [String.prefix]. destruct (ascii_dec "/"%char "/"%char) as [_|Hne].
  - destruct t; reflexivity.
  - congruence.
Qed.

Lemma Clean_rooted (path : string) :
  Filepath.IsAbs path = true -> Filepath.IsAbs (Filepath.Clean path) = true.
Proof.
  intros H. destruct (IsAbs_inv _ H) as [t ->].
  unfold Filepath.Clean.
  change (String.eqb (String "/"%char t) "") with false.
  rewrite prefix_slash. cbv iota zeta.
  cbn [String.append String.eqb]. apply prefix_slash.
Qed.

Lemma Join_rooted (base p : string) :
  Filepath.IsAbs base = true ->
  Filepath.IsAbs (Filepath.Join [base; p]) = true.
Proof.
  intros H. destruct (IsAbs_inv _ H) as [t ->].
  unfold Filepath.Join.
  change (String.eqb (String "/"%char t) "") with false. cbv iota.
  apply Clean_rooted. apply prefix_slash.
Qed.

Lemma AbsFrom_IsAbs (os : OS) (base p : string) :
  Filepath.IsAbs base = true ->
  Filepath.IsAbs (AbsFrom os base p) = true.
Proof.
  intros H. unfold AbsFrom.
  destruct (Filepath.IsAbs p) eqn:Ep; [exact Ep|].
  unfold Filepath.Abs. rewrite (Join_rooted base p H). simpl.
  apply Clean_rooted. apply Join_rooted. exact H.
Qed.

(** X10.  Resolved against an absolute base, a path comes out of
    [AbsFrom] absolute, whether or not the working directory can be
    found; and resolving the result again changes nothing. *)
Theorem AbsFrom_absolute_and_stable (os : OS) (base p : string) :
  Filepath.IsAbs base = true ->
  Filepath.IsAbs (AbsFrom os base p) = true
  /\ AbsFrom os base (AbsFrom os base p) = AbsFrom os base p.
Proof.
  intros H. pose proof (AbsFrom_IsAbs os base p H) as Habs.
  split; [exact Habs|].
  unfold AbsFrom at 1. rewrite Habs. reflexivity.
Qed.

Lemma AbsFrom_absolute_and_stable_witness :
  Filepath.IsAbs (AbsFrom os_abz "/w" "../x/./models") = true
  /\ AbsFrom os_abz "/w" (AbsFrom os_abz "/w" "../x/./models")
     = AbsFrom os_abz "/w" "../x/./models".
Proof.
  apply AbsFrom_absolute_and_stable. reflexivity.
Defined.

(** X11.  When the working directory is known and absolute, the root,
    the target and the output path that [Dump] works with and prints in
    the header are absolute. *)
Theorem Dump_paths_are_absolute (os : OS) (c : Config) (wd : string) :
  Getwd os = Ok wd ->
  Filepath.IsAbs wd = true ->
  Filepath.IsAbs (rootAbsOf os c) = true
  /\ Filepath.IsAbs (targetAbsOf os c) = true
  /\ Filepath.IsAbs (outAbsOf os c) = true.
Proof.
  intros Hwd Habs.
  assert (Hg : getwd_ os = wd) by (unfold getwd_; rewrite Hwd; reflexivity).
  unfold outAbsOf, rootAbsOf, targetAbsOf. rewrite Hg.
  pose proof (AbsFrom_IsAbs os wd (Root c) Habs) as Hroot.
  split; [exact Hroot|].
  split; [apply AbsFrom_IsAbs; exact Habs|].
  apply AbsFrom_IsAbs. exact Hroot.
Qed.

Lemma Dump_paths_are_absolute_witness :
  Filepath.IsAbs (rootAbsOf os_vendor DefaultConfig) = true
  /\ Filepath.IsAbs (targetAbsOf os_vendor DefaultConfig) = true
  /\ Filepath.IsAbs (outAbsOf os_vendor DefaultConfig) = true.
Proof.
  apply (Dump_paths_are_absolute os_vendor DefaultConfig "/home/u/vendor/proj");
    reflexivity.
Defined.

(** ** The configuration file *)

Section RCFile.

Variable u : UnicodeTables.

Lemma rcLine_rcParse (c : Config) (ln : string) :
  rcLine u c ln
  = match rcParse u ln with
    | Some (k, v) =>
        if String.eqb k "root" then
          {| Root := v; Target := Target c; Out := Out c; Ext := Ext c;
             Include := Include c; Exclude := Exclude c; Pkg := Pkg c |}
        else if String.eqb k "target" then
          {| Root := Root c; Target := v; Out := Out c; Ext := Ext c;
             Include := Include c; Exclude := Exclude c; Pkg := Pkg c |}
        else if String.eqb k "out" then
          {| Root := Root c; Target := Target c; Out := v; Ext := Ext c;
             Include := Include c; Exclude := Exclude c; Pkg := Pkg c |}
        else if String.eqb k "ext" then
          {| Root := Root c; Target := Target c; Out := Out c; Ext := v;
             Include := Include c; Exclude := Exclude c; Pkg := Pkg c |}
        else if String.eqb k "exclude" then
          {| Root := Root c; Target := Target c; Out := Out c; Ext := Ext c;
             Include := Include c; Exclude := v; Pkg := Pkg c |}
        else if String.eqb k "include" then
          {| Root := Root c; Target := Target c; Out := Out c; Ext := Ext c;
             Include := v; Exclude := Exclude c; Pkg := Pkg c |}
        else if String.eqb k "pkg" then
          {| Root := Root c; Target := Target c; Out := Out c; Ext := Ext c;
             Include := Include c; Exclude := Exclude c; Pkg := rcBool u v |}
        else c
    | None => c
    end.
Proof.
  unfold rcLine, rcParse, strings_SplitN2.
  destruct (String.eqb (Strings.TrimSpace ln) ""
            || String.prefix "#" (Strings.TrimSpace ln)); [reflexivity|].
  destruct (cutAt (Strings.TrimSpace ln) "="%char) as [[k0 v0]|];
    reflexivity.
Qed.

Ltac field_cases :=
  unfold fieldOf; intros c ln; rewrite rcLine_rcParse;
  destruct (rcParse u ln) as [[k v]|]; [|reflexivity];
  repeat match goal with
    | |- context [String.eqb k ?lit] =>
        destruct (String.eqb_spec k lit); [subst k; reflexivity|]
    end;
  reflexivity.

Lemma fieldOf_Root : fieldOf u Root "root" (fun v => v).
Proof. field_cases. Qed.

Lemma fieldOf_Target : fieldOf u Target "target" (fun v => v).
Proof. field_cases. Qed.

Lemma fieldOf_Out : fieldOf u Out "out" (fun v => v).
Proof. field_cases. Qed.

Lemma fieldOf_Ext : fieldOf u Ext "ext" (fun v => v).
Proof. field_cases. Qed.

Lemma fieldOf_Exclude : fieldOf u Exclude "exclude" (fun v => v).
Proof. field_cases. Qed.

Lemma fieldOf_Include : fieldOf u Include "include" (fun v => v).
Proof. field_cases. Qed.

Lemma fieldOf_Pkg : fieldOf u Pkg "pkg" (rcBool u).
Proof. field_cases. Qed.

Lemma lastValue_previous (key : string) (lines : list string)
    (previous : option string) :
  lastValue u key lines previous
  = match lastValue u key lines None with
    | Some v => Some v
    | None => previous
    end.
Proof.
  revert previous. induction lines as [|ln rest IH]; intros previous; simpl.
  - reflexivity.
  - rewrite IH. symmetry. rewrite IH.
    destruct (lastValue u key rest None); [reflexivity|].
    destruct (rcParse u ln) as [[k v]|]; [|reflexivity].
    destruct (String.eqb k key); reflexivity.
Qed.

Lemma fold_rcLine_field {A : Type} (proj : Config -> A) (key : string)
    (conv : string -> A) :
  fieldOf u proj key conv ->
  forall lines c,
    proj (fold_left (rcLine u) lines c)
    = match lastValue u key lines None with
      | Some v => conv v
      | None => proj c
      end.
Proof.
  intros Hf. induction lines as [|ln rest IH]; intros c; simpl.
  - reflexivity.
  - rewrite IH, Hf. rewrite (lastValue_previous key rest (match rcParse u ln with
                                                           | Some (k, v) => if String.eqb k key then Some v else None
                                                           | None => None
                                                           end)).
    destruct (lastValue u key rest None); [reflexivity|].
    destruct (rcParse u ln) as [[k v]|]; [|reflexivity].
    destruct (String.eqb k key); reflexivity.
Qed.

Lemma ReadRC_fold (os : OS) (path : string) (c : Config) :
  fst (ReadRC u os path c) = fold_left (rcLine u) (rcLines os path) c.
Proof.
  unfold ReadRC, rcLines. destruct (ReadFile os path); reflexivity.
Qed.

Lemma Config_ext (c1 c2 : Config) :
  Root c1 = Root c2 -> Target c1 = Target c2 -> Out c1 = Out c2 ->
  Ext c1 = Ext c2 -> Include c1 = Include c2 -> Exclude c1 = Exclude c2 ->
  Pkg c1 = Pkg c2 -> c1 = c2.
Proof.
  destruct c1, c2; simpl; intros; subst; reflexivity.
Qed.

(** X12.  For each of the seven keys the last line of the file that
    assigns it decides the field, whatever stands before it; a field
    whose key the file does not assign keeps the value it had; and so
    reading the same file a second time changes nothing. *)
Theorem ReadRC_last_assignment_wins (os : OS) (path : string) (c : Config) :
  let c' := fst (ReadRC u os path c) in
  let last key := lastValue u key (rcLines os path) None in
  Root c' = orElse (last "root") (Root c)
  /\ Target c' = orElse (last "target") (Target c)
  /\ Out c' = orElse (last "out") (Out c)
  /\ Ext c' = orElse (last "ext") (Ext c)
  /\ Exclude c' = orElse (last "exclude") (Exclude c)
  /\ Include c' = orElse (last "include") (Include c)
  /\ Pkg c' = match last "pkg" with
              | Some v => rcBool u v
              | None => Pkg c
              end
  /\ fst (ReadRC u os path c') = c'.
Proof.
  cbv zeta. rewrite !ReadRC_fold.
  pose proof (fold_rcLine_field _ _ _ fieldOf_Root (rcLines os path)) as HR.
  pose proof (fold_rcLine_field _ _ _ fieldOf_Target (rcLines os path)) as HT.
  pose proof (fold_rcLine_field _ _ _ fieldOf_Out (rcLines os path)) as HO.
  pose proof (fold_rcLine_field _ _ _ fieldOf_Ext (rcLines os path)) as HE.
  pose proof (fold_rcLine_field _ _ _ fieldOf_Exclude (rcLines os path)) as HX.
  pose proof (fold_rcLine_field _ _ _ fieldOf_Include (rcLines os path)) as HI.
  pose proof (fold_rcLine_field _ _ _ fieldOf_Pkg (rcLines os path)) as HP.
  unfold orElse.
  repeat split; try (rewrite ?HR, ?HT, ?HO, ?HE, ?HX, ?HI, ?HP; reflexivity).
  apply Config_ext;
    rewrite ?HR, ?HT, ?HO, ?HE, ?HX, ?HI, ?HP;
    rewrite ?HR, ?HT, ?HO, ?HE, ?HX, ?HI, ?HP;
    match goal with
    | |- context [lastValue u ?k ?l None] =>
        destruct (lastValue u k l None); reflexivity
    end.
Qed.

Lemma cutAt_None (s : string) (sep : ascii) :
  ~ In sep (list_ascii_of_string s) -> cutAt s sep = None.
Proof.
  induction s as [|ch t IH]; simpl; intros H; [reflexivity|].
  destruct (Ascii.eqb_spec ch sep) as [->|Hne].
  - exfalso. apply H. left. reflexivity.
  - rewrite IH; [reflexivity|]. intros Hin. apply H. right. exact Hin.
Qed.

(** X13.  A file of which every line is, once its white space is cut,
    empty, a comment that begins with [#], or without an equals sign,
    leaves the configuration as it was, and [ReadRC] reports no error. *)
Theorem ReadRC_ignores_comments_and_blanks
    (os : OS) (path : string) (c : Config) (b : list byte) :
  ReadFile os path = Ok b ->
  Forall (fun ln =>
            Strings.TrimSpace ln = ""
            \/ String.prefix "#" (Strings.TrimSpace ln) = true
            \/ ~ In "="%char (list_ascii_of_string (Strings.TrimSpace ln)))
         (Strings.Split (string_of_list_byte b) (ascii_of_nat 10)) ->
  ReadRC u os path c = (c, None).
Proof.
  intros Hrd Hall. unfold ReadRC. rewrite Hrd. f_equal.
  induction Hall as [|ln rest Hln _ IH]; simpl; [reflexivity|].
  assert (Hskip : rcLine u c ln = c).
  { unfold rcLine, strings_SplitN2. destruct Hln as [H | [H | H]].
    - rewrite H. reflexivity.
    - rewrite H, orb_true_r. reflexivity.
    - rewrite (cutAt_None _ _ H).
      destruct (String.eqb (Strings.TrimSpace ln) ""
                || String.prefix "#" (Strings.TrimSpace ln)); reflexivity. }
  rewrite Hskip. exact IH.
Qed.

End RCFile.

Lemma ReadRC_ignores_comments_and_blanks_witness :
  ReadRC noTables
    (os_rc ("# codedump" ++ nl ++ nl ++ "   " ++ nl ++ "no assignment here"))
    ".codedumprc" (cfgHere "dump.txt" ".rs")
  = (cfgHere "dump.txt" ".rs", None).
Proof.
  apply (ReadRC_ignores_comments_and_blanks noTables _ _ _
           (list_byte_of_string
              ("# codedump" ++ nl ++ nl ++ "   " ++ nl ++ "no assignment here")));
    [reflexivity|].
  vm_compute.
  repeat (constructor;
          [first [left; reflexivity
                 | right; left; reflexivity
                 | right; right; simpl; intuition discriminate]|]).
  constructor.
Defined.

(** X14.  What [WriteDefaultRC] writes reads back as the defaults: when
    the file at [path] holds the bytes of the write that
    [WriteDefaultRC] issues, [ReadRC] turns any configuration into
    [DefaultConfig], without error. *)
Theorem ReadRC_of_default_file_is_DefaultConfig
    (u : UnicodeTables) (os0 os : OS) (path0 path : string)
    (content : list byte) (c : Config) :
  In (OpWriteFile path0 content) (fst (WriteDefaultRC os0 path0)) ->
  ReadFile os path = Ok content ->
  ReadRC u os path c = (DefaultConfig, None).
Proof.
  intros Hw Hrd.
  assert (Hc : content = list_byte_of_string defaultRCContent).
  { unfold WriteDefaultRC in Hw.
    destruct (WriteFile os0 path0 (list_byte_of_string defaultRCContent));
      simpl in Hw; destruct Hw as [Hw|[]]; inversion Hw; reflexivity. }
  subst content. unfold ReadRC. rewrite Hrd.
  rewrite string_of_list_byte_of_string.
  destruct c. vm_compute. reflexivity.
Qed.

Lemma ReadRC_of_default_file_is_DefaultConfig_witness :
  ReadRC noTables (os_rc defaultRCContent) ".codedumprc"
    (cfgHere "dump.txt" ".rs")
  = (DefaultConfig, None).
Proof.
  apply (ReadRC_of_default_file_is_DefaultConfig noTables
           (os_rc "") (os_rc defaultRCContent) ".codedumprc" ".codedumprc"
           (list_byte_of_string defaultRCContent));
    [left; reflexivity | reflexivity].
Defined.

(** ** The value of [pkg] *)

Lemma isASCIIchar_In (a : ascii) : isASCIIchar a = true -> In a asciiChars.
Proof.
  unfold isASCIIchar, asciiChars. intros H. apply Nat.ltb_lt in H.
  rewrite <- (ascii_nat_embedding a). apply in_map. apply in_seq. lia.
Qed.

Lemma foldStep_table :
  forallb (fun a =>
             forallb (fun b =>
                        Bool.eqb (foldStep a b)
                          (Ascii.eqb (lowerASCII a) (lowerASCII b)))
               asciiChars)
    asciiChars = true.
Proof. vm_compute. reflexivity. Qed.

Lemma foldStep_lower (a b : ascii) :
  isASCIIchar a = true -> isASCIIchar b = true ->
  foldStep a b = Ascii.eqb (lowerASCII a) (lowerASCII b).
Proof.
  intros Ha Hb. pose proof foldStep_table as H.
  rewrite forallb_forall in H. specialize (H a (isASCIIchar_In a Ha)).
  rewrite forallb_forall in H. specialize (H b (isASCIIchar_In b Hb)).
  apply Bool.eqb_prop in H. exact H.
Qed.

Lemma EqualFold_ASCII (u : UnicodeTables) (s : string) :
  forall t,
    isASCII s = true -> isASCII t = true ->
    strings_EqualFold u s t
    = String.eqb (mapLowerASCII s) (mapLowerASCII t).
Proof.
  induction s as [|sr s IH]; intros [|tr t] Hs Ht; try reflexivity.
  simpl in Hs, Ht.
  apply andb_true_iff in Hs. destruct Hs as [Hsr Hs].
  apply andb_true_iff in Ht. destruct Ht as [Htr Ht].
  cbn [strings_EqualFold mapLowerASCII String.eqb].
  rewrite Hsr, Htr. cbn [negb orb].
  rewrite <- (foldStep_lower sr tr Hsr Htr). unfold foldStep.
  destruct (Ascii.eqb tr sr); cbn [orb andb]; [apply IH; assumption|].
  cbv zeta.
  match goal with
  | |- (if ?b then _ else _) = _ => destruct b
  end; [apply IH; assumption | reflexivity].
Qed.

(** X15.  For an ASCII value, [pkg] is read as true exactly when the
    value is [true] or [yes] in any mix of upper and lower case, or is
    [1]; every other ASCII value reads as false. *)
Theorem rcBool_accepts_true_yes_1 (u : UnicodeTables) (v : string) :
  isASCII v = true ->
  rcBool u v
  = (String.eqb (mapLowerASCII v) "true" || String.eqb v "1"
     || String.eqb (mapLowerASCII v) "yes").
Proof.
  intros Hv. unfold rcBool.
  rewrite (EqualFold_ASCII u v "true" Hv eq_refl).
  rewrite (EqualFold_ASCII u v "yes" Hv eq_refl).
  reflexivity.
Qed.

Lemma rcBool_accepts_true_yes_1_witness :
  rcBool noTables "YeS" = true /\ rcBool noTables "on" = false.
Proof.
  rewrite (rcBool_accepts_true_yes_1 noTables "YeS" eq_refl).
  rewrite (rcBool_accepts_true_yes_1 noTables "on" eq_refl).
  split; reflexivity.
Defined.

(** ** The length of a cleaned path *)

Lemma weight_app (l1 l2 : list string) :
  weight (l1 ++ l2) = (weight l1 + weight l2)%nat.
Proof.
  induction l1 as [|e l1 IH]; simpl; [reflexivity | rewrite IH; lia].
Qed.

Lemma weight_rev (l : list string) : weight (rev l) = weight l.
Proof.
  induction l as [|e l IH]; simpl; [reflexivity|].
  rewrite weight_app, IH. simpl. lia.
Qed.

Lemma Strings_Split_weight (s : string) (sep : ascii) :
  weight (Strings.Split s sep) = (String.length s + 1)%nat.
Proof.
  induction s as [|ch t IH]; simpl; [reflexivity|].
  destruct (Ascii.eqb ch sep); simpl; [rewrite IH; lia|].
  destruct (Strings.Split t sep) as [|l ls]; simpl in *; lia.
Qed.

Lemma cleanStep_weight (rooted : bool) (stack : list string) (e : string) :
  (weight (Filepath.cleanStep rooted stack e)
   <= weight stack + String.length e + 1)%nat.
Proof.
  unfold Filepath.cleanStep.
  destruct (String.eqb e "" || String.eqb e "."); [lia|].
  destruct (String.eqb_spec e "..") as [->|_]; [|simpl; lia].
  destruct stack as [|top rest].
  - destruct rooted; simpl; lia.
  - destruct (String.eqb top ".."); simpl; lia.
Qed.

Lemma fold_cleanStep_weight (rooted : bool) (els stack : list string) :
  (weight (fold_left (Filepath.cleanStep rooted) els stack)
   <= weight stack + weight els)%nat.
Proof.
  revert stack. induction els as [|e els IH]; intros stack; simpl; [lia|].
  specialize (IH (Filepath.cleanStep rooted stack e)).
  pose proof (cleanStep_weight rooted stack e). lia.
Qed.

Lemma concat_slash_length (l : list string) :
  l <> [] -> (String.length (String.concat "/" l) + 1 = weight l)%nat.
Proof.
  induction l as [|x l IH]; intros Hne; [congruence|].
  destruct l as [|y l]; simpl; [lia|].
  rewrite !length_append. simpl String.length.
  specialize (IH ltac:(discriminate)). simpl in IH. lia.
Qed.

Lemma concat_slash_length_le (l : list string) :
  (String.length (String.concat "/" l) <= weight l)%nat.
Proof.
  destruct l as [|x l]; [simpl; lia|].
  pose proof (concat_slash_length (x :: l) ltac:(discriminate)). lia.
Qed.

Lemma Clean_length (q : string) :
  q <> "" -> (String.length (Filepath.Clean q) <= String.length q)%nat.
Proof.
  intros Hne. unfold Filepath.Clean.
  apply String.eqb_neq in Hne. rewrite Hne.
  destruct q as [|ch t]; [discriminate|].
  destruct (Ascii.eqb_spec ch "/"%char) as [->|Hch].
  - rewrite prefix_slash. cbv zeta.
    cbn [Strings.Split]. unfold Filepath.Separator. rewrite Ascii.eqb_refl.
    cbn [fold_left]. change (Filepath.cleanStep true [] "") with (@nil string).
    cbn [String.append String.eqb].
    set (stack := fold_left (Filepath.cleanStep true)
                    (Strings.Split t "/"%char) []).
    pose proof (fold_cleanStep_weight true (Strings.Split t "/"%char) []) as Hw.
    fold stack in Hw. rewrite Strings_Split_weight in Hw. simpl in Hw.
    destruct (rev stack) as [|x l] eqn:Er.
    + simpl. lia.
    + pose proof (concat_slash_length (x :: l) ltac:(discriminate)) as Hc.
      rewrite <- Er, weight_rev in Hc. rewrite <- Er.
      cbn [String.length]. lia.
  - assert (Hroot : String.prefix "/" (String ch t) = false).
    { cbn [String.prefix]. destruct (ascii_dec "/"%char ch) as [<-|];
        [congruence | reflexivity]. }
    rewrite Hroot. cbv zeta.
    set (stack := fold_left (Filepath.cleanStep false)
                    (Strings.Split (String ch t) Filepath.Separator) []).
    pose proof (fold_cleanStep_weight false
                  (Strings.Split (String ch t) Filepath.Separator) []) as Hw.
    fold stack in Hw. rewrite Strings_Split_weight in Hw. simpl weight in Hw.
    destruct (String.eqb (String.concat "/" (rev stack)) "") eqn:Eout.
    + simpl. lia.
    + destruct (rev stack) as [|x l] eqn:Er; [discriminate|].
      pose proof (concat_slash_length (x :: l) ltac:(discriminate)) as Hc.
      rewrite <- Er, weight_rev in Hc. rewrite <- Er. lia.
Qed.

(** ** Where a cleaned path ends *)

Lemma append_assoc (a b c : string) :
  String.append (String.append a b) c = String.append a (String.append b c).
Proof.
  induction a as [|ch a IH]; simpl; [reflexivity | rewrite IH; reflexivity].
Qed.

Lemma string_last (e : string) :
  e <> "" -> exists pre ch, e = String.append pre (String ch "").
Proof.
  induction e as [|a e IH]; intros Hne; [congruence|].
  destruct e as [|b e].
  - exists "", a. reflexivity.
  - destruct (IH ltac:(discriminate)) as [pre [ch Hpre]].
    exists (String a pre), ch. simpl. rewrite <- Hpre. reflexivity.
Qed.

Lemma keptElement_last (e : string) :
  keptElement e ->
  exists pre ch, e = String.append pre (String ch "") /\ ch <> "/"%char.
Proof.
  intros [Hne Hsep]. destruct (string_last e Hne) as [pre [ch Hpre]].
  exists pre, ch. split; [exact Hpre|].
  intros ->. apply Hsep. rewrite Hpre, list_ascii_of_string_append.
  apply in_or_app. right. left. reflexivity.
Qed.

Lemma cleanStep_kept (rooted : bool) (stack : list string) (e : string) :
  ~ In "/"%char (list_ascii_of_string e) ->
  Forall keptElement stack ->
  Forall keptElement (Filepath.cleanStep rooted stack e).
Proof.
  intros He Hst. unfold Filepath.cleanStep.
  destruct (String.eqb_spec e "") as [->|Hne]; [exact Hst|].
  cbn [orb]. destruct (String.eqb e "."); [exact Hst|].
  assert (Hdd : keptElement "..").
  { split; [discriminate|]. simpl. intuition discriminate. }
  destruct (String.eqb e "..").
  - destruct stack as [|top rest].
    + destruct rooted; [constructor | constructor; [exact Hdd | constructor]].
    + destruct (String.eqb top "..").
      * constructor; [exact Hdd | exact Hst].
      * inversion Hst; assumption.
  - constructor; [split; assumption | exact Hst].
Qed.

Lemma fold_cleanStep_kept (rooted : bool) (els stack : list string) :
  Forall (fun e => ~ In "/"%char (list_ascii_of_string e)) els ->
  Forall keptElement stack ->
  Forall keptElement (fold_left (Filepath.cleanStep rooted) els stack).
Proof.
  intros Hels. revert stack.
  induction Hels as [|e els He _ IH]; intros stack Hst; simpl; [exact Hst|].
  apply IH. apply cleanStep_kept; assumption.
Qed.

Lemma concat_snoc (sep : string) (l : list string) (e : string) :
  exists x, String.concat sep (l ++ [e]) = String.append x e.
Proof.
  induction l as [|a l IH]; simpl.
  - exists "". reflexivity.
  - destruct IH as [x Hx].
    destruct (l ++ [e]) as [|b l'] eqn:E.
    + destruct l; discriminate.
    + exists (String.append a (String.append sep x)).
      rewrite Hx, !append_assoc. reflexivity.
Qed.

Lemma append_snoc_nonempty (x : string) (ch : ascii) :
  String.eqb (String.append x (String ch "")) "" = false.
Proof.
  destruct x; reflexivity.
Qed.

Lemma Clean_cleanEnded (q : string) : cleanEnded (Filepath.Clean q).
Proof.
  unfold Filepath.Clean.
  destruct (String.eqb q "").
  { right. exists "", "."%char. split; [reflexivity | discriminate]. }
  set (rooted := String.prefix "/" q).
  set (stack := fold_left (Filepath.cleanStep rooted)
                  (Strings.Split q Filepath.Separator) []).
  assert (Hkept : Forall keptElement stack).
  { apply fold_cleanStep_kept; [apply Strings_Split_no_sep | constructor]. }
  cbv zeta. destruct stack as [|top rest] eqn:Est.
  - simpl rev. simpl String.concat. destruct rooted; simpl.
    + left. reflexivity.
    + right. exists "", "."%char. split; [reflexivity | discriminate].
  - inversion Hkept as [|? ? Htop _]; subst.
    destruct (keptElement_last top Htop) as [pre [ch [Htop' Hch]]].
    simpl rev. destruct (concat_snoc "/" (rev rest) top) as [x Hx].
    rewrite Hx, Htop', <- append_assoc.
    right. destruct rooted.
    + cbn [String.append String.eqb].
      exists (String "/"%char (String.append x pre)), ch.
      split; [|exact Hch].
      cbn [String.append]. rewrite ?append_assoc. reflexivity.
    + rewrite <- (append_assoc x pre (String ch "")), append_snoc_nonempty.
      exists (String.append x pre), ch. auto.
Qed.

(** ** The parent of a directory *)

Lemma length_list_ascii_of_string (s : string) :
  List.length (list_ascii_of_string s) = String.length s.
Proof.
  induction s as [|ch s IH]; simpl; [reflexivity | rewrite IH; reflexivity].
Qed.

Lemma length_string_of_list_ascii (l : list ascii) :
  String.length (string_of_list_ascii l) = List.length l.
Proof.
  induction l as [|ch l IH]; simpl; [reflexivity | rewrite IH; reflexivity].
Qed.

Lemma dropLastElementRev_length (r : list ascii) :
  (List.length (Filepath.dropLastElementRev r) <= List.length r)%nat.
Proof.
  induction r as [|ch r IH]; simpl; [lia|].
  destruct (Filepath.IsPathSeparator ch); simpl; lia.
Qed.

Lemma Clean_length_or_dot (q : string) :
  Filepath.Clean q = "." \/
  (String.length (Filepath.Clean q) <= String.length q)%nat.
Proof.
  destruct (String.eqb_spec q "") as [->|Hne].
  - left. reflexivity.
  - right. apply Clean_length. exact Hne.
Qed.

Lemma Dir_length (s : string) :
  Filepath.Dir s = "." \/
  (String.length (Filepath.Dir s) <= String.length s)%nat.
Proof.
  unfold Filepath.Dir.
  set (q := string_of_list_ascii
              (rev (Filepath.dropLastElementRev (rev (list_ascii_of_string s))))).
  assert (Hq : (String.length q <= String.length s)%nat).
  { unfold q. rewrite length_string_of_list_ascii, length_rev.
    pose proof (dropLastElementRev_length (rev (list_ascii_of_string s))) as H.
    rewrite length_rev, length_list_ascii_of_string in H. exact H. }
  destruct (Clean_length_or_dot q) as [H|H]; [left; exact H | right; lia].
Qed.

Lemma Dir_of_cleanEnded (s : string) :
  cleanEnded s ->
  Filepath.Dir s = s \/ Filepath.Dir s = "." \/
  (String.length (Filepath.Dir s) < String.length s)%nat.
Proof.
  intros [-> | [pre [ch [-> Hch]]]].
  - left. reflexivity.
  - right. unfold Filepath.Dir.
    rewrite list_ascii_of_string_append, rev_app_distr. simpl rev.
    simpl app. cbn [Filepath.dropLastElementRev].
    assert (Hsep : Filepath.IsPathSeparator ch = false).
    { unfold Filepath.IsPathSeparator, Filepath.Separator.
      apply Ascii.eqb_neq. exact Hch. }
    rewrite Hsep.
    set (q := string_of_list_ascii
                (rev (Filepath.dropLastElementRev
                        (rev (list_ascii_of_string pre))))).
    assert (Hq : (String.length q <= String.length pre)%nat).
    { unfold q. rewrite length_string_of_list_ascii, length_rev.
      pose proof (dropLastElementRev_length (rev (list_ascii_of_string pre)))
        as H.
      rewrite length_rev, length_list_ascii_of_string in H. exact H. }
    rewrite length_append. simpl String.length.
    destruct (Clean_length_or_dot q) as [H|H]; [left; exact H | right; lia].
Qed.

Lemma Dir_cleanEnded (s : string) : cleanEnded (Filepath.Dir s).
Proof. unfold Filepath.Dir. apply Clean_cleanEnded. Qed.

(** ** The search ends *)

Lemma chainComplete_fixed (n : nat) (cur : string) :
  Filepath.Dir cur = cur -> chainComplete (S n) cur.
Proof.
  intros H. unfold chainComplete. simpl.
  apply String.eqb_eq in H. rewrite H. simpl.
  apply String.eqb_eq. exact H.
Qed.

Lemma chainComplete_step (n : nat) (cur : string) :
  chainComplete (S n) (Filepath.Dir cur) -> chainComplete (S (S n)) cur.
Proof.
  intros H. destruct (String.eqb_spec (Filepath.Dir cur) cur) as [Heq|Hne].
  - apply chainComplete_fixed. exact Heq.
  - unfold chainComplete in *.
    change (dirChain (S (S n)) cur)
      with (cur :: (if String.eqb (Filepath.Dir cur) cur then []
                    else dirChain (S n) (Filepath.Dir cur))).
    apply String.eqb_neq in Hne. rewrite Hne.
    change (dirChain (S n) (Filepath.Dir cur))
      with (Filepath.Dir cur
            :: (if String.eqb (Filepath.Dir (Filepath.Dir cur)) (Filepath.Dir cur)
                then [] else dirChain n (Filepath.Dir (Filepath.Dir cur)))) in *.
    exact H.
Qed.

Lemma chainComplete_cleanEnded (n : nat) :
  forall cur, cleanEnded cur -> (String.length cur <= n)%nat ->
    chainComplete (S n) cur.
Proof.
  induction n as [|n IH]; intros cur Hc Hlen.
  - destruct Hc as [-> | [pre [ch [-> _]]]].
    + simpl in Hlen. lia.
    + rewrite length_append in Hlen. simpl in Hlen. lia.
  - destruct (Dir_of_cleanEnded cur Hc) as [Hfix | [Hdot | Hlt]].
    + apply chainComplete_fixed. exact Hfix.
    + apply chainComplete_step. rewrite Hdot.
      apply chainComplete_fixed. reflexivity.
    + apply chainComplete_step. apply IH; [apply Dir_cleanEnded | lia].
Qed.

Lemma chainComplete_any (cur : string) :
  chainComplete (String.length cur + 3) cur.
Proof.
  replace (String.length cur + 3)%nat with (S (S (S (String.length cur))))
    by lia.
  apply chainComplete_step.
  destruct (Dir_length cur) as [Hdot | Hle].
  - rewrite Hdot. apply chainComplete_fixed. reflexivity.
  - destruct (String.eqb_spec (Filepath.Dir cur) ".") as [Hdot | _].
    + rewrite Hdot. apply chainComplete_fixed. reflexivity.
    + destruct (Nat.eq_dec (String.length cur) 0) as [Hz | Hnz].
      * destruct cur; [|discriminate].
        apply chainComplete_fixed. reflexivity.
      * apply chainComplete_step.
        destruct (Dir_of_cleanEnded _ (Dir_cleanEnded cur))
          as [Hfix | [Hdot | Hlt]].
        -- rewrite Hfix. apply chainComplete_cleanEnded;
             [apply Dir_cleanEnded | lia].
        -- rewrite Hdot.
           destruct (String.length cur) as [|k] eqn:Ek; [lia|].
           apply chainComplete_fixed. reflexivity.
        -- destruct (String.length cur) as [|k] eqn:Ek; [lia|].
           apply chainComplete_cleanEnded; [apply Dir_cleanEnded | lia].
Qed.

Lemma findUp_firstRC (os : OS) (n : nat) (cur : string) :
  chainComplete n cur ->
  findUp os n cur =
  match firstRC os (dirChain n cur) with
  | Some rc => Found rc
  | None => NotFound
  end.
Proof.
  revert cur. induction n as [|n IH]; intros cur Hc.
  - unfold chainComplete in Hc. cbn in Hc. discriminate.
  - cbn [findUp dirChain firstRC].
    destruct (Stat os (Filepath.Join [cur; DefaultRCName])); [reflexivity|].
    destruct (String.eqb_spec (Filepath.Dir cur) cur) as [Heq | Hne].
    + reflexivity.
    + apply IH. unfold chainComplete in *. cbn [dirChain] in Hc.
      destruct (String.eqb_spec (Filepath.Dir cur) cur) as [Heq | _];
        [contradiction|].
      destruct (dirChain n (Filepath.Dir cur)) as [|d l] eqn:Hl.
      * cbn in Hc. contradiction.
      * exact Hc.
Qed.

Lemma findUp_terminates (os : OS) (cur : string) :
  findUp os (String.length cur + 3) cur <> OutOfFuel.
Proof.
  rewrite (findUp_firstRC os _ cur (chainComplete_any cur)).
  destruct (firstRC os _); discriminate.
Qed.

Lemma firstRC_found (os : OS) (dirs : list string) (rc : string) :
  firstRC os dirs = Some rc ->
  exists before d after,
    dirs = before ++ d :: after /\
    rc = Filepath.Join [d; DefaultRCName] /\
    (exists sz, Stat os rc = Ok sz) /\
    Forall (fun d' => exists m,
              Stat os (Filepath.Join [d'; DefaultRCName]) = Failed m) before.
Proof.
  induction dirs as [|d rest IH]; intros H; [discriminate|].
  cbn [firstRC] in H.
  destruct (Stat os (Filepath.Join [d; DefaultRCName])) as [sz | m] eqn:Hst.
  - injection H as <-. exists [], d, rest. repeat split.
    + exists sz. exact Hst.
    + constructor.
  - destruct (IH H) as (before & d' & after & -> & Hrc & Hok & Hall).
    exists (d :: before), d', after. repeat split; try assumption.
    constructor; [exists m; exact Hst | exact Hall].
Qed.

Lemma firstRC_none (os : OS) (dirs : list string) :
  firstRC os dirs = None ->
  Forall (fun d' => exists m,
            Stat os (Filepath.Join [d'; DefaultRCName]) = Failed m) dirs.
Proof.
  induction dirs as [|d rest IH]; intros H; [constructor|].
  cbn [firstRC] in H.
  destruct (Stat os (Filepath.Join [d; DefaultRCName])) as [sz | m] eqn:Hst;
    [discriminate|].
  constructor; [exists m; exact Hst | exact (IH H)].
Qed.

Lemma FindRC_firstRC (os : OS) (home : result string) :
  FindRC os home =
  match firstRC os (dirChain (String.length (getwd_ os) + 3) (getwd_ os)) with
  | Some rc => rc
  | None => homeRC os home
  end.
Proof.
  unfold FindRC.
  rewrite (findUp_firstRC os _ _ (chainComplete_any (getwd_ os))).
  destruct (firstRC os _); reflexivity.
Qed.

Lemma Join_DefaultRCName_nonempty (d : string) :
  Filepath.Join [d; DefaultRCName] <> "".
Proof.
  assert (H : cleanEnded (Filepath.Join [d; DefaultRCName])).
  { cbn [Filepath.Join]. destruct (String.eqb d "").
    - change (String.eqb DefaultRCName "") with false. cbv iota.
      apply Clean_cleanEnded.
    - apply Clean_cleanEnded. }
  destruct H as [H | (pre & ch & H & _)]; rewrite H.
  - discriminate.
  - destruct pre; discriminate.
Qed.

(** X16.  [FindRC] walks from the working directory up through its
    parents and returns the configuration file of the first directory
    that has one; the walk always reaches a directory that is its own
    parent, so the search ends whatever the working directory is.  Only
    when no directory of the walk has the file does it look in the home
    directory. *)
Theorem FindRC_nearest_ancestor_then_home (os : OS) (home : result string) :
  let dirs := dirChain (String.length (getwd_ os) + 3) (getwd_ os) in
  let missing d :=
    exists m, Stat os (Filepath.Join [d; DefaultRCName]) = Failed m in
  hd_error dirs = Some (getwd_ os)
  /\ Filepath.Dir (last dirs "") = last dirs ""
  /\ ((exists before d after sz,
          dirs = before ++ d :: after
          /\ Forall missing before
          /\ Stat os (Filepath.Join [d; DefaultRCName]) = Ok sz
          /\ FindRC os home = Filepath.Join [d; DefaultRCName])
      \/ (Forall missing dirs /\ FindRC os home = homeRC os home)).
Proof.
  cbv zeta. split; [|split].
  - replace (String.length (getwd_ os) + 3)%nat
      with (S (String.length (getwd_ os) + 2)) by lia.
    reflexivity.
  - exact (chainComplete_any (getwd_ os)).
  - rewrite FindRC_firstRC.
    destruct (firstRC os _) as [rc|] eqn:Hf.
    + left. destruct (firstRC_found _ _ _ Hf)
        as (before & d & after & Hd & Hrc & (sz & Hsz) & Hall).
      exists before, d, after, sz. subst rc. repeat split; assumption.
    + right. split; [exact (firstRC_none _ _ Hf) | reflexivity].
Qed.

(** X17.  What [FindRC] returns is a file that [os.Stat] found, or the
    empty string; and it is the empty string only when neither a
    directory of the walk nor the home directory has the file. *)
Theorem FindRC_returns_found_file_or_nothing (os : OS) (home : result string) :
  ((exists sz, Stat os (FindRC os home) = Ok sz) \/ FindRC os home = "")
  /\ (FindRC os home = "" ->
      Forall (fun d => exists m,
                Stat os (Filepath.Join [d; DefaultRCName]) = Failed m)
             (dirChain (String.length (getwd_ os) + 3) (getwd_ os))
      /\ forall h, home = Ok h ->
           exists m, Stat os (Filepath.Join [h; DefaultRCName]) = Failed m).
Proof.
  rewrite FindRC_firstRC.
  destruct (firstRC os _) as [rc|] eqn:Hf.
  - destruct (firstRC_found _ _ _ Hf)
      as (before & d & after & Hd & Hrc & Hok & Hall).
    split; [left; exact Hok|].
    intros He. subst rc. exfalso.
    exact (Join_DefaultRCName_nonempty d He).
  - unfold homeRC. destruct home as [h | m].
    + destruct (Stat os (Filepath.Join [h; DefaultRCName])) as [sz | m] eqn:Hst.
      * split; [left; exists sz; exact Hst|].
        intros He. exfalso. exact (Join_DefaultRCName_nonempty h He).
      * split; [right; reflexivity|]. intros _.
        split; [exact (firstRC_none _ _ Hf)|].
        intros h' Hh. injection Hh as <-. exists m. exact Hst.
    + split; [right; reflexivity|]. intros _.
      split; [exact (firstRC_none _ _ Hf)|]. intros h Hh. discriminate.
Qed.

(** ** The command *)

Lemma applyFlags_fields (f : Flags) (c : Config) :
  Root (applyFlags f c) = (if String.eqb (flRoot f) "" then Root c else flRoot f)
  /\ Target (applyFlags f c)
     = (if String.eqb (flTarget f) "" then Target c else flTarget f)
  /\ Out (applyFlags f c) = (if String.eqb (flOut f) "" then Out c else flOut f)
  /\ Ext (applyFlags f c) = (if String.eqb (flExt f) "" then Ext c else flExt f)
  /\ Include (applyFlags f c)
     = (if String.eqb (flInclude f) "" then Include c else flInclude f)
  /\ Exclude (applyFlags f c)
     = (if String.eqb (flExclude f) "" then Exclude c else flExclude f)
  /\ Pkg (applyFlags f c) = (flPkg f || Pkg c).
Proof.
  cbv beta delta [applyFlags].
  destruct (String.eqb (flRoot f) ""), (String.eqb (flTarget f) ""),
    (String.eqb (flOut f) ""), (String.eqb (flExt f) ""),
    (String.eqb (flInclude f) ""), (String.eqb (flExclude f) ""),
    (flPkg f);
    cbv beta iota zeta delta [negb];
    repeat split; reflexivity.
Qed.

Lemma main_reads_rc (u : UnicodeTables) (os : OS) (home : result string)
    (f : Flags) :
  (rcPathOf os home f = ""
   \/ exists b, ReadFile os (rcPathOf os home f) = Ok b) ->
  (if negb (String.eqb (rcPathOf os home f) "")
   then ReadRC u os (rcPathOf os home f) DefaultConfig
   else (DefaultConfig, None))
  = (fold_left (rcLine u) (mainRCLines os home f) DefaultConfig, None).
Proof.
  intros H. unfold mainRCLines.
  destruct (String.eqb_spec (rcPathOf os home f) "") as [He | Hne]; cbn [negb].
  - reflexivity.
  - destruct H as [H | (b & Hb)]; [contradiction|].
    unfold ReadRC, rcLines. rewrite Hb. reflexivity.
Qed.

Lemma main_after_rc (u : UnicodeTables) (quote : string -> string) (os : OS)
    (home : result string) (f : Flags) (c0 : Config) :
  flInit f = false ->
  (if negb (String.eqb (rcPathOf os home f) "")
   then ReadRC u os (rcPathOf os home f) DefaultConfig
   else (DefaultConfig, None)) = (c0, None) ->
  main u quote os home f =
  match Dump os (applyFlags f c0) with
  | (ops, (_, _, Some err)) => fatal ops (errorText err)
  | (ops, (outAbs, n, None)) =>
      {| runOps := ops;
         runStdout := "✅ codeDump complete! Generated " ++ quote outAbs
                      ++ " with " ++ fmt_d n ++ " files." ++ nl;
         runStderr := "";
         runExit := 0 |}
  end.
Proof.
  intros Hi Hrc. unfold main. rewrite Hi. cbv zeta. rewrite Hrc. reflexivity.
Qed.

(** X18.  A run without [-init] whose configuration file, if there is
    one, can be read, is one call of [Dump]: each textual setting is the
    flag when the flag is not empty, else the last assignment of the
    configuration file, else the default; [pkg] is on when the flag is
    given or the file turns it on.  The run changes the file system as
    that call does, and ends with status 0 and the summary on standard
    output, or with status 1 and the error of [Dump] on standard
    error. *)
Theorem main_flags_over_rc_over_defaults
    (u : UnicodeTables) (quote : string -> string) (os : OS)
    (home : result string) (f : Flags) :
  flInit f = false ->
  (rcPathOf os home f = ""
   \/ exists b, ReadFile os (rcPathOf os home f) = Ok b) ->
  let lines := mainRCLines os home f in
  let r := main u quote os home f in
  exists c,
    Root c = resolved u (flRoot f) "root" "." lines
    /\ Target c = resolved u (flTarget f) "target" "./models" lines
    /\ Out c = resolved u (flOut f) "out" "models_tree.txt" lines
    /\ Ext c = resolved u (flExt f) "ext" ".go" lines
    /\ Include c = resolved u (flInclude f) "include" "" lines
    /\ Exclude c
       = resolved u (flExclude f) "exclude" "_test.go,/.git/,/vendor/" lines
    /\ Pkg c = (flPkg f
                || match lastValue u "pkg" lines None with
                   | Some v => rcBool u v
                   | None => false
                   end)
    /\ runOps r = fst (Dump os c)
    /\ match snd (Dump os c) with
       | (outAbs, n, None) =>
           runExit r = 0%Z
           /\ runStdout r
              = ("✅ codeDump complete! Generated " ++ quote outAbs
                 ++ " with " ++ fmt_d n ++ " files." ++ nl)%string
           /\ runStderr r = ""
       | (_, _, Some err) =>
           runExit r = 1%Z
           /\ runStdout r = ""
           /\ runStderr r = ("❌ error: " ++ errorText err ++ nl)%string
       end.
Proof.
  intros Hi Hrc. cbv zeta.
  rewrite (main_after_rc u quote os home f _ Hi (main_reads_rc u os home f Hrc)).
  set (lines := mainRCLines os home f).
  exists (applyFlags f (fold_left (rcLine u) lines DefaultConfig)).
  destruct (applyFlags_fields f (fold_left (rcLine u) lines DefaultConfig))
    as (HR & HT & HO & HE & HI & HX & HP).
  rewrite HR, HT, HO, HE, HI, HX, HP.
  rewrite (fold_rcLine_field u _ _ _ (fieldOf_Root u) lines),
    (fold_rcLine_field u _ _ _ (fieldOf_Target u) lines),
    (fold_rcLine_field u _ _ _ (fieldOf_Out u) lines),
    (fold_rcLine_field u _ _ _ (fieldOf_Ext u) lines),
    (fold_rcLine_field u _ _ _ (fieldOf_Include u) lines),
    (fold_rcLine_field u _ _ _ (fieldOf_Exclude u) lines),
    (fold_rcLine_field u _ _ _ (fieldOf_Pkg u) lines).
  unfold resolved, orElse.
  repeat (split; [reflexivity|]).
  destruct (Dump os _) as [ops [[outAbs n] [err|]]]; cbn;
    repeat split; reflexivity.
Qed.

Lemma main_flags_over_rc_over_defaults_witness :
  exists c,
    Root c = "." /\ Target c = "./src" /\ Out c = "x.txt" /\ Ext c = ".rs"
    /\ Include c = "" /\ Exclude c = "_test.go,/.git/,/vendor/"
    /\ Pkg c = true
    /\ runOps (main noTables quoteASCII os_project (Ok "/home/u")
                 {| flInit := false; flRCPath := ""; flRoot := "";
                    flTarget := ""; flOut := "x.txt"; flExt := "";
                    flInclude := ""; flExclude := ""; flPkg := true |})
       = fst (Dump os_project c).
Proof.
  destruct (main_flags_over_rc_over_defaults noTables quoteASCII os_project
              (Ok "/home/u")
              {| flInit := false; flRCPath := ""; flRoot := "";
                 flTarget := ""; flOut := "x.txt"; flExt := "";
                 flInclude := ""; flExclude := ""; flPkg := true |}
              eq_refl
              (or_intror
                 (ex_intro _
                    (list_byte_of_string
                       ("target = ./src" ++ nl ++ "ext=.rs" ++ nl
                        ++ "out=all.txt" ++ nl))
                    eq_refl)))
    as (c & HR & HT & HO & HE & HI & HX & HP & Hops & _).
  exists c.
  rewrite HR, HT, HO, HE, HI, HX, HP.
  repeat (split; [vm_compute; reflexivity|]).
  exact Hops.
Defined.

(** X19.  A configuration file that cannot be read stops the run, be it
    the file of the flag [-rc] or the one that [FindRC] found: the run
    makes none of the calls that change the file system, neither
    [MkdirAll] nor [WriteFile], prints nothing on standard output,
    leaves with status 1, and standard error names the file and the
    error of the read.  The calls that only read, [os.Stat] in [FindRC]
    and [os.ReadFile] in [ReadRC], are made; [runOps] does not record
    them. *)
Theorem main_unreadable_rc_is_fatal
    (u : UnicodeTables) (quote : string -> string) (os : OS)
    (home : result string) (f : Flags) (m : string) :
  flInit f = false ->
  rcPathOf os home f <> "" ->
  ReadFile os (rcPathOf os home f) = Failed m ->
  main u quote os home f =
  {| runOps := [];
     runStdout := "";
     runStderr := "❌ error: error reading RC " ++ rcPathOf os home f
                  ++ ": " ++ m ++ nl;
     runExit := 1 |}.
Proof.
  intros Hi Hne Hrd. unfold main. rewrite Hi. cbv zeta.
  destruct (String.eqb_spec (rcPathOf os home f) "") as [He | _];
    [contradiction|].
  cbn [negb]. unfold ReadRC. rewrite Hrd. unfold fatal. f_equal.
  cbn [errorText String.append].
  rewrite !append_assoc. reflexivity.
Qed.

Lemma main_unreadable_rc_is_fatal_witness :
  main noTables quoteASCII os_project (Ok "/home/u")
    {| flInit := false; flRCPath := "/w/broken.rc"; flRoot := "";
       flTarget := ""; flOut := ""; flExt := ""; flInclude := "";
       flExclude := ""; flPkg := false |}
  = {| runOps := [];
       runStdout := "";
       runStderr := "❌ error: error reading RC /w/broken.rc: permission denied"
                    ++ nl;
       runExit := 1 |}.
Proof.
  apply (main_unreadable_rc_is_fatal noTables quoteASCII os_project
           (Ok "/home/u")
           {| flInit := false; flRCPath := "/w/broken.rc"; flRoot := "";
              flTarget := ""; flOut := ""; flExt := ""; flInclude := "";
              flExclude := ""; flPkg := false |} "permission denied").
  - reflexivity.
  - vm_compute. discriminate.
  - reflexivity.
Defined.

(** X20.  With [-init] the command writes the default configuration to
    [.codedumprc] in the working directory and does nothing else: the
    other flags and any configuration file play no part, nothing is
    scanned, and no dump is written.  The exit status is 0 when the
    write succeeds and 1, with the error on standard error, when it
    fails. *)
Theorem main_init_only_writes_default_rc
    (u : UnicodeTables) (quote : string -> string) (os : OS)
    (home : result string) (f : Flags) :
  flInit f = true ->
  let r := main u quote os home f in
  runOps r = [OpWriteFile ".codedumprc" (list_byte_of_string defaultRCContent)]
  /\ match WriteFile os ".codedumprc" (list_byte_of_string defaultRCContent) with
     | None =>
         runExit r = 0%Z
         /\ runStdout r
            = ("Created .codedumprc with defaults. Adjust root/target/out according to your project."
               ++ nl)%string
         /\ runStderr r = ""
     | Some m =>
         runExit r = 1%Z
         /\ runStdout r = ""
         /\ runStderr r = ("❌ error: " ++ m ++ nl)%string
     end.
Proof.
  intros Hi. cbv zeta. unfold main. rewrite Hi. unfold WriteDefaultRC.
  change DefaultRCName with ".codedumprc".
  destruct (WriteFile os ".codedumprc" (list_byte_of_string defaultRCContent));
    cbn; repeat split; reflexivity.
Qed.

Lemma main_init_only_writes_default_rc_witness :
  runOps (main noTables quoteASCII os_project (Ok "/home/u")
            {| flInit := true; flRCPath := "/w/broken.rc"; flRoot := "/x";
               flTarget := "src"; flOut := "x.txt"; flExt := ".go";
               flInclude := ""; flExclude := ""; flPkg := true |})
  = [OpWriteFile ".codedumprc" (list_byte_of_string defaultRCContent)].
Proof.
  apply (main_init_only_writes_default_rc noTables quoteASCII os_project
           (Ok "/home/u")
           {| flInit := true; flRCPath := "/w/broken.rc"; flRoot := "/x";
              flTarget := "src"; flOut := "x.txt"; flExt := ".go";
              flInclude := ""; flExclude := ""; flPkg := true |}
           eq_refl).
Defined.

(** X21.  The single-file program and the command built on the package
    are the same program: for the same flags on the same machine they
    make the same calls that change the file system, print the same
    text on both streams, and leave with the same status. *)
Theorem Program_main_agrees_with_command
    (u : UnicodeTables) (quote : string -> string) (os : OS)
    (home : result string) (f : Flags) :
  Program.main u quote os home f = main u quote os home f.
Proof.
  unfold Program.main, main, rcPathOf.
  destruct (flInit f); [reflexivity|]. cbv zeta.
  destruct (if negb _ then _ else _) as [c [err|]]; [reflexivity|].
  unfold Dump. cbv zeta.
  destruct (Collect os _ _) as [items [err|]]; [reflexivity|].
  destruct (dumpItems os _ items _) as [buf [err|]]; [reflexivity|].
  destruct (MkdirAll os _) as [m|]; [reflexivity|].
  destruct (WriteFile os _ buf) as [m|]; reflexivity.
Qed.

(** * The order of the items *)

(** ** Rooted paths and their elements *)

















(** ** [filepath.Rel] between rooted paths *)







(** ** The paths of a traversal are distinct *)

Section DistinctPaths.

Variables (c : Config) (excl : list string).




End DistinctPaths.




(** ** Another listing of the same tree *)

Section Listing.

Variables (c : Config) (excl : list string).






End Listing.









(** * The first error ends the run *)

Section FirstError.

Variables (os : OS) (c : Config) (excl : list string) (wd : string).

Lemma walkDir_ok_no_error (path : string) (d : node) (out out' : list Item) :
  Filepath.walkDir (collectFn os c excl wd) path d out = (out', None) ->
  forall m, ~ WalkError os c excl path d m.
Proof.
  intros Hrun m Herr.
  destruct (walkDir_post _ _ _ _ _ _ _ _ _ Hrun)
    as [_ [new [_ [_ Hreach]]]].
  specialize (Hreach eq_refl).
  destruct Herr as [p dirs Hv Hp | p Hv Hs Hst | p sz Hv Hs Hst Hrd];
    pose proof (Hreach _ _ Hv) as H; simpl in H.
  - specialize (H Hp). discriminate.
  - destruct (H Hs) as [it [_ [_ [Hst' _]]]]. congruence.
  - destruct (H Hs) as [it [_ [_ [_ [data [Hrd' _]]]]]]. congruence.
Qed.

Lemma no_error_walkDir_ok (path : string) (d : node) (out : list Item) :
  (forall m, ~ WalkError os c excl path d m) ->
  exists out', Filepath.walkDir (collectFn os c excl wd) path d out = (out', None).
Proof.
  intros Hno.
  destruct (Filepath.walkDir (collectFn os c excl wd) path d out)
    as [out' r] eqn:Hrun.
  destruct (walkDir_post _ _ _ _ _ _ _ _ _ Hrun) as [[-> | [m [-> Herr]]] _].
  - exists out'. reflexivity.
  - exfalso. exact (Hno m Herr).
Qed.

Lemma walkRange_skips_clean (path : string) (before rest : list (string * node))
    (out : list Item) :
  (forall n d m', In (n, d) before ->
     ~ WalkError os c excl (Filepath.Join [path; n]) d m') ->
  exists out1,
    Filepath.walkRange (collectFn os c excl wd) path (before ++ rest) out
    = Filepath.walkRange (collectFn os c excl wd) path rest out1.
Proof.
  revert out. induction before as [|[n d] before IH]; intros out Hclean.
  - exists out. reflexivity.
  - cbn [app]. rewrite walkRange_cons.
    destruct (no_error_walkDir_ok (Filepath.Join [path; n]) d out) as [o Ho].
    { intros m'. apply Hclean. left. reflexivity. }
    rewrite Ho. apply IH. intros n' d' m' Hin. apply Hclean. right. exact Hin.
Qed.

Lemma FirstWalkError_returned (path : string) (d : node) (m : string) :
  FirstWalkError os c excl path d m ->
  forall out, exists out',
    Filepath.walkDir (collectFn os c excl wd) path d out
    = (out', Some (OSError m)).
Proof.
  induction 1 as [path dirs m Hp | path m Hs Hst | path sz m Hs Hst Hrd
                  | path before name d1 after m Hp Hclean _ IH]; intros out.
  - rewrite (walkDir_entered _ _ _ _ _ _ _ _ Hp). eauto.
  - rewrite walkDir_file, (collectFn_file_selected _ _ _ _ _ _ Hs), Hst. eauto.
  - rewrite walkDir_file, (collectFn_file_selected _ _ _ _ _ _ Hs), Hst, Hrd.
    eauto.
  - rewrite (walkDir_entered _ _ _ _ _ _ _ _ Hp).
    destruct (walkRange_skips_clean path before ((name, d1) :: after) out Hclean)
      as [out1 ->].
    rewrite walkRange_cons.
    destruct (IH out1) as [out' ->]. exists out'. reflexivity.
Qed.

Lemma walkRange_returns_first (path : string) (dirs : list (string * node)) :
  Forall (fun nd => forall path out out' m,
              Filepath.walkDir (collectFn os c excl wd) path (snd nd) out
              = (out', Some (OSError m)) ->
              FirstWalkError os c excl path (snd nd) m) dirs ->
  forall out out' m,
    Filepath.walkRange (collectFn os c excl wd) path dirs out
    = (out', Some (OSError m)) ->
    exists before name d1 after,
      dirs = before ++ (name, d1) :: after
      /\ (forall n d m', In (n, d) before ->
            ~ WalkError os c excl (Filepath.Join [path; n]) d m')
      /\ FirstWalkError os c excl (Filepath.Join [path; name]) d1 m.
Proof.
  induction 1 as [|[name d1] rest Hd1 _ IH]; intros out out' m Hrun.
  - simpl in Hrun. discriminate.
  - rewrite walkRange_cons in Hrun.
    destruct (Filepath.walkDir (collectFn os c excl wd)
                (Filepath.Join [path; name]) d1 out) as [st' e] eqn:Ewalk.
    destruct (walkDir_post _ _ _ _ _ _ _ _ _ Ewalk)
      as [[-> | [m1 [-> _]]] _].
    + destruct (IH _ _ _ Hrun) as (before & n & d & after & -> & Hclean & Hf).
      exists ((name, d1) :: before), n, d, after.
      split; [reflexivity|]. split; [|exact Hf].
      intros n' d' m' [Heq | Hin].
      * inversion Heq; subst. exact (walkDir_ok_no_error _ _ _ _ Ewalk m').
      * apply Hclean. exact Hin.
    + simpl in Hrun. inversion Hrun; subst.
      exists [], name, d1, rest. split; [reflexivity|].
      split; [intros n d m' []|].
      apply (Hd1 _ _ _ _ Ewalk).
Qed.

Lemma walkDir_returns_first (d : node) :
  forall path out out' m,
    Filepath.walkDir (collectFn os c excl wd) path d out
    = (out', Some (OSError m)) ->
    FirstWalkError os c excl path d m.
Proof.
  induction d as [|rderr dirs IH] using node_ind_entries;
    intros path out out' m Hrun.
  - rewrite walkDir_file in Hrun.
    destruct (selects c excl path) eqn:Hsel.
    + rewrite (collectFn_file_selected _ _ _ _ _ _ Hsel) in Hrun.
      destruct (Stat os path) as [sz|m1] eqn:Est.
      * destruct (ReadFile os path) as [data|m1] eqn:Erd; [discriminate|].
        inversion Hrun; subst.
        eapply FirstWalkError_read; eassumption.
      * inversion Hrun; subst. apply FirstWalkError_stat; assumption.
    + rewrite (collectFn_file_skipped _ _ _ _ _ _ Hsel) in Hrun. discriminate.
  - destruct (matchesExclude excl (Filepath.ToSlash path)) eqn:Hp.
    + rewrite (walkDir_pruned _ _ _ _ _ _ _ _ Hp) in Hrun. discriminate.
    + rewrite (walkDir_entered _ _ _ _ _ _ _ _ Hp) in Hrun.
      destruct rderr as [m1|].
      * inversion Hrun; subst. apply FirstWalkError_readdir. exact Hp.
      * destruct (walkRange_returns_first path dirs IH _ _ _ Hrun)
          as (before & n & d & after & -> & Hclean & Hf).
        apply FirstWalkError_entry; assumption.
Qed.

Lemma FirstWalkError_WalkError (path : string) (d : node) (m : string) :
  FirstWalkError os c excl path d m -> WalkError os c excl path d m.
Proof.
  induction 1 as [path dirs m Hp | path m Hs Hst | path sz m Hs Hst Hrd
                  | path before name d1 after m Hp Hclean _ IH].
  - eapply WalkError_readdir; [constructor | exact Hp].
  - eapply WalkError_stat; [constructor | exact Hs | exact Hst].
  - eapply WalkError_read; [constructor | exact Hs | exact Hst | exact Hrd].
  - eapply WalkError_child; [exact Hp | | exact IH].
    apply in_or_app. right. left. reflexivity.
Qed.

End FirstError.

Lemma Collect_first_error (os : OS) (c : Config) (targetAbs m : string) :
  FirstScanError os c targetAbs m <->
  Collect os targetAbs c = ([], Some (OSError m)).
Proof.
  unfold Collect, Filepath.WalkDir. split.
  - intros [Hls | root Hls Hf].
    + rewrite Hls, collectFn_error. reflexivity.
    + rewrite Hls.
      destruct (FirstWalkError_returned _ _ _ (getwd_ os) _ _ _ Hf [])
        as [out' ->].
      reflexivity.
  - intros H.
    destruct (Lstat os targetAbs) as [root|m1] eqn:Els.
    + destruct (Filepath.walkDir
                  (collectFn os c (SplitClean (Exclude c)) (getwd_ os))
                  targetAbs root []) as [out r] eqn:Ew.
      destruct (walkDir_post _ _ _ _ _ _ _ _ _ Ew) as [[-> | [m1 [-> _]]] _];
        [discriminate|].
      inversion H; subst.
      eapply FirstScanError_walk; [exact Els|].
      eapply walkDir_returns_first. exact Ew.
    + rewrite collectFn_error in H. inversion H; subst.
      apply FirstScanError_lstat. exact Els.
Qed.

Lemma FirstScanError_ScanError (os : OS) (c : Config) (targetAbs m : string) :
  FirstScanError os c targetAbs m -> ScanError os c targetAbs m.
Proof.
  intros [Hls | root Hls Hf].
  - apply ScanError_lstat. exact Hls.
  - eapply ScanError_walk; [exact Hls|].
    apply FirstWalkError_WalkError. exact Hf.
Qed.

(** C5.  When a file-system error occurs in what [Collect] scans, be
    it [Lstat] of the target, [ReadDir] of a visited directory, [Stat] or
    [ReadFile] of a selected file, the run ends at the first such error
    in the order of the traversal, whatever the entries after it hold,
    other errors included: [Collect] returns that error, and no other,
    with no item, and [Dump] returns the same error without having
    created a directory or written a file. *)
Theorem scan_error_aborts_run (os : OS) (c : Config) (m : string) :
  ScanError os c (targetAbsOf os c) m ->
  exists m',
    FirstScanError os c (targetAbsOf os c) m'
    /\ ScanError os c (targetAbsOf os c) m'
    /\ (forall m'', FirstScanError os c (targetAbsOf os c) m'' -> m'' = m')
    /\ (forall items e,
          Collect os (targetAbsOf os c) c = (items, e) ->
          items = [] /\ e = Some (OSError m'))
    /\ Dump os c = ([], ("", 0%Z, Some (OSError m'))).
Proof.
  intros Herr.
  destruct (Collect_scan_error _ _ _ _ Herr) as [m' [_ Hcol]].
  pose proof (proj2 (Collect_first_error _ _ _ _) Hcol) as Hfirst.
  exists m'. split; [exact Hfirst|].
  split; [apply FirstScanError_ScanError; exact Hfirst|].
  split.
  { intros m'' H''. apply Collect_first_error in H''. congruence. }
  split.
  { intros items e H. rewrite Hcol in H. inversion H. auto. }
  unfold Dump. fold (targetAbsOf os c). rewrite Hcol. reflexivity.
Qed.

(** A directory that cannot be listed comes before a file that cannot
    be read: the run ends with the error of the directory. *)
Lemma scan_error_aborts_run_witness :
  Collect os_two_errors
    (targetAbsOf os_two_errors (cfgHere "dump.txt" ".go"))
    (cfgHere "dump.txt" ".go")
  = ([], Some (OSError "cannot list the directory"))
  /\ Dump os_two_errors (cfgHere "dump.txt" ".go")
     = ([], ("", 0%Z, Some (OSError "cannot list the directory"))).
Proof.
  destruct (scan_error_aborts_run os_two_errors (cfgHere "dump.txt" ".go")
              "permission denied")
    as (m' & Hfirst & _ & Huniq & Hcol & Hdump).
  - eapply ScanError_walk; [vm_compute; reflexivity|].
    eapply WalkError_read with (p := "/w/z.go");
      [ | vm_compute; reflexivity | vm_compute; reflexivity
        | vm_compute; reflexivity].
    eapply Visits_child with (name := "z.go");
      [vm_compute; reflexivity | simpl; auto | ].
    exact (Visits_here _ "/w/z.go" NFile).
  - assert (Hm : "cannot list the directory" = m').
    { apply Huniq.
      eapply FirstScanError_walk; [vm_compute; reflexivity|].
      apply (FirstWalkError_entry _ _ _ _ [("a.go", NFile)] "locked"
               (NDir (Some "cannot list the directory") []) [("z.go", NFile)]).
      - vm_compute. reflexivity.
      - intros n d m1 [Heq | []]. inversion Heq; subst.
        intros Hw.
        destruct Hw as [p dirs Hv Hp | p Hv Hs Hst | p sz Hv Hs Hst Hrd];
          inversion Hv; subst; discriminate.
      - apply FirstWalkError_readdir. vm_compute. reflexivity. }
    subst m'. split; [|exact Hdump].
    destruct (Collect os_two_errors _ _) as [items e] eqn:E.
    destruct (Hcol items e eq_refl) as [-> ->]. reflexivity.
Defined.
